(** * MMArchive: archive directory, palette registry, DEF codec, frame durations

    A shallow embedding of the Python sources of MMArchiveCLI
    ([MMArchiveCLI.py], [src/RSDef.py], [src/RSLod.py], [src/RSLod_part2.py],
    [src/RSLod_part4.py], [src/RSLod_graphics.py]) and the properties of the
    specification that are settled against it.

    Bytes are integers in [0, 255] kept in [list Z]; machine integers are [Z]
    with the range checks of [struct] written out; Python exceptions are
    values of [exn]; code that mutates an object threads it explicitly. *)

From Stdlib Require Import ZArith List String Ascii Bool Lia QArith Sorted.
Import ListNotations.
#[local] Open Scope Z_scope.

(** ** Python sequences: slices, slice assignment, [struct] *)

Module Py.

(** [len(l)] as an integer. *)
Definition len {A} (l : list A) : Z := Z.of_nat (List.length l).

(** A slice bound as Python normalises it: a negative bound counts from
    the end, and the result is clamped to [0, len]. *)
Definition clamp (n i : Z) : Z :=
  if i <? 0 then Z.max 0 (n + i) else Z.min n i.

(** [l[lo:hi]]. *)
Definition slice {A} (l : list A) (lo hi : Z) : list A :=
  let n := len l in
  let a := clamp n lo in
  let b := clamp n hi in
  firstn (Z.to_nat (b - a)) (skipn (Z.to_nat a) l).

(** [l[lo:]]. *)
Definition slice_from {A} (l : list A) (lo : Z) : list A :=
  skipn (Z.to_nat (clamp (len l) lo)) l.

(** [l[:hi]]. *)
Definition slice_to {A} (l : list A) (hi : Z) : list A :=
  firstn (Z.to_nat (clamp (len l) hi)) l.

(** [l[lo:hi] = v]: the slice is replaced by [v], whatever the length of
    [v]; when the bounds cross, [v] is inserted at [lo]. *)
Definition slice_assign {A} (l : list A) (lo hi : Z) (v : list A) : list A :=
  let n := len l in
  let a := clamp n lo in
  let b := Z.max a (clamp n hi) in
  firstn (Z.to_nat a) l ++ v ++ skipn (Z.to_nat b) l.

(** [l[lo:] = v]. *)
Definition slice_assign_from {A} (l : list A) (lo : Z) (v : list A) : list A :=
  firstn (Z.to_nat (clamp (len l) lo)) l ++ v.

(** [bytearray(n)]: [n] zero bytes. *)
Definition zeros (n : Z) : list Z := repeat 0 (Z.to_nat n).

(** Little-endian encoding of [v] on [n] bytes. *)
Fixpoint le_bytes (n : nat) (v : Z) : list Z :=
  match n with
  | O => []
  | S n' => (v mod 256) :: le_bytes n' (v / 256)
  end.

(** Little-endian value of a byte string. *)
Fixpoint le_value (bs : list Z) : Z :=
  match bs with
  | [] => 0
  | b :: bs' => b + 256 * le_value bs'
  end.

(** [struct.unpack('<I', bs)[0]]: fails unless [bs] has four bytes. *)
Definition unpack_u32 (bs : list Z) : option Z :=
  if Nat.eqb (List.length bs) 4 then Some (le_value bs) else None.

(** [struct.unpack('<i', bs)[0]]. *)
Definition unpack_i32 (bs : list Z) : option Z :=
  if Nat.eqb (List.length bs) 4 then
    let v := le_value bs in
    Some (if v <? 2147483648 then v else v - 4294967296)
  else None.

(** [struct.unpack('<H', bs)[0]]. *)
Definition unpack_u16 (bs : list Z) : option Z :=
  if Nat.eqb (List.length bs) 2 then Some (le_value bs) else None.

(** [struct.pack('<I', v)]: fails when [v] is not an unsigned 32-bit
    value. *)
Definition pack_u32 (v : Z) : option (list Z) :=
  if (0 <=? v) && (v <? 4294967296) then Some (le_bytes 4 v) else None.

(** [struct.pack('<i', v)]. *)
Definition pack_i32 (v : Z) : option (list Z) :=
  if (-2147483648 <=? v) && (v <? 2147483648)
  then Some (le_bytes 4 (v mod 4294967296)) else None.

(** [struct.pack('<H', v)]. *)
Definition pack_u16 (v : Z) : option (list Z) :=
  if (0 <=? v) && (v <? 65536) then Some (le_bytes 2 v) else None.

(** [struct.pack_into(fmt, buf, off, v)] once [v] is encoded as [bs]:
    fails when the bytes do not fit in the buffer at [off] (a negative
    offset counts from the end). *)
Definition pack_into (buf : list Z) (off : Z) (bs : list Z) : option (list Z) :=
  let n := len buf in
  let o := if off <? 0 then n + off else off in
  if (0 <=? o) && (o + len bs <=? n)
  then Some (firstn (Z.to_nat o) buf ++ bs ++ skipn (Z.to_nat (o + len bs)) buf)
  else None.

(** [str.lower()] on one ASCII character. *)
Definition lower_ascii (c : ascii) : ascii :=
  let n := nat_of_ascii c in
  if (Nat.leb 65 n && Nat.leb n 90)%bool then ascii_of_nat (n + 32) else c.

(** [s.lower()]. *)
Fixpoint lower (s : string) : string :=
  match s with
  | EmptyString => EmptyString
  | String c s' => String (lower_ascii c) (lower s')
  end.

(** Comparison of two strings by code points, as [<] and [>] on [str]. *)
Fixpoint compare_str (s1 s2 : string) : comparison :=
  match s1, s2 with
  | EmptyString, EmptyString => Eq
  | EmptyString, String _ _ => Lt
  | String _ _, EmptyString => Gt
  | String c1 r1, String c2 r2 =>
      match Nat.compare (nat_of_ascii c1) (nat_of_ascii c2) with
      | Eq => compare_str r1 r2
      | o => o
      end
  end.



End Py.

(** ** Frame durations ([MMArchiveCLI.py]) *)

Module Cli.

(** [frame_counts[name].append(i)], or [frame_counts[name] = [i]] for a
    new key.  A Python dict iterates in insertion order, so the dict is an
    association list in that order. *)
Fixpoint dict_append (d : list (string * list nat)) (k : string) (i : nat)
  : list (string * list nat) :=
  match d with
  | [] => [(k, [i])]
  | (k', idx) :: d' =>
      if String.eqb k k' then (k', idx ++ [i]) :: d'
      else (k', idx) :: dict_append d' k i
  end.

(** First loop of [most_repeated_frame], from index [i] on. *)
Fixpoint frame_counts (frames : list string) (i : nat)
         (d : list (string * list nat)) : list (string * list nat) :=
  match frames with
  | [] => d
  | f :: fs => frame_counts fs (S i) (dict_append d f i)
  end.

(** Second loop of [most_repeated_frame]. *)
Fixpoint pick_max (items : list (string * list nat))
         (max_count most_repeated : nat) : nat :=
  match items with
  | [] => most_repeated
  | (_, indices) :: rest =>
      if Nat.ltb max_count (List.length indices)
      then pick_max rest (List.length indices) (hd O indices)
      else pick_max rest max_count most_repeated
  end.

Definition most_repeated_frame (frames : list string) : nat :=
  pick_max (frame_counts frames 0 []) 0 0.

(** Python's true division of two integers.  The interpreter evaluates it
    in binary floating point; the model keeps the exact quotient, which the
    float approximates. *)
Definition truediv (a : Z) (b : positive) : Q := Qmake a b.

Section Durations.

(** [isAdvMapCreature] looks the name up in [objectsByID.json]; the table
    is a parameter. *)
Variable isAdvMapCreature : string -> bool.

(** Body of the loop of [get_frame_durations] for frame [num]. *)
Definition duration_of (def_type : string) (group_id : Z)
           (def_name : string) (pNum num : nat) : Q :=
  if (String.eqb def_type "9"%string && (group_id =? 4)%Z && Nat.eqb num 5)%bool
  then inject_Z 1000
  else if (String.eqb def_type "9"%string && (group_id =? 1)%Z)%bool
  then truediv 1000 8
  else if (String.eqb def_type "2"%string && (group_id =? 2)%Z && Nat.eqb num 7)%bool
  then inject_Z 3000
  else if (String.eqb def_type "3"%string && isAdvMapCreature def_name
           && Nat.eqb num pNum)%bool
  then inject_Z 1000
  else if String.eqb def_type "3"%string
  then truediv 1000 6
  else inject_Z 100.

Definition get_frame_durations (frames : list string) (def_type : string)
           (group_id : Z) (def_name : string) : list Q :=
  let pNum := most_repeated_frame frames in
  map (duration_of def_type group_id def_name pNum)
      (seq 0 (List.length frames)).

End Durations.

End Cli.

(** ** Exceptions and results *)

(** The Python exceptions the modelled code can raise. *)
Inductive exn : Type :=
| StructError          (* struct.error *)
| ValueError
| IndexError
| AssertionError
| OSError              (* an I/O error of the operating system *)
| ZlibError            (* zlib.error *)
| ERSLodWrongFileName
| ERSDefException.

(** The result of a computation that may raise. *)
Inductive result (A : Type) : Type :=
| Ok (a : A)
| Raise (e : exn).
Arguments Ok {A} a.
Arguments Raise {A} e.

Definition rbind {A B} (m : result A) (k : A -> result B) : result B :=
  match m with
  | Ok a => k a
  | Raise e => Raise e
  end.

(** An optional value, raising [e] when it is absent. *)
Definition or_raise {A} (e : exn) (o : option A) : result A :=
  match o with
  | Some a => Ok a
  | None => Raise e
  end.

Declare Scope res_scope.
Delimit Scope res_scope with res.
Notation "x <- m ;; k" := (rbind m (fun x => k))
  (at level 61, m at next level, right associativity) : res_scope.
Notation "' p <- m ;; k" := (rbind m (fun x => match x with p => k end))
  (at level 61, p pattern, m at next level, right associativity) : res_scope.

Module PySeq.

(** [l[i]]: a negative index counts from the end. *)
Definition index {A} (l : list A) (i : Z) : result A :=
  let n := Py.len l in
  let j := if i <? 0 then n + i else i in
  if (0 <=? j) && (j <? n)
  then or_raise IndexError (nth_error l (Z.to_nat j))
  else Raise IndexError.

(** [l[i] = v]. *)
Definition store {A} (l : list A) (i : Z) (v : A) : result (list A) :=
  let n := Py.len l in
  let j := if i <? 0 then n + i else i in
  if (0 <=? j) && (j <? n)
  then Ok (firstn (Z.to_nat j) l ++ v :: skipn (S (Z.to_nat j)) l)
  else Raise IndexError.

(** [range(n)]. *)
Definition range (n : Z) : list Z := map Z.of_nat (seq 0 (Z.to_nat n)).

(** [bytearray.append(v)]: [v] must be a byte. *)
Definition append_byte (b : list Z) (v : Z) : result (list Z) :=
  if (0 <=? v) && (v <? 256) then Ok (b ++ [v]) else Raise ValueError.

(** Equality of two byte strings, as [==] on [bytes] and [bytearray]. *)
Definition bytes_eqb (a b : list Z) : bool :=
  if list_eq_dec Z.eq_dec a b then true else false.

End PySeq.

(** ** DEF sprite codec ([src/RSDef.py]) *)

Module Def.
#[local] Open Scope res_scope.

(** [TRSDefPic]: the header of a frame block, eight little-endian u32. *)
Record TRSDefPic : Type := mkPic {
  FileSize : Z;
  Compression : Z;
  Width : Z;
  Height : Z;
  FrameWidth : Z;
  FrameHeight : Z;
  FrameLeft : Z;
  FrameTop : Z
}.

(** What [TRSDefWrapper] keeps of a parsed DEF: the bytes, the number of
    frames and the flat list of frame offsets ([_pic_links]). *)
Record TRSDefWrapper : Type := mkWrapper {
  data : list Z;
  pictures_count : Z;
  pic_links : list Z
}.

(** The [TRSDefPic] that [struct.unpack('<8I', bs)] fills. *)
Definition unpack_pic (bs : list Z) : result TRSDefPic :=
  if Nat.eqb (List.length bs) 32 then
    let f := fun k => Py.le_value (Py.slice bs (4 * k) (4 * k + 4)) in
    Ok (mkPic (f 0) (f 1) (f 2) (f 3) (f 4) (f 5) (f 6) (f 7))
  else Raise StructError.

(** The two buffers of a decode.  With [both_buffers] false,
    [_do_extract_buffer] binds [sh_buf] to the very object [buf]: a write
    through either name changes the one buffer. *)
Inductive bufs : Type :=
| Shared (buf : list Z)
| Separate (buf sh_buf : list Z).

Definition obj_of (st : bufs) : list Z :=
  match st with Shared b => b | Separate b _ => b end.

Definition sh_of (st : bufs) : list Z :=
  match st with Shared b => b | Separate _ s => s end.

(** [buf[i] = v]. *)
Definition write_buf (st : bufs) (i v : Z) : result bufs :=
  match st with
  | Shared b => b' <- PySeq.store b i v ;; Ok (Shared b')
  | Separate b s => b' <- PySeq.store b i v ;; Ok (Separate b' s)
  end.

(** [sh_buf[i] = v]. *)
Definition write_sh (st : bufs) (i v : Z) : result bufs :=
  match st with
  | Shared b => b' <- PySeq.store b i v ;; Ok (Shared b')
  | Separate b s => s' <- PySeq.store s i v ;; Ok (Separate b s')
  end.

(** [for k in ks: if p + k < len(data): buf[base + k] = data[p + k]]. *)
Fixpoint copy_pixels (dat : list Z) (st : bufs) (base p : Z) (ks : list Z)
  : result bufs :=
  match ks with
  | [] => Ok st
  | k :: ks' =>
      if p + k <? Py.len dat then
        v <- PySeq.index dat (p + k) ;;
        st' <- write_buf st (base + k) v ;;
        copy_pixels dat st' base p ks'
      else copy_pixels dat st base p ks'
  end.

(** [for k in ks: sh_buf[base + k] = code], and [buf[base + k] = code] as
    well when [flag] holds. *)
Fixpoint fill_shadow (flag : bool) (st : bufs) (base code : Z) (ks : list Z)
  : result bufs :=
  match ks with
  | [] => Ok st
  | k :: ks' =>
      st1 <- write_sh st (base + k) code ;;
      st2 <- (if flag then write_buf st1 (base + k) code else Ok st1) ;;
      fill_shadow flag st2 base code ks'
  end.

(** One opcode of a compression-1 row: two bytes [code], [length - 1],
    followed by [length] literal bytes when [code] is 255.  Returns the
    buffers, [p] and [i] after it. *)
Definition opcode1 (dat : list Z) (x j : Z) (st : bufs) (p i : Z)
  : result (bufs * Z * Z) :=
  code <- PySeq.index dat p ;;
  value <- PySeq.index dat (p + 1) ;;
  let p := p + 2 in
  let length := value + 1 in
  if code =? 255 then
    st' <- copy_pixels dat st (j * x + i) p
             (PySeq.range (Z.min length (x - i))) ;;
    Ok (st', p + length, i + length)
  else
    st' <- fill_shadow false st (j * x + i) code
             (PySeq.range (Z.min length (x - i))) ;;
    Ok (st', p, i + length).

(** The [while i < x] loop of a compression-1 row.  Every opcode advances
    [i] by at least one, so [x - i] iterations are enough.  The test
    [i < 0] after an opcode is written in [_do_extract_buffer] only; [i]
    grows by [value + 1] for a byte [value], so the test never succeeds. *)
Fixpoint row1 (fuel : nat) (dat : list Z) (x j : Z) (st : bufs) (p i : Z)
  : result bufs :=
  match fuel with
  | O => Ok st
  | S fuel' =>
      if i <? x then
        if p >=? Py.len dat - 1 then Ok st
        else
          '(st', p', i') <- opcode1 dat x j st p i ;;
          if i' <? 0 then Ok st' else row1 fuel' dat x j st' p' i'
      else Ok st
  end.

(** One opcode of a compression-2 or -3 row: one byte
    [(code << 5) | (length - 1)], followed by [length] literal bytes when
    [code] is 7.  [flag5] tells whether a run of code 5 is written into
    the object buffer too. *)
Definition opcode2 (flag5 : bool) (dat : list Z) (x j : Z) (st : bufs)
           (p i : Z) : result (bufs * Z * Z) :=
  value <- PySeq.index dat p ;;
  let p := p + 1 in
  let code := value / 32 in
  let length := Z.land value 31 + 1 in
  if code =? 7 then
    st' <- copy_pixels dat st (j * x + i) p
             (PySeq.range (Z.min length (x - i))) ;;
    Ok (st', p + length, i + length)
  else
    st' <- fill_shadow ((code =? 5) && flag5) st (j * x + i) code
             (PySeq.range (Z.min length (x - i))) ;;
    Ok (st', p, i + length).

(** The [while i < x] loop of a compression-2 or -3 row. *)
Fixpoint row2 (fuel : nat) (flag5 : bool) (dat : list Z) (x j : Z)
         (st : bufs) (p i : Z) : result bufs :=
  match fuel with
  | O => Ok st
  | S fuel' =>
      if i <? x then
        if p >=? Py.len dat then Ok st
        else
          '(st', p', i') <- opcode2 flag5 dat x j st p i ;;
          if i' <? 0 then Ok st' else row2 fuel' flag5 dat x j st' p' i'
      else Ok st
  end.

(** [for j in range(y)] over compression-1 rows: a u32 line offset
    relative to [block], then the row. *)
Fixpoint rows1 (dat : list Z) (block x : Z) (st : bufs) (js : list Z)
  : result bufs :=
  match js with
  | [] => Ok st
  | j :: js' =>
      line_offset <- or_raise StructError
        (Py.unpack_u32 (Py.slice dat (block + j * 4) (block + j * 4 + 4))) ;;
      st' <- row1 (Z.to_nat x) dat x j st (block + line_offset) 0 ;;
      rows1 dat block x st' js'
  end.

(** [for j in range(y)] over compression-2 or -3 rows: a u16 line offset
    relative to [block], then the row. *)
Fixpoint rows2 (flag5 : bool) (dat : list Z) (block x : Z) (st : bufs)
         (js : list Z) : result bufs :=
  match js with
  | [] => Ok st
  | j :: js' =>
      line_offset <- or_raise StructError
        (Py.unpack_u16 (Py.slice dat (block + j * 2) (block + j * 2 + 2))) ;;
      st' <- row2 (Z.to_nat x) flag5 dat x j st (block + line_offset) 0 ;;
      rows2 flag5 dat block x st' js'
  end.

(** The test for a frame block of the old format, which has no rectangle
    fields. *)
Definition is_old_format (h : TRSDefPic) : bool :=
  (FrameWidth h >? Width h) && (FrameHeight h >? Height h)
  && (Compression h =? 1).

(** The header as the decoder uses it, the frame size [x], [y] and the
    offset [block] of the line data, for a header [h] read at
    [block_offset]. *)
Definition frame_geometry (h : TRSDefPic) (block_offset : Z)
  : TRSDefPic * Z * Z * Z :=
  if is_old_format h then
    (mkPic (FileSize h) (Compression h) (Width h) (Height h)
           (Width h) (Height h) 0 0,
     Width h, Height h, block_offset + 32 - 16)
  else (h, FrameWidth h, FrameHeight h, block_offset + 32).

(** The decompression that both decoders share once the buffers are
    allocated: [flag5] is the condition under which a run of code 5 is
    also written into the object buffer. *)
Definition decompress (flag5 : bool) (dat : list Z) (compression block x y : Z)
           (st : bufs) : result bufs :=
  if compression =? 1 then rows1 dat block x st (PySeq.range y)
  else if (compression =? 2) || (compression =? 3) then
    let y' := if compression =? 3 then y * (x / 32) else y in
    let x' := if compression =? 3 then 32 else x in
    rows2 flag5 dat block x' st (PySeq.range y')
  else Ok st.

(** What [_do_extract_buffer] does once the header is settled: [pic_hdr]
    is the header as used, [x] by [y] the frame and [block] the offset of
    the line data. *)
Definition do_extract_body (dat : list Z) (both_buffers : bool)
           (geometry : TRSDefPic * Z * Z * Z)
  : result (TRSDefPic * list Z * option (list Z) * option (list Z)) :=
  let '(pic_hdr, x, y, block) := geometry in
  if Compression pic_hdr =? 0 then
    Ok (pic_hdr, Py.slice dat block (block + x * y), None, None)
  else
    let st := if both_buffers
              then Separate (Py.zeros (x * y)) (repeat 255 (Z.to_nat (x * y)))
              else Shared (Py.zeros (x * y)) in
    st' <- decompress both_buffers dat (Compression pic_hdr) block x y st ;;
    let buf := obj_of st' in
    let sh_buf := sh_of st' in
    Ok (pic_hdr, buf,
        (if Nat.eqb (List.length buf) 0 then None else Some buf),
        (if PySeq.bytes_eqb sh_buf buf then None else Some sh_buf)).

(** [_do_extract_buffer(offset, both_buffers)]: the header as used, [pic],
    [buf] and [sh_buf] as returned. *)
Definition _do_extract_buffer (w : TRSDefWrapper) (offset : Z)
           (both_buffers : bool)
  : result (TRSDefPic * list Z * option (list Z) * option (list Z)) :=
  block_offset <- (if offset <? pictures_count w
                   then PySeq.index (pic_links w) offset
                   else Ok offset) ;;
  h <- unpack_pic (Py.slice (data w) block_offset (block_offset + 32)) ;;
  do_extract_body (data w) both_buffers (frame_geometry h block_offset).

(** [get_pic_header(pic_num)]. *)
Definition get_pic_header (w : TRSDefWrapper) (pic_num : Z)
  : result TRSDefPic :=
  offset <- PySeq.index (pic_links w) pic_num ;;
  if offset + 32 >? Py.len (data w) then Raise ERSDefException
  else unpack_pic (Py.slice (data w) offset (offset + 32)).

(** What [_extract_buffer] does once the header is settled. *)
Definition extract_body (dat : list Z) (geometry : TRSDefPic * Z * Z * Z)
  : result (TRSDefPic * list Z * option (list Z)) :=
  let '(pic_hdr, x, y, block_offset) := geometry in
  if Compression pic_hdr =? 0 then
    Ok (pic_hdr, Py.slice dat block_offset (block_offset + x * y), None)
  else
    let st := Separate (Py.zeros (x * y)) (repeat 255 (Z.to_nat (x * y))) in
    st' <- decompress true dat (Compression pic_hdr) block_offset x y st ;;
    Ok (pic_hdr, obj_of st', Some (sh_of st')).

(** The header that [_extract_buffer] reads for [offset], and the offset
    of the frame block it belongs to. *)
Definition extract_header (w : TRSDefWrapper) (offset : Z)
  : result (TRSDefPic * Z) :=
  if offset <? pictures_count w then
    h <- get_pic_header w offset ;;
    link <- PySeq.index (pic_links w) offset ;;
    Ok (h, link)
  else
    h <- unpack_pic (Py.slice (data w) offset (offset + 32)) ;;
    Ok (h, offset).

(** [_extract_buffer(offset)]: the header as used, the object buffer and
    the shadow buffer. *)
Definition _extract_buffer (w : TRSDefWrapper) (offset : Z)
  : result (TRSDefPic * list Z * option (list Z)) :=
  '(h, start) <- extract_header w offset ;;
  extract_body (data w) (frame_geometry h start).

(** *** Images

    The decoded buffers are handed to Pillow.  An image of mode ['P'] is a
    width, a height and the palette indices in rows. *)

Record image : Type := mkImage {
  im_w : Z;
  im_h : Z;
  im_pix : list Z
}.

(** [Image.new('P', (w, h), 0)]. *)
Definition image_new (w h : Z) : image := mkImage w h (Py.zeros (w * h)).

(** [Image.frombytes('P', (w, h), buf)]: the bytes must fill the image. *)
Definition frombytes (w h : Z) (buf : list Z) : result image :=
  if Py.len buf =? w * h then Ok (mkImage w h buf) else Raise ValueError.

(** The pixel at column [x] and row [y], 0 outside the image. *)
Definition pixel (im : image) (x y : Z) : Z :=
  if (0 <=? x) && (x <? im_w im) && (0 <=? y) && (y <? im_h im)
  then nth (Z.to_nat (y * im_w im + x)) (im_pix im) 0
  else 0.

(** [pixels[x, y]] on [im.load()]. *)
Definition getpixel (im : image) (x y : Z) : result Z :=
  if (0 <=? x) && (x <? im_w im) && (0 <=? y) && (y <? im_h im)
  then PySeq.index (im_pix im) (y * im_w im + x)
  else Raise IndexError.

(** [canvas.paste(frame, (left, top))]: the frame replaces the pixels it
    covers and is clipped at the border of the canvas. *)
Definition paste (canvas frame : image) (left top : Z) : image :=
  mkImage (im_w canvas) (im_h canvas)
    (flat_map
       (fun y =>
          map (fun x =>
                 if (left <=? x) && (x <? left + im_w frame)
                    && (top <=? y) && (y <? top + im_h frame)
                 then pixel frame (x - left) (y - top)
                 else pixel canvas x y)
              (PySeq.range (im_w canvas)))
       (PySeq.range (im_h canvas))).

(** [im.getbbox()]: the bounding box (left, upper, right, lower) of the
    non-zero pixels, or [None] when there is none. *)
Definition getbbox (im : image) : option (Z * Z * Z * Z) :=
  let cols := filter
    (fun x => existsb (fun y => negb (pixel im x y =? 0))
                      (PySeq.range (im_h im)))
    (PySeq.range (im_w im)) in
  let rows := filter
    (fun y => existsb (fun x => negb (pixel im x y =? 0))
                      (PySeq.range (im_w im)))
    (PySeq.range (im_h im)) in
  match cols, rows with
  | c :: _, r :: _ => Some (c, r, last cols c + 1, last rows r + 1)
  | _, _ => None
  end.

(** [_do_extract_bmp(offset, bmp, bmp_spec)]; [want_bmp] and [want_spec]
    tell which of the two arguments are not [None]. *)
Definition _do_extract_bmp (w : TRSDefWrapper) (offset : Z)
           (want_bmp want_spec : bool)
  : result (option image * option image) :=
  '(pic_hdr, pic, buf, sh_buf) <- _do_extract_buffer w offset want_spec ;;
  bmp <-
    (if want_bmp then
       let canvas := image_new (Width pic_hdr) (Height pic_hdr) in
       match buf with
       | Some b =>
           frame <- frombytes (FrameWidth pic_hdr) (FrameHeight pic_hdr) b ;;
           Ok (Some (paste canvas frame (FrameLeft pic_hdr) (FrameTop pic_hdr)))
       | None => Ok (Some canvas)
       end
     else Ok None) ;;
  bmp_spec <-
    (if want_spec then
       let canvas := image_new (Width pic_hdr) (Height pic_hdr) in
       let sh := match sh_buf with
                 | Some s => s
                 | None => repeat 255 (Z.to_nat (FrameWidth pic_hdr
                                                 * FrameHeight pic_hdr))
                 end in
       if Nat.eqb (List.length sh) 0 then Ok (Some canvas)
       else
         frame <- frombytes (FrameWidth pic_hdr) (FrameHeight pic_hdr) sh ;;
         Ok (Some (paste canvas frame (FrameLeft pic_hdr) (FrameTop pic_hdr)))
     else Ok None) ;;
  Ok (bmp, bmp_spec).

(** [extract_bmp(pic_num, bmp_spec=True)]: the object image and the shadow
    image, drawn with [_extract_buffer]. *)
Definition extract_bmp (w : TRSDefWrapper) (pic_num : Z)
  : result (image * option image) :=
  offset <- PySeq.index (pic_links w) pic_num ;;
  '(pic_hdr, buf, sh_buf) <- _extract_buffer w offset ;;
  let canvas := image_new (Width pic_hdr) (Height pic_hdr) in
  img <-
    (if Nat.eqb (List.length buf) 0 then Ok canvas
     else
       frame <- frombytes (FrameWidth pic_hdr) (FrameHeight pic_hdr) buf ;;
       Ok (paste canvas frame (FrameLeft pic_hdr) (FrameTop pic_hdr))) ;;
  img_spec <-
    match sh_buf with
    | Some sh =>
        if Nat.eqb (List.length sh) 0 then Ok None
        else
          frame <- frombytes (FrameWidth pic_hdr) (FrameHeight pic_hdr) sh ;;
          Ok (Some (paste canvas frame (FrameLeft pic_hdr) (FrameTop pic_hdr)))
    | None => Ok None
    end ;;
  Ok (img, img_spec).

(** *** Packing ([TRSDefMaker._pack_bitmap]) *)

(** The nested loops that read the frame rectangle of an image into a
    buffer, row by row. *)
Fixpoint gather_row (im : image) (left y : Z) (xs : list Z)
  : result (list Z) :=
  match xs with
  | [] => Ok []
  | x :: xs' =>
      px <- getpixel im (left + x) y ;;
      rest <- gather_row im left y xs' ;;
      Ok (px :: rest)
  end.

Fixpoint gather (im : image) (left top frame_w : Z) (ys : list Z)
  : result (list Z) :=
  match ys with
  | [] => Ok []
  | y :: ys' =>
      row <- gather_row im left (top + y) (PySeq.range frame_w) ;;
      rest <- gather im left top frame_w ys' ;;
      Ok (row ++ rest)
  end.

(** The inner [while] of the packers: the number of equal shadow values
    from position [base + i] on, cut at the row end and at [limit]. *)
Fixpoint run_length (fuel : nat) (sh_buf : list Z) (base i frame_w code : Z)
         (limit length : Z) : result Z :=
  match fuel with
  | O => Ok length
  | S fuel' =>
      if i + length <? frame_w then
        v <- PySeq.index sh_buf (base + i + length) ;;
        if v =? code then
          if length + 1 >=? limit then Ok (length + 1)
          else run_length fuel' sh_buf base i frame_w code limit (length + 1)
        else Ok length
      else Ok length
  end.

(** The [while i < frame_w] loop of the compression-1 packer for row [j]. *)
Fixpoint pack_row1 (fuel : nat) (buf sh_buf : list Z) (frame_w j : Z)
         (compressed : list Z) (i : Z) : result (list Z) :=
  match fuel with
  | O => Ok compressed
  | S fuel' =>
      if i <? frame_w then
        code <- PySeq.index sh_buf (j * frame_w + i) ;;
        length <- run_length (Z.to_nat frame_w) sh_buf (j * frame_w) i
                    frame_w code 256 1 ;;
        c1 <- PySeq.append_byte compressed code ;;
        c2 <- PySeq.append_byte c1 (length - 1) ;;
        let c3 := if code =? 255
                  then c2 ++ Py.slice buf (j * frame_w + i)
                                      (j * frame_w + i + length)
                  else c2 in
        pack_row1 fuel' buf sh_buf frame_w j c3 (i + length)
      else Ok compressed
  end.

(** The [while i < frame_w] loop of the compression-2 and -3 packer. *)
Fixpoint pack_row2 (fuel : nat) (buf sh_buf : list Z) (frame_w j : Z)
         (compressed : list Z) (i : Z) : result (list Z) :=
  match fuel with
  | O => Ok compressed
  | S fuel' =>
      if i <? frame_w then
        code <- PySeq.index sh_buf (j * frame_w + i) ;;
        length <- run_length (Z.to_nat frame_w) sh_buf (j * frame_w) i
                    frame_w code 32 1 ;;
        c1 <- PySeq.append_byte compressed
                (Z.lor (length - 1) (Z.shiftl code 5)) ;;
        let c2 := if code >=? 7
                  then c1 ++ Py.slice buf (j * frame_w + i)
                                      (j * frame_w + i + length)
                  else c1 in
        pack_row2 fuel' buf sh_buf frame_w j c2 (i + length)
      else Ok compressed
  end.

(** [for j in range(frame_h)] of the compression-1 packer: the length of
    [compressed] so far goes into the offset table, then the row. *)
Fixpoint pack_rows1 (buf sh_buf : list Z) (frame_w : Z)
         (offset_table compressed : list Z) (js : list Z)
  : result (list Z * list Z) :=
  match js with
  | [] => Ok (offset_table, compressed)
  | j :: js' =>
      bs <- or_raise StructError (Py.pack_u32 (Py.len compressed)) ;;
      table <- or_raise StructError (Py.pack_into offset_table (j * 4) bs) ;;
      c <- pack_row1 (Z.to_nat frame_w) buf sh_buf frame_w j compressed 0 ;;
      pack_rows1 buf sh_buf frame_w table c js'
  end.

(** [for j in range(frame_h)] of the compression-2 and -3 packer. *)
Fixpoint pack_rows2 (buf sh_buf : list Z) (frame_w : Z)
         (offset_table compressed : list Z) (js : list Z)
  : result (list Z * list Z) :=
  match js with
  | [] => Ok (offset_table, compressed)
  | j :: js' =>
      bs <- or_raise StructError (Py.pack_u16 (Py.len compressed)) ;;
      table <- or_raise StructError (Py.pack_into offset_table (j * 2) bs) ;;
      c <- pack_row2 (Z.to_nat frame_w) buf sh_buf frame_w j compressed 0 ;;
      pack_rows2 buf sh_buf frame_w table c js'
  end.

(** [struct.pack('<8I', ...)]. *)
Fixpoint pack_u32s (vs : list Z) : result (list Z) :=
  match vs with
  | [] => Ok []
  | v :: vs' =>
      bs <- or_raise StructError (Py.pack_u32 v) ;;
      rest <- pack_u32s vs' ;;
      Ok (bs ++ rest)
  end.

(** The last step of [_pack_bitmap]: the size of the body is written into
    the first header field. *)
Definition set_file_size (res : list Z) : result (list Z) :=
  bs <- or_raise StructError (Py.pack_u32 (Py.len res - 32)) ;;
  or_raise StructError (Py.pack_into res 0 bs).

(** [_pack_bitmap(bmp, spec, compr)] for a paletted [bmp]. *)
Definition _pack_bitmap (bmp : image) (spec : option image) (compr : Z)
  : result (list Z) :=
  let w := im_w bmp in
  let h := im_h bmp in
  if (compr =? 3) && negb ((w mod 32 =? 0) && (h mod 32 =? 0))
  then Raise AssertionError
  else
    let '(r_left, r_top, r_right, r_bottom) :=
      if negb (compr =? 0) then
        let bbox := match spec with
                    | Some sp => getbbox sp
                    | None => getbbox bmp
                    end in
        let '(l, t, r, b) := match bbox with
                             | Some box => box
                             | None => (0, 0, 0, 0)
                             end in
        if compr =? 3
        then ((l / 32) * 32, (t / 32) * 32,
              ((r + 31) / 32) * 32, ((b + 31) / 32) * 32)
        else (l, t, r, b)
      else (0, 0, w, h) in
    let frame_w := r_right - r_left in
    let frame_h := r_bottom - r_top in
    header <- pack_u32s [0; compr; w; h; frame_w; frame_h; r_left; r_top] ;;
    if frame_w =? 0 then set_file_size header
    else
      buf <- gather bmp r_left r_top frame_w (PySeq.range frame_h) ;;
      sh_buf <-
        match spec with
        | Some sp => gather sp r_left r_top frame_w (PySeq.range frame_h)
        | None =>
            Ok (map (fun b => if b <? (if compr =? 1 then 8 else 7)
                              then b else 255) buf)
        end ;;
      body <-
        (if compr =? 0 then Ok buf
         else if compr =? 1 then
           '(table, compressed) <-
              pack_rows1 buf sh_buf frame_w (Py.zeros (frame_h * 4)) []
                         (PySeq.range frame_h) ;;
           Ok (table ++ compressed)
         else if (compr =? 2) || (compr =? 3) then
           let frame_h' := if compr =? 3 then frame_h * (frame_w / 32)
                           else frame_h in
           let frame_w' := if compr =? 3 then 32 else frame_w in
           '(table, compressed) <-
              pack_rows2 buf sh_buf frame_w' (Py.zeros (frame_h' * 2)) []
                         (PySeq.range frame_h') ;;
           Ok (table ++ compressed)
         else Ok []) ;;
      set_file_size (header ++ body).

(** *** Colours and palettes *)

(** The loop of [make_log_palette]. *)
Fixpoint palette_loop (palette_data : list Z) (ixs : list Z)
  : result (list (Z * Z * Z)) :=
  match ixs with
  | [] => Ok []
  | i :: ixs' =>
      r <- PySeq.index palette_data (i * 3) ;;
      g <- PySeq.index palette_data (i * 3 + 1) ;;
      b <- PySeq.index palette_data (i * 3 + 2) ;;
      rest <- palette_loop palette_data ixs' ;;
      Ok ((r, g, b) :: rest)
  end.

(** [make_log_palette(palette_data)]: the 256 colours of a palette of 768
    bytes. *)
Definition make_log_palette (palette_data : list Z)
  : result (list (Z * Z * Z)) :=
  if negb (Py.len palette_data =? 768) then Raise ValueError
  else palette_loop palette_data (PySeq.range 256).

(** [[c for rgb in pal for c in rgb]]: the palette as [putpalette] takes
    it. *)
Definition pal_data (pal : list (Z * Z * Z)) : list Z :=
  flat_map (fun rgb => let '(r, g, b) := rgb in [r; g; b]) pal.

(** [swap_color(color)]. *)
Definition swap_color (color : Z) : Z :=
  Z.lor (Z.lor (Z.shiftl (Z.land color 255) 16) (Z.land color 65280))
        (Z.land (Z.shiftr color 16) 255).

(** [[swap_color((r << 16) | (g << 8) | b) for r, g, b in pal]]. *)
Definition lookup_array (pal : list (Z * Z * Z)) : list Z :=
  map (fun rgb => let '(r, g, b) := rgb in
                  swap_color (Z.lor (Z.lor (Z.shiftl r 16) (Z.shiftl g 8)) b))
      pal.

(** An image of mode ['RGBA']. *)
Record rgba_image : Type := mkRgba {
  rgba_w : Z;
  rgba_h : Z;
  rgba_pix : list (Z * Z * Z * Z)
}.

(** The inner loop of [_make_full_bmp] for row [y]. *)
Fixpoint full_row (pal1 pal2 : list Z) (bmp bmp_spec : image) (y : Z)
         (xs : list Z) : result (list (Z * Z * Z * Z)) :=
  match xs with
  | [] => Ok []
  | x :: xs' =>
      p1 <- getpixel bmp x y ;;
      p2 <- getpixel bmp_spec x y ;;
      color <- (if p2 =? 255 then PySeq.index pal1 p1
                else PySeq.index pal2 p2) ;;
      rest <- full_row pal1 pal2 bmp bmp_spec y xs' ;;
      Ok ((Z.land (Z.shiftr color 16) 255, Z.land (Z.shiftr color 8) 255,
           Z.land color 255, 255) :: rest)
  end.

Fixpoint full_rows (pal1 pal2 : list Z) (bmp bmp_spec : image) (w : Z)
         (ys : list Z) : result (list (Z * Z * Z * Z)) :=
  match ys with
  | [] => Ok []
  | y :: ys' =>
      row <- full_row pal1 pal2 bmp bmp_spec y (PySeq.range w) ;;
      rest <- full_rows pal1 pal2 bmp bmp_spec w ys' ;;
      Ok (row ++ rest)
  end.

(** [_make_full_bmp(bmp, bmp_spec)] for two images of mode ['P'];
    [pure_pal] and [pal] are [self._pure_pal] and [self._pal]. *)
Definition _make_full_bmp (pure_pal pal : list (Z * Z * Z))
           (bmp bmp_spec : image) : result rgba_image :=
  let w := im_w bmp in
  let h := im_h bmp in
  if h =? 0 then Ok (mkRgba w h [])
  else
    pix <- full_rows (lookup_array pure_pal) (lookup_array pal) bmp bmp_spec
                     w (PySeq.range h) ;;
    Ok (mkRgba w h pix).

End Def.

(** ** The archive file manager ([src/RSLod_part2.py]) *)

Module Lod.

(** [TRSMMFilesOptions]: the layout of a directory entry and of the file. *)
Record TRSMMFilesOptions : Type := mkOptions {
  NameSize : Z;
  AddrOffset : Z;
  SizeOffset : Z;
  UnpackedSizeOffset : Z;
  PackedSizeOffset : Z;
  ItemSize : Z;
  DataStart : Z;
  AddrStart : Z;
  MinFileSize : Z
}.

Definition rs_mm_files_options_initialize : TRSMMFilesOptions :=
  mkOptions 0 (-1) (-1) (-1) (-1) 0 0 0 0.

(** An in-memory stream ([io.BytesIO]): its bytes and its position. *)
Record stream : Type := mkStream {
  s_bytes : list Z;
  s_pos : Z
}.

(** The file object [write_stream]: the path it was opened on, its
    position, and whether its mode allows reading (['r+b'] does, ['wb']
    does not). *)
Record wstream : Type := mkWstream {
  ws_path : string;
  ws_pos : Z;
  ws_readable : bool
}.

(** [TRSMMFiles], together with the part of the outside world it acts on:
    [disk] maps a path to the bytes of the file, and [io_budget], when it
    is [Some n], makes the operating system fail at the call after the
    [n]-th ([None]: it never fails).  [file_buffers] holds the bytes of
    each write-on-demand [BytesIO]; every use of such a buffer sets its
    position first, so the position is not kept.  [file_time] is left
    out: only [check_file_changed] reads it. *)
Record TRSMMFiles : Type := mkFiles {
  options : TRSMMFilesOptions;
  in_file : string;
  out_file : string;
  write_stream : option wstream;
  writes_count : Z;
  block_stream : option string;
  block_in_file : bool;
  write_on_demand : bool;
  data : list Z;
  count : Z;
  file_size : Z;
  file_buffers : list (option (list Z));
  sorted : bool;
  games_lod : bool;
  user_data : list Z;
  user_data_size : Z;
  ignore_unzip_errors : bool;
  disk : list (string * list Z);
  io_budget : option nat
}.

Definition set_options (v : TRSMMFilesOptions) (f : TRSMMFiles) : TRSMMFiles :=
  mkFiles v (in_file f) (out_file f) (write_stream f) (writes_count f) (block_stream f) (block_in_file f) (write_on_demand f) (data f) (count f) (file_size f) (file_buffers f) (sorted f) (games_lod f) (user_data f) (user_data_size f) (ignore_unzip_errors f) (disk f) (io_budget f).
Definition set_in_file (v : string) (f : TRSMMFiles) : TRSMMFiles :=
  mkFiles (options f) v (out_file f) (write_stream f) (writes_count f) (block_stream f) (block_in_file f) (write_on_demand f) (data f) (count f) (file_size f) (file_buffers f) (sorted f) (games_lod f) (user_data f) (user_data_size f) (ignore_unzip_errors f) (disk f) (io_budget f).
Definition set_out_file (v : string) (f : TRSMMFiles) : TRSMMFiles :=
  mkFiles (options f) (in_file f) v (write_stream f) (writes_count f) (block_stream f) (block_in_file f) (write_on_demand f) (data f) (count f) (file_size f) (file_buffers f) (sorted f) (games_lod f) (user_data f) (user_data_size f) (ignore_unzip_errors f) (disk f) (io_budget f).
Definition set_write_stream (v : option wstream) (f : TRSMMFiles) : TRSMMFiles :=
  mkFiles (options f) (in_file f) (out_file f) v (writes_count f) (block_stream f) (block_in_file f) (write_on_demand f) (data f) (count f) (file_size f) (file_buffers f) (sorted f) (games_lod f) (user_data f) (user_data_size f) (ignore_unzip_errors f) (disk f) (io_budget f).
Definition set_writes_count (v : Z) (f : TRSMMFiles) : TRSMMFiles :=
  mkFiles (options f) (in_file f) (out_file f) (write_stream f) v (block_stream f) (block_in_file f) (write_on_demand f) (data f) (count f) (file_size f) (file_buffers f) (sorted f) (games_lod f) (user_data f) (user_data_size f) (ignore_unzip_errors f) (disk f) (io_budget f).
Definition set_block_stream (v : option string) (f : TRSMMFiles) : TRSMMFiles :=
  mkFiles (options f) (in_file f) (out_file f) (write_stream f) (writes_count f) v (block_in_file f) (write_on_demand f) (data f) (count f) (file_size f) (file_buffers f) (sorted f) (games_lod f) (user_data f) (user_data_size f) (ignore_unzip_errors f) (disk f) (io_budget f).
Definition set_block_in_file (v : bool) (f : TRSMMFiles) : TRSMMFiles :=
  mkFiles (options f) (in_file f) (out_file f) (write_stream f) (writes_count f) (block_stream f) v (write_on_demand f) (data f) (count f) (file_size f) (file_buffers f) (sorted f) (games_lod f) (user_data f) (user_data_size f) (ignore_unzip_errors f) (disk f) (io_budget f).
Definition set_write_on_demand (v : bool) (f : TRSMMFiles) : TRSMMFiles :=
  mkFiles (options f) (in_file f) (out_file f) (write_stream f) (writes_count f) (block_stream f) (block_in_file f) v (data f) (count f) (file_size f) (file_buffers f) (sorted f) (games_lod f) (user_data f) (user_data_size f) (ignore_unzip_errors f) (disk f) (io_budget f).
Definition set_data (v : list Z) (f : TRSMMFiles) : TRSMMFiles :=
  mkFiles (options f) (in_file f) (out_file f) (write_stream f) (writes_count f) (block_stream f) (block_in_file f) (write_on_demand f) v (count f) (file_size f) (file_buffers f) (sorted f) (games_lod f) (user_data f) (user_data_size f) (ignore_unzip_errors f) (disk f) (io_budget f).
Definition set_count (v : Z) (f : TRSMMFiles) : TRSMMFiles :=
  mkFiles (options f) (in_file f) (out_file f) (write_stream f) (writes_count f) (block_stream f) (block_in_file f) (write_on_demand f) (data f) v (file_size f) (file_buffers f) (sorted f) (games_lod f) (user_data f) (user_data_size f) (ignore_unzip_errors f) (disk f) (io_budget f).
Definition set_file_size (v : Z) (f : TRSMMFiles) : TRSMMFiles :=
  mkFiles (options f) (in_file f) (out_file f) (write_stream f) (writes_count f) (block_stream f) (block_in_file f) (write_on_demand f) (data f) (count f) v (file_buffers f) (sorted f) (games_lod f) (user_data f) (user_data_size f) (ignore_unzip_errors f) (disk f) (io_budget f).
Definition set_file_buffers (v : list (option (list Z))) (f : TRSMMFiles) : TRSMMFiles :=
  mkFiles (options f) (in_file f) (out_file f) (write_stream f) (writes_count f) (block_stream f) (block_in_file f) (write_on_demand f) (data f) (count f) (file_size f) v (sorted f) (games_lod f) (user_data f) (user_data_size f) (ignore_unzip_errors f) (disk f) (io_budget f).
Definition set_sorted (v : bool) (f : TRSMMFiles) : TRSMMFiles :=
  mkFiles (options f) (in_file f) (out_file f) (write_stream f) (writes_count f) (block_stream f) (block_in_file f) (write_on_demand f) (data f) (count f) (file_size f) (file_buffers f) v (games_lod f) (user_data f) (user_data_size f) (ignore_unzip_errors f) (disk f) (io_budget f).
Definition set_games_lod (v : bool) (f : TRSMMFiles) : TRSMMFiles :=
  mkFiles (options f) (in_file f) (out_file f) (write_stream f) (writes_count f) (block_stream f) (block_in_file f) (write_on_demand f) (data f) (count f) (file_size f) (file_buffers f) (sorted f) v (user_data f) (user_data_size f) (ignore_unzip_errors f) (disk f) (io_budget f).
Definition set_user_data (v : list Z) (f : TRSMMFiles) : TRSMMFiles :=
  mkFiles (options f) (in_file f) (out_file f) (write_stream f) (writes_count f) (block_stream f) (block_in_file f) (write_on_demand f) (data f) (count f) (file_size f) (file_buffers f) (sorted f) (games_lod f) v (user_data_size f) (ignore_unzip_errors f) (disk f) (io_budget f).
Definition set_user_data_size (v : Z) (f : TRSMMFiles) : TRSMMFiles :=
  mkFiles (options f) (in_file f) (out_file f) (write_stream f) (writes_count f) (block_stream f) (block_in_file f) (write_on_demand f) (data f) (count f) (file_size f) (file_buffers f) (sorted f) (games_lod f) (user_data f) v (ignore_unzip_errors f) (disk f) (io_budget f).
Definition set_ignore_unzip_errors (v : bool) (f : TRSMMFiles) : TRSMMFiles :=
  mkFiles (options f) (in_file f) (out_file f) (write_stream f) (writes_count f) (block_stream f) (block_in_file f) (write_on_demand f) (data f) (count f) (file_size f) (file_buffers f) (sorted f) (games_lod f) (user_data f) (user_data_size f) v (disk f) (io_budget f).
Definition set_disk (v : list (string * list Z)) (f : TRSMMFiles) : TRSMMFiles :=
  mkFiles (options f) (in_file f) (out_file f) (write_stream f) (writes_count f) (block_stream f) (block_in_file f) (write_on_demand f) (data f) (count f) (file_size f) (file_buffers f) (sorted f) (games_lod f) (user_data f) (user_data_size f) (ignore_unzip_errors f) v (io_budget f).
Definition set_io_budget (v : option nat) (f : TRSMMFiles) : TRSMMFiles :=
  mkFiles (options f) (in_file f) (out_file f) (write_stream f) (writes_count f) (block_stream f) (block_in_file f) (write_on_demand f) (data f) (count f) (file_size f) (file_buffers f) (sorted f) (games_lod f) (user_data f) (user_data_size f) (ignore_unzip_errors f) (disk f) v.

(** *** The monad: a state of type [TRSMMFiles], and exceptions

    An exception leaves the state as it was when it was raised; nothing is
    rolled back unless the code does it. *)

Inductive outcome (A : Type) : Type :=
| Ret (a : A) (f : TRSMMFiles)
| Exc (e : exn) (f : TRSMMFiles).
Arguments Ret {A} a f.
Arguments Exc {A} e f.

Definition M (A : Type) : Type := TRSMMFiles -> outcome A.

Definition ret {A} (a : A) : M A := fun f => Ret a f.

Definition bind {A B} (m : M A) (k : A -> M B) : M B :=
  fun f => match m f with
           | Ret a f' => k a f'
           | Exc e f' => Exc e f'
           end.

Definition raise {A} (e : exn) : M A := fun f => Exc e f.

(** The current object. *)
Definition self : M TRSMMFiles := fun f => Ret f f.

(** An assignment to fields of the object. *)
Definition update (g : TRSMMFiles -> TRSMMFiles) : M unit :=
  fun f => Ret tt (g f).

(** A computation that only reads the object. *)
Definition lift {A} (r : TRSMMFiles -> result A) : M A :=
  fun f => match r f with
           | Ok a => Ret a f
           | Raise e => Exc e f
           end.

(** [try: m finally: fin].  The clause [fin] runs whatever [m] did; when
    [fin] itself raises, its exception is the one that propagates. *)
Definition try_finally {A} (m : M A) (fin : M unit) : M A :=
  fun f => match m f with
           | Ret a f' => match fin f' with
                         | Ret _ f'' => Ret a f''
                         | Exc e f'' => Exc e f''
                         end
           | Exc e f' => match fin f' with
                         | Ret _ f'' => Exc e f''
                         | Exc e' f'' => Exc e' f''
                         end
           end.

Declare Scope lod_scope.
Delimit Scope lod_scope with lod.
Notation "x <- m ;; k" := (bind m (fun x => k))
  (at level 61, m at next level, right associativity) : lod_scope.
Notation "' p <- m ;; k" := (bind m (fun x => match x with p => k end))
  (at level 61, p pattern, m at next level, right associativity) : lod_scope.
Notation "m ;;; k" := (bind m (fun _ => k))
  (at level 61, right associativity) : lod_scope.
#[local] Open Scope lod_scope.

(** [for x in xs: body(x)]. *)
Fixpoint for_each {A} (xs : list A) (body : A -> M unit) : M unit :=
  match xs with
  | [] => ret tt
  | x :: xs' => body x ;;; for_each xs' body
  end.

(** [if c: m]. *)
Definition when (c : bool) (m : M unit) : M unit :=
  if c then m else ret tt.

(** *** The file system *)

Fixpoint disk_get (d : list (string * list Z)) (p : string)
  : option (list Z) :=
  match d with
  | [] => None
  | (q, c) :: d' => if String.eqb p q then Some c else disk_get d' p
  end.

Fixpoint disk_set (d : list (string * list Z)) (p : string) (c : list Z)
  : list (string * list Z) :=
  match d with
  | [] => [(p, c)]
  | (q, c') :: d' =>
      if String.eqb p q then (q, c) :: d' else (q, c') :: disk_set d' p c
  end.

(** One call to the operating system: it fails when the budget is used
    up. *)
Definition os_call : M unit :=
  fun f => match io_budget f with
           | None => Ret tt f
           | Some O => Exc OSError f
           | Some (S n) => Ret tt (set_io_budget (Some n) f)
           end.

(** The bytes of the file at [path]; a missing file is an error. *)
Definition file_bytes (path : string) : M (list Z) :=
  fun f => match disk_get (disk f) path with
           | Some c => Ret c f
           | None => Exc OSError f
           end.

(** [read(n)] on bytes [c] at position [pos]: at most [n] bytes, all the
    rest when [n] is negative. *)
Definition read_at (c : list Z) (pos n : Z) : list Z :=
  let rest := skipn (Z.to_nat pos) c in
  if n <? 0 then rest else firstn (Z.to_nat n) rest.

(** [write(bs)] on a file of bytes [c] at position [pos]: a gap between
    the end of the file and [pos] is filled with zeros. *)
Definition write_at (c : list Z) (pos : Z) (bs : list Z) : list Z :=
  if Py.len c <? pos
  then c ++ Py.zeros (pos - Py.len c) ++ bs
  else firstn (Z.to_nat pos) c ++ bs
       ++ skipn (Z.to_nat (pos + Py.len bs)) c.

(** [truncate(n)]: the file is cut, or extended with zeros, to [n]
    bytes. *)
Definition resize (c : list Z) (n : Z) : list Z :=
  if Py.len c <? n then c ++ Py.zeros (n - Py.len c)
  else firstn (Z.to_nat n) c.

(** *** Operations on [self.write_stream] *)

(** The open write stream; using a stream that was closed is a
    [ValueError]. *)
Definition the_write_stream : M wstream :=
  fun f => match write_stream f with
           | Some w => Ret w f
           | None => Exc ValueError f
           end.

Definition ws_set_pos (pos : Z) : M unit :=
  w <- the_write_stream ;;
  update (set_write_stream (Some (mkWstream (ws_path w) pos (ws_readable w)))).

(** [stream.seek(pos, 0)]. *)
Definition ws_seek (pos : Z) : M unit :=
  if pos <? 0 then raise OSError else ws_set_pos pos.

(** [stream.seek(0, 2)]: the position becomes the size of the file, which
    is returned. *)
Definition ws_seek_end : M Z :=
  w <- the_write_stream ;;
  c <- file_bytes (ws_path w) ;;
  ws_set_pos (Py.len c) ;;;
  ret (Py.len c).

(** [stream.truncate(n)]; the position stays. *)
Definition ws_truncate (n : Z) : M unit :=
  w <- the_write_stream ;;
  os_call ;;;
  c <- file_bytes (ws_path w) ;;
  if n <? 0 then raise OSError
  else update (fun f => set_disk (disk_set (disk f) (ws_path w) (resize c n)) f).

(** [stream.write(bs)]. *)
Definition ws_write (bs : list Z) : M unit :=
  w <- the_write_stream ;;
  os_call ;;;
  c <- file_bytes (ws_path w) ;;
  update (fun f => set_disk (disk_set (disk f) (ws_path w)
                                      (write_at c (ws_pos w) bs)) f) ;;;
  ws_set_pos (ws_pos w + Py.len bs).

(** [stream.read(n)]. *)
Definition ws_read (n : Z) : M (list Z) :=
  w <- the_write_stream ;;
  if ws_readable w then
    os_call ;;;
    c <- file_bytes (ws_path w) ;;
    let bs := read_at c (ws_pos w) n in
    ws_set_pos (ws_pos w + Py.len bs) ;;;
    ret bs
  else raise OSError.

(** *** Stream objects handed around

    A stream is the caller's or a copy in memory, the write-on-demand
    buffer of an entry, the write stream of the object, or a file opened
    for reading. *)
Inductive handle : Type :=
| HMem (s : stream)
| HBuf (i : Z) (pos : Z)
| HWrite
| HFile (path : string) (pos : Z).

(** [file_buffers[i]] when the slot exists and holds a buffer. *)
Definition buffer_at (f : TRSMMFiles) (i : Z) : option (list Z) :=
  match PySeq.index (file_buffers f) i with
  | Ok (Some b) => Some b
  | _ => None
  end.

(** [h.read(n)]: the bytes and the stream after the read. *)
Definition h_read (h : handle) (n : Z) : M (list Z * handle) :=
  match h with
  | HMem s =>
      let bs := read_at (s_bytes s) (s_pos s) n in
      ret (bs, HMem (mkStream (s_bytes s) (s_pos s + Py.len bs)))
  | HBuf i pos =>
      f <- self ;;
      match buffer_at f i with
      | Some b =>
          let bs := read_at b pos n in
          ret (bs, HBuf i (pos + Py.len bs))
      | None => raise ValueError
      end
  | HWrite => bs <- ws_read n ;; ret (bs, HWrite)
  | HFile path pos =>
      os_call ;;;
      c <- file_bytes path ;;
      let bs := read_at c pos n in
      ret (bs, HFile path (pos + Py.len bs))
  end.

(** [h.seek(pos, 0)]. *)
Definition h_seek (h : handle) (pos : Z) : M handle :=
  match h with
  | HMem s => if pos <? 0 then raise ValueError
              else ret (HMem (mkStream (s_bytes s) pos))
  | HBuf i _ => if pos <? 0 then raise ValueError else ret (HBuf i pos)
  | HWrite => ws_seek pos ;;; ret HWrite
  | HFile path _ => if pos <? 0 then raise OSError else ret (HFile path pos)
  end.

(** [h.seek(off, 1)].  A [BytesIO] stops at 0; a file refuses a negative
    position. *)
Definition h_seek_cur (h : handle) (off : Z) : M handle :=
  match h with
  | HMem s => ret (HMem (mkStream (s_bytes s) (Z.max 0 (s_pos s + off))))
  | HBuf i pos => ret (HBuf i (Z.max 0 (pos + off)))
  | HWrite => w <- the_write_stream ;; ws_seek (ws_pos w + off) ;;; ret HWrite
  | HFile path pos => if pos + off <? 0 then raise OSError
                      else ret (HFile path (pos + off))
  end.

(** [try: m except: h]: any exception of [m] is caught. *)
Definition try_except {A} (m : M A) (h : M A) : M A :=
  fun f => match m f with
           | Ret a f' => Ret a f'
           | Exc _ f' => h f'
           end.

(** The outcome of [m] as a value: used where the source keeps a local flag
    that tells a [finally] clause how far the [try] block came. *)
Definition attempt {A} (m : M A) : M (result A) :=
  fun f => match m f with
           | Ret a f' => Ret (Ok a) f'
           | Exc e f' => Ret (Raise e) f'
           end.

(** [zlib] and the event handlers of the object.  [zlib_inflate_prefix bs]
    is what a [decompressobj] yields when it is fed the bytes [bs] one at a
    time, up to its first error. *)
Record env : Type := mkEnv {
  zlib_compress : list Z -> Z -> result (list Z);
  zlib_decompress : list Z -> result (list Z);
  zlib_inflate_prefix : list Z -> list Z;
  on_write_header : option (M unit);
  on_get_file_size : option (Z -> Z -> M Z);
  on_set_file_size : option (Z -> Z -> M unit);
  on_before_replace_file : option (Z -> M unit);
  on_before_delete_file : option (Z -> M unit);
  on_after_rename_file : option (Z -> M unit)
}.

(** *** Names *)

(** [bs.rstrip(b'\x00')]. *)
Fixpoint rstrip_nul (bs : list Z) : list Z :=
  match bs with
  | [] => []
  | b :: r =>
      match rstrip_nul r with
      | [] => if b =? 0 then [] else [b]
      | r' => b :: r'
      end
  end.

(** [bs.decode('ascii', errors='ignore')]. *)
Fixpoint decode_ascii (bs : list Z) : string :=
  match bs with
  | [] => EmptyString
  | b :: r =>
      if (0 <=? b) && (b <? 128)
      then String (ascii_of_nat (Z.to_nat b)) (decode_ascii r)
      else decode_ascii r
  end.

(** [s.encode('ascii')]: a character above 127 is a [UnicodeEncodeError],
    which is a [ValueError]. *)
Fixpoint encode_ascii (s : string) : result (list Z) :=
  match s with
  | EmptyString => Ok []
  | String c r =>
      if Nat.ltb (nat_of_ascii c) 128 then
        match encode_ascii r with
        | Ok bs => Ok (Z.of_nat (nat_of_ascii c) :: bs)
        | Raise e => Raise e
        end
      else Raise ValueError
  end.

(** [rs_lod_compare_str]: -1, 0 or 1. *)
Definition rs_lod_compare_str (s1 s2 : string) : Z :=
  match Py.compare_str (Py.lower s1) (Py.lower s2) with
  | Lt => -1
  | Gt => 1
  | Eq => 0
  end.

(** The loop of [rs_lod_compare_str_with_count] over the zipped
    characters. *)
Fixpoint same_count (s1 s2 : string) : Z :=
  match s1, s2 with
  | String c1 r1, String c2 r2 =>
      if Ascii.eqb c1 c2 then 1 + same_count r1 r2 else 0
  | _, _ => 0
  end.

Definition rs_lod_compare_str_with_count (s1 s2 : string) : Z * Z :=
  (rs_lod_compare_str s1 s2, same_count (Py.lower s1) (Py.lower s2)).

(** The extension that [os.path.splitext] (of [posixpath]) splits off: from
    the last dot on, when that dot comes after the last slash and after a
    character of the file name that is not a dot. *)
Fixpoint last_index (c : ascii) (l : list ascii) (i : Z) (acc : Z) : Z :=
  match l with
  | [] => acc
  | d :: l' => last_index c l' (i + 1) (if Ascii.eqb c d then i else acc)
  end.

Definition splitext_ext (p : string) : string :=
  let l := list_ascii_of_string p in
  let sep_index := last_index "/"%char l 0 (-1) in
  let dot_index := last_index "."%char l 0 (-1) in
  if dot_index >? sep_index then
    if existsb (fun c => negb (Ascii.eqb c "."%char))
               (Py.slice l (sep_index + 1) dot_index)
    then string_of_list_ascii (Py.slice_from l dot_index)
    else EmptyString
  else EmptyString.

Definition is_blv_or_odm (name : string) : bool :=
  let ext := Py.lower (splitext_ext name) in
  String.eqb ext ".blv" || String.eqb ext ".odm".

(** [l.insert(i, v)]: the position is clamped like a slice bound. *)
Definition list_insert {A} (l : list A) (i : Z) (v : A) : list A :=
  let a := Py.clamp (Py.len l) i in
  firstn (Z.to_nat a) l ++ v :: skipn (Z.to_nat a) l.

(** [del l[i]]. *)
Definition list_delete {A} (l : list A) (i : Z) : result (list A) :=
  let n := Py.len l in
  let j := if i <? 0 then n + i else i in
  if (0 <=? j) && (j <? n)
  then Ok (firstn (Z.to_nat j) l ++ skipn (S (Z.to_nat j)) l)
  else Raise IndexError.






Section Files.

Variable E : env.

(** *** Reading the directory *)

Definition get_name (f : TRSMMFiles) (i : Z) : string :=
  let offset := i * ItemSize (options f) in
  decode_ascii
    (rstrip_nul (Py.slice (data f) offset (offset + NameSize (options f)))).

(** A little-endian field of four bytes at [offset] in the table. *)
Definition field_u32 (f : TRSMMFiles) (offset : Z) : result Z :=
  or_raise StructError (Py.unpack_u32 (Py.slice (data f) offset (offset + 4))).

Definition field_i32 (f : TRSMMFiles) (offset : Z) : result Z :=
  or_raise StructError (Py.unpack_i32 (Py.slice (data f) offset (offset + 4))).

Definition get_address (i : Z) : M Z :=
  lift (fun f =>
    if i <? count f then
      match field_u32 f (i * ItemSize (options f) + AddrOffset (options f)) with
      | Ok addr => Ok (addr + AddrStart (options f))
      | Raise e => Raise e
      end
    else Ok (file_size f)).

(** [file_buffers[i]] under the guard [i < len(file_buffers)]: the
    buffer of entry [i], if it has one. *)
Definition buffer_slot (i : Z) : M (option (list Z)) :=
  lift (fun f =>
    if i <? Py.len (file_buffers f) then PySeq.index (file_buffers f) i
    else Ok None).

Definition get_size (i : Z) : M Z :=
  slot <- buffer_slot i ;;
  match slot with
  | Some b => ret (Py.len b)
  | None =>
      f <- self ;;
      let o := options f in
      res <-
        (if SizeOffset o <? 0 then
           r1 <- (if PackedSizeOffset o >=? 0
                  then lift (fun f => field_i32 f (i * ItemSize o + PackedSizeOffset o))
                  else ret 0) ;;
           (if (r1 =? 0) && (UnpackedSizeOffset o >=? 0)
            then lift (fun f => field_i32 f (i * ItemSize o + UnpackedSizeOffset o))
            else ret r1)
         else lift (fun f => field_i32 f (i * ItemSize o + SizeOffset o))) ;;
      match on_get_file_size E with
      | Some hook => hook i res
      | None => ret res
      end
  end.

Definition get_unpacked_size (i : Z) : M Z :=
  f <- self ;;
  let o := options f in
  if UnpackedSizeOffset o <? 0 then get_size i
  else lift (fun f => field_i32 f (i * ItemSize o + UnpackedSizeOffset o)).

Definition get_is_packed (i : Z) : M bool :=
  lift (fun f =>
    let o := options f in
    if PackedSizeOffset o >=? 0 then
      match field_i32 f (i * ItemSize o + PackedSizeOffset o) with
      | Ok v => Ok (negb (v =? 0))
      | Raise e => Raise e
      end
    else if (SizeOffset o >=? 0) && (UnpackedSizeOffset o >=? 0) then
      match field_i32 f (i * ItemSize o + SizeOffset o),
            field_i32 f (i * ItemSize o + UnpackedSizeOffset o) with
      | Ok v1, Ok v2 => Ok (negb (v1 =? v2))
      | Raise e, _ => Raise e
      | _, Raise e => Raise e
      end
    else Ok false).

Definition check_name (name : string) : M unit :=
  f <- self ;;
  if Z.of_nat (String.length name) >=? NameSize (options f)
  then raise ERSLodWrongFileName
  else ret tt.

(** *** Searching *)

(** The loop of [_find_file_linear] from entry [i] on. *)
Fixpoint find_linear_loop (f : TRSMMFiles) (name : string) (ixs : list Z)
         (best_same best best_c : Z) : bool * Z :=
  match ixs with
  | [] => (false, best)
  | i :: ixs' =>
      let '(c, same) := rs_lod_compare_str_with_count name (get_name f i) in
      if c =? 0 then (true, i)
      else if (same >? best_same) || ((same =? best_same) && (best_c >? 0))
      then find_linear_loop f name ixs' same (if c >? 0 then i + 1 else i) c
      else find_linear_loop f name ixs' best_same best best_c
  end.

Definition _find_file_linear (f : TRSMMFiles) (name : string) : bool * Z :=
  find_linear_loop f name (PySeq.range (count f)) 0 0 1.

(** The loop of [_find_file_bin_search].  Every iteration shrinks the
    interval from [L] to [H], so [H - L + 1] iterations are enough. *)
Fixpoint bin_search_loop (fuel : nat) (f : TRSMMFiles) (name : string)
         (L H : Z) : bool * Z :=
  match fuel with
  | O => (false, L)
  | S fuel' =>
      if L <=? H then
        let i := (L + H) / 2 in
        let c := rs_lod_compare_str name (get_name f i) in
        if c <=? 0 then
          if c =? 0 then (true, i)
          else bin_search_loop fuel' f name L (i - 1)
        else bin_search_loop fuel' f name (i + 1) H
      else (false, L)
  end.

Definition _find_file_bin_search (f : TRSMMFiles) (name : string) (L H : Z)
  : bool * Z :=
  bin_search_loop (Z.to_nat (H - L + 1)) f name L H.

Definition find_file (f : TRSMMFiles) (name : string) : bool * Z :=
  if negb (sorted f) then _find_file_linear f name
  else _find_file_bin_search f name 0 (count f - 1).

(** The [while] loop of [find_add_index]: the last entry, from [i]
    downwards, that is a [.blv] or [.odm] file, or -1. *)
Fixpoint last_blv_or_odm (fuel : nat) (f : TRSMMFiles) (i : Z) : Z :=
  match fuel with
  | O => i
  | S fuel' =>
      if (i >=? 0) && negb (is_blv_or_odm (get_name f i))
      then last_blv_or_odm fuel' f (i - 1)
      else i
  end.

Definition find_add_index (f : TRSMMFiles) (name : string) : bool * Z :=
  let '(found, index) := find_file f name in
  if negb found && games_lod f then
    let i := last_blv_or_odm (Z.to_nat (count f)) f (count f - 1) in
    if negb (is_blv_or_odm name)
    then _find_file_bin_search f name (i + 1) (count f - 1)
    else (found, i + 1)
  else (found, index).

(** *** Opening and closing the file *)

(** [open(path, 'rb')] and [open(path, 'r+b')]: the file must exist. *)
Definition open_existing (path : string) : M unit :=
  os_call ;;;
  _ <- file_bytes path ;;
  ret tt.

Definition begin_write : M unit :=
  f <- self ;;
  match write_stream f with
  | None =>
      when (match block_stream f with Some _ => true | None => false end
            && String.eqb (in_file f) (out_file f))
           (update (set_block_stream None)) ;;;
      open_existing (out_file f) ;;;
      update (set_write_stream (Some (mkWstream (out_file f) 0 true)))
  | Some _ => ret tt
  end ;;;
  ws_seek 0 ;;;
  update (fun f => set_writes_count (writes_count f + 1) f).

Definition begin_read : M handle :=
  f <- self ;;
  if match write_stream f with None => true | Some _ => false end
     || negb (String.eqb (in_file f) (out_file f))
  then open_existing (in_file f) ;;; ret (HFile (in_file f) 0)
  else begin_write ;;; ret HWrite.

Definition end_write : M unit :=
  update (fun f => set_writes_count (writes_count f - 1) f) ;;;
  f <- self ;;
  when (writes_count f =? 0)
    (update (set_write_stream None) ;;;
     when (block_in_file f && String.eqb (in_file f) (out_file f)
           && match block_stream f with None => true | Some _ => false end)
          (h <- begin_read ;;
           match h with
           | HFile path _ => update (set_block_stream (Some path))
           | _ => ret tt
           end)).

(** [end_read(stream)]: the write stream is released, any other stream
    is closed. *)
Definition end_read (h : handle) : M unit :=
  match h with
  | HWrite => end_write
  | _ => ret tt
  end.

(** *** Streams of entries *)

Definition get_as_is_file_stream (index : Z) (ignore_write : bool)
  : M handle :=
  slot <- buffer_slot index ;;
  match slot with
  | Some _ => ret (HBuf index 0)
  | None =>
      stream <- begin_read ;;
      addr <- get_address index ;;
      stream <- h_seek stream addr ;;
      match stream with
      | HWrite =>
          if ignore_write then ret stream
          else
            size <- get_size index ;;
            '(bs, _) <- h_read stream size ;;
            end_write ;;;
            ret (HMem (mkStream bs 0))
      | _ => ret stream
      end
  end.

(** [free_as_is_file_stream(index, stream)]: a stream that is not the
    buffer of the entry is given back with [end_read]. *)
Definition free_as_is_file_stream (index : Z) (stream : handle) : M unit :=
  f <- self ;;
  if index >=? Py.len (file_buffers f) then end_read stream
  else
    slot <- lift (fun f => PySeq.index (file_buffers f) index) ;;
    match slot, stream with
    | Some _, HBuf i _ => if i =? index then ret tt else end_read stream
    | _, _ => end_read stream
    end.

(** [h.tell()]. *)
Definition h_tell (h : handle) : M Z :=
  match h with
  | HMem s => ret (s_pos s)
  | HBuf _ pos => ret pos
  | HWrite => w <- the_write_stream ;; ret (ws_pos w)
  | HFile _ pos => ret pos
  end.

(** [unzip_ignore_errors(output, input, unp, True)] on an empty
    [output]: what is written.  The reads of one byte at a time in the
    fallback are taken together as one read of [unp] bytes. *)
Definition unzip_ignore_errors (input : handle) (unp : Z) : M (list Z) :=
  old_pos_i <- h_tell input ;;
  try_except
    ('(bs, _) <- h_read input (-1) ;;
     match zlib_decompress E bs with
     | Ok d => ret (Py.slice_to d unp)
     | Raise e => raise e
     end)
    (input' <- h_seek input old_pos_i ;;
     out <- try_except
              (if unp <=? 0 then ret []
               else '(bs, _) <- h_read input' unp ;;
                    ret (zlib_inflate_prefix E bs))
              (ret []) ;;
     ret (out ++ Py.zeros (unp - Py.len out))).

(** [raw_extract(i, output)]: the bytes written to [output]. *)
Definition raw_extract (i : Z) : M (list Z) :=
  stream <- get_as_is_file_stream i true ;;
  try_finally
    (packed <- get_is_packed i ;;
     f <- self ;;
     if packed then
       if negb (ignore_unzip_errors f) then
         size <- get_size i ;;
         '(bs, _) <- h_read stream size ;;
         match zlib_decompress E bs with
         | Ok d => ret d
         | Raise e => raise e
         end
       else
         unp <- get_unpacked_size i ;;
         unzip_ignore_errors stream unp
     else
       size <- get_size i ;;
       '(bs, _) <- h_read stream size ;;
       ret bs)
    (free_as_is_file_stream i stream).

(** *** Writing *)

(** [struct.pack_into('<I', self.data, offset, v)]. *)
Definition poke_u32 (offset v : Z) : M unit :=
  f <- self ;;
  match Py.pack_u32 v with
  | Some bs =>
      match Py.pack_into (data f) offset bs with
      | Some d => update (set_data d)
      | None => raise StructError
      end
  | None => raise StructError
  end.

(** [struct.pack_into('<i', self.data, offset, v)]. *)
Definition poke_i32 (offset v : Z) : M unit :=
  f <- self ;;
  match Py.pack_i32 v with
  | Some bs =>
      match Py.pack_into (data f) offset bs with
      | Some d => update (set_data d)
      | None => raise StructError
      end
  | None => raise StructError
  end.

Definition do_write_file (index : Z) (dat : handle) (size addr : Z)
           (force_write : bool) : M unit :=
  f <- self ;;
  (if write_on_demand f && negb force_write then
     when (index >=? Py.len (file_buffers f))
       (update (fun f => set_file_buffers
          (file_buffers f
           ++ repeat None (Z.to_nat (index + 1 - Py.len (file_buffers f)))) f)) ;;;
     slot <- lift (fun f => PySeq.index (file_buffers f) index) ;;
     let same := match dat, slot with
                 | HBuf i _, Some _ => i =? index
                 | _, _ => false
                 end in
     if same then ret tt
     else
       '(bs, _) <- h_read dat size ;;
       bufs <- lift (fun f => PySeq.store (file_buffers f) index (Some bs)) ;;
       update (set_file_buffers bufs)
   else
     begin_write ;;;
     try_finally
       (current_size <- ws_seek_end ;;
        when (addr + size >? current_size) (ws_truncate (addr + size)) ;;;
        ws_seek addr ;;;
        '(bs, _) <- h_read dat size ;;
        ws_write bs)
       end_write) ;;;
  f <- self ;;
  poke_u32 (index * ItemSize (options f) + AddrOffset (options f))
           (addr - AddrStart (options f)) ;;;
  update (fun f => if addr + size >? file_size f
                   then set_file_size (addr + size) f else f).

Definition do_move_file (index addr : Z) : M unit :=
  slot <- buffer_slot index ;;
  match slot with
  | Some b => do_write_file index (HBuf index (Py.len b)) (Py.len b) addr false
  | None =>
      stream <- get_as_is_file_stream index false ;;
      try_finally
        (size <- get_size index ;;
         do_write_file index stream size addr false)
        (free_as_is_file_stream index stream)
  end.

(** The last loop of [can_expand]. *)
Fixpoint can_expand_loop (addr new_size : Z) (ixs : list Z) : M bool :=
  match ixs with
  | [] => ret true
  | i :: ixs' =>
      other_addr <- get_address i ;;
      if (other_addr >=? addr) && (other_addr - addr <? new_size)
      then ret false
      else can_expand_loop addr new_size ixs'
  end.

Definition can_expand (index new_size : Z) : M bool :=
  addr <- get_address index ;;
  sz <- get_size index ;;
  f <- self ;;
  if (new_size <=? sz) || (addr + sz >=? file_size f) then ret true
  else if index + 1 <? count f then
    next_addr <- get_address (index + 1) ;;
    ret ((next_addr >=? addr) && (next_addr - addr >=? new_size))
  else can_expand_loop addr new_size (PySeq.range (count f)).

(** The four slice assignments of [insert_data] on one table of records
    of [item_size] bytes. *)
Definition insert_slot (tbl : list Z) (item_size index : Z) : list Z :=
  let t1 := Py.slice_assign tbl (Py.len tbl) (Py.len tbl)
                            (Py.zeros item_size) in
  if index * item_size <? Py.len t1 - item_size then
    let t2 := Py.slice_assign_from t1 (index * item_size + item_size)
                (Py.slice t1 (index * item_size) (- item_size)) in
    Py.slice_assign t2 (index * item_size) ((index + 1) * item_size)
                    (Py.zeros item_size)
  else t1.

Definition insert_data (index : Z) : M unit :=
  update (fun f =>
    set_user_data (insert_slot (user_data f) (user_data_size f) index)
      (set_data (insert_slot (data f) (ItemSize (options f)) index) f)).

(** The two statements of [remove_data] on one table: the record at
    [index] is overwritten with the last record, then the last record is
    cut off. *)
Definition remove_slot (tbl : list Z) (item_size index : Z) : list Z :=
  let t1 := Py.slice_assign tbl (index * item_size)
              ((index + 1) * item_size)
              (Py.slice_from tbl (- item_size)) in
  Py.slice_to t1 (- item_size).

Definition remove_data (index : Z) : M unit :=
  update (fun f =>
    set_user_data (remove_slot (user_data f) (user_data_size f) index)
      (set_data (remove_slot (data f) (ItemSize (options f)) index) f)).

(** The loop of [write_header] over the entries. *)
Fixpoint end_of_entries (sz : Z) (ixs : list Z) : M Z :=
  match ixs with
  | [] => ret sz
  | i :: ixs' =>
      a <- get_address i ;;
      s <- get_size i ;;
      end_of_entries (if a + s >? sz then a + s else sz) ixs'
  end.

Definition write_header : M unit :=
  begin_write ;;;
  try_finally
    (f <- self ;;
     sz <- end_of_entries (DataStart (options f) + Py.len (data f))
                          (PySeq.range (count f)) ;;
     update (set_file_size sz) ;;;
     cur <- ws_seek_end ;;
     when (negb (cur =? sz))
          (ws_seek 0 ;;; ws_truncate sz ;;; ws_seek 0) ;;;
     match on_write_header E with
     | Some hook => hook
     | None => ret tt
     end ;;;
     f <- self ;;
     if count f =? 0 then ret tt
     else ws_seek (DataStart (options f)) ;;; ws_write (data f))
    end_write.

(** The statements of [add] and [rename] that write the name of an entry
    into its record at [offset]. *)
Definition write_name (offset : Z) (name : string) : M unit :=
  update (fun f =>
    set_data (Py.slice_assign (data f) offset (offset + NameSize (options f))
                              (Py.zeros (NameSize (options f)))) f) ;;;
  match name with
  | EmptyString => ret tt
  | _ =>
      bs <- lift (fun _ => encode_ascii name) ;;
      f <- self ;;
      let name_bytes := Py.slice_to bs (NameSize (options f)) in
      update (set_data (Py.slice_assign (data f) offset
                          (offset + Py.len name_bytes) name_bytes))
  end.

(** *** [add] *)

(** The block of [add] under the comment "Pack file": the stream to
    store, its size, and the values [unp_size] and [pk_size] for the
    directory. *)
Definition add_pack (o : TRSMMFilesOptions) (dat : stream)
           (size compression unpacked_size : Z)
  : result (stream * Z * Z * Z) :=
  if unpacked_size >=? 0 then Ok (dat, size, unpacked_size, size)
  else if negb (compression =? 0) && (size >? 64)
          && ((PackedSizeOffset o >=? 0) || (UnpackedSizeOffset o >=? 0))
  then
    let raw := read_at (s_bytes dat) (s_pos dat) size in
    match zlib_compress E raw compression with
    | Ok compressed =>
        let compressed_size := Py.len compressed in
        if compressed_size <? size
        then Ok (mkStream compressed 0, compressed_size, size, compressed_size)
        else Ok (mkStream (s_bytes dat)
                          (Z.max 0 (s_pos dat + Py.len raw - size)),
                 size, size, 0)
    | Raise e => Raise e
    end
  else Ok (dat, size, size, 0).

(** The first half of the inner [try] block of [add]: the payload is
    written over the entry found, or a record is inserted and the payload
    goes to the end of the file. *)
Definition add_store (dat : stream) (size : Z) (found : bool) (result : Z)
  : M unit :=
  if found then
    ce <- can_expand result size ;;
    (if ce then
       addr <- get_address result ;;
       do_write_file result (HMem dat) size addr false
     else
       f <- self ;;
       do_write_file result (HMem dat) size (file_size f) false) ;;;
    update (fun f =>
      set_user_data
        (Py.slice_assign (user_data f) (result * user_data_size f)
           ((result + 1) * user_data_size f)
           (Py.zeros (user_data_size f))) f)
  else
    f <- self ;;
    let addr := DataStart (options f) + (count f + 1) * ItemSize (options f) in
    for_each (PySeq.range (count f))
      (fun i =>
         a <- get_address i ;;
         if a <? addr then f <- self ;; do_move_file i (file_size f)
         else ret tt) ;;;
    update (fun f => set_count (count f + 1) f) ;;;
    insert_data result ;;;
    update (fun f => set_file_buffers
                       (list_insert (file_buffers f) result None) f) ;;;
    update (fun f => set_file_size
                       (Z.max (file_size f)
                              (DataStart (options f) + Py.len (data f))) f) ;;;
    f <- self ;;
    do_write_file result (HMem dat) size (file_size f) false.

(** The second half: the name and the sizes are written into the record,
    and the header is written unless the archive writes on demand. *)
Definition add_record (name : string) (size unp_size pk_size result : Z)
  : M unit :=
  f <- self ;;
  let o := options f in
  let offset := result * ItemSize o in
  write_name offset name ;;;
  when (SizeOffset o >=? 0) (poke_i32 (offset + SizeOffset o) size) ;;;
  when (UnpackedSizeOffset o >=? 0)
       (poke_i32 (offset + UnpackedSizeOffset o) unp_size) ;;;
  when (PackedSizeOffset o >=? 0)
       (poke_i32 (offset + PackedSizeOffset o) pk_size) ;;;
  match on_set_file_size E with
  | Some hook => hook result size
  | None => ret tt
  end ;;;
  when (negb (write_on_demand f)) write_header.

(** The inner [try] block of [add]. *)
Definition add_place (name : string) (dat : stream)
           (size unp_size pk_size : Z) (found : bool) (result : Z)
  : M unit :=
  add_store dat size found result ;;;
  add_record name size unp_size pk_size result.

(** [add(name, data, size, compression, unpacked_size)] for a stream in
    memory. *)
Definition add (name : string) (dat : stream)
           (size compression unpacked_size : Z) : M Z :=
  check_name name ;;;
  let size := if size <? 0 then Py.len (s_bytes dat) - s_pos dat
              else size in
  f <- self ;;
  '(dat', size', unp_size, pk_size) <-
     lift (fun _ => add_pack (options f) dat size compression unpacked_size) ;;
  let '(found, result) := find_add_index f name in
  match on_before_replace_file E with
  | Some hook => when found (hook result)
  | None => ret tt
  end ;;;
  begin_write ;;;
  try_finally (add_place name dat' size' unp_size pk_size found result)
              end_write ;;;
  ret result.

(** *** [delete] and [rename] *)

Definition do_delete (i : Z) (no_write : bool) : M unit :=
  match on_before_delete_file E with
  | Some hook => hook i
  | None => ret tt
  end ;;;
  update (fun f => set_count (count f - 1) f) ;;;
  remove_data i ;;;
  f <- self ;;
  when (i <? Py.len (file_buffers f))
       (bufs <- lift (fun f => list_delete (file_buffers f) i) ;;
        update (set_file_buffers bufs)) ;;;
  f <- self ;;
  when (negb no_write && negb (write_on_demand f)) write_header.

(** [delete(i)] for an index. *)
Definition delete (i : Z) : M unit := do_delete i false.

(** [delete(name)] for a name. *)
Definition delete_name (name : string) : M unit :=
  f <- self ;;
  let '(found, idx) := find_file f name in
  when found (do_delete idx false).

(** The [try] block of [rename]: the new index, and whether the block
    was left by its early [return]. *)
Definition rename_body (index : Z) (new_name : string) : M (Z * bool) :=
  f <- self ;;
  let '(found, result) := find_file f new_name in
  if found && (result =? index) then ret (result, true)
  else
    when found (do_delete result true) ;;;
    f <- self ;;
    let isz := ItemSize (options f) in
    let usz := user_data_size f in
    let item_data := Py.slice (data f) (index * isz) ((index + 1) * isz) in
    let user_data' := Py.slice (user_data f) (index * usz) ((index + 1) * usz) in
    file_buf <- buffer_slot index ;;
    update (fun f =>
      set_user_data
        (Py.slice_assign (user_data f) (index * usz) ((index + 1) * usz)
                         (Py.slice_from (user_data f) (- usz)))
        (set_data
           (Py.slice_assign (data f) (index * isz) ((index + 1) * isz)
                            (Py.slice_from (data f) (- isz))) f)) ;;;
    f <- self ;;
    when (index <? Py.len (file_buffers f))
         (bufs <- lift (fun f => list_delete (file_buffers f) index) ;;
          update (set_file_buffers bufs)) ;;;
    update (fun f => set_count (count f - 1) f) ;;;
    f <- self ;;
    let '(found, result) := find_add_index f new_name in
    if found then raise AssertionError
    else
      update (fun f => set_count (count f + 1) f) ;;;
      update (fun f =>
        set_user_data
          (Py.slice_assign (user_data f) (result * usz) (result * usz)
                           user_data')
          (set_data
             (Py.slice_assign (data f) (result * isz) (result * isz)
                              item_data) f)) ;;;
      match file_buf with
      | Some b => update (fun f => set_file_buffers
                            (list_insert (file_buffers f) result (Some b)) f)
      | None => ret tt
      end ;;;
      write_name (result * isz) new_name ;;;
      f <- self ;;
      when (negb (write_on_demand f)) write_header ;;;
      ret (result, false).

Definition rename (index : Z) (new_name : string) : M Z :=
  check_name new_name ;;;
  f <- self ;;
  let locked := negb (write_on_demand f) in
  when locked begin_write ;;;
  '(result, early) <- try_finally (rename_body index new_name)
                                  (when locked end_write) ;;
  if early then ret result
  else
    match on_after_rename_file E with
    | Some hook => hook result
    | None => ret tt
    end ;;;
    ret result.

(** *** [save_as] *)

(** The loop of [save_as] that copies every entry to the new file. *)
Definition save_as_copy : M unit :=
  f <- self ;;
  for_each (PySeq.range (count f))
    (fun i =>
       stream <- get_as_is_file_stream i false ;;
       try_finally
         (size <- get_size i ;;
          f <- self ;;
          do_write_file i stream size (file_size f) true)
         (free_as_is_file_stream i stream)).

(** The statements of [save_as] before its [try] block: the new size is
    computed, the directory of the file is made ([os.makedirs]) and the file
    is opened with mode ['wb'], which creates it empty. *)
Definition save_as_open (filename : string) : M unit :=
  update (set_out_file filename) ;;;
  update (fun f => set_file_size
            (Z.max (MinFileSize (options f))
                   (DataStart (options f) + Py.len (data f))) f) ;;;
  os_call ;;;
  os_call ;;;
  update (fun f => set_disk (disk_set (disk f) filename []) f) ;;;
  update (set_write_stream (Some (mkWstream filename 0 false))) ;;;
  update (fun f => set_writes_count (writes_count f + 1) f).

(** [save_as(filename)].  The local flag [ok] of the source is set
    between the copy loop and [write_header]; the [finally] clause
    restores the table and the size when it is still false, that is,
    when the copy loop raised. *)
Definition save_as (filename : string) : M unit :=
  f0 <- self ;;
  match write_stream f0 with
  | Some _ => raise AssertionError
  | None =>
      let old_size := file_size f0 in
      let old_data := data f0 in
      save_as_open filename ;;;
      copied <- attempt save_as_copy ;;
      match copied with
      | Raise e =>
          end_write ;;;
          update (fun f => set_file_size old_size (set_data old_data f)) ;;;
          raise e
      | Ok _ =>
          written <- attempt write_header ;;
          end_write ;;;
          match written with
          | Raise e => raise e
          | Ok _ => ret tt
          end
      end ;;;
      update (fun f => set_in_file (out_file f)
                         (set_block_stream None (set_file_buffers [] f)))
  end.

(** *** The palette registry ([TRSLod], [src/RSLod_part4.py]) *)





End Files.

End Lod.

(** ** The LOD bitmap packer ([src/RSLod_graphics.py]) *)

Module Graphics.
#[local] Open Scope res_scope.

(** The loop of [get_ln2]; [v] is halved at each turn, so [|v|] turns are
    enough. *)
Fixpoint get_ln2_loop (fuel : nat) (v res : Z) : Z * Z :=
  match fuel with
  | O => (v, res)
  | S fuel' =>
      if negb (v =? 0) && (Z.land v 1 =? 0)
      then get_ln2_loop fuel' (Z.shiftr v 1) (res + 1)
      else (v, res)
  end.

Definition get_ln2 (v : Z) : Z :=
  let '(v', res) := get_ln2_loop (Z.to_nat (Z.abs v)) v 0 in
  if v' =? 1 then res else 0.

(** [TMMLodFile]: the header of a bitmap in a LOD. *)
Record TMMLodFile : Type := mkLodFile {
  bmp_size : Z;
  data_size : Z;
  bmp_width : Z;
  bmp_height : Z;
  bmp_width_ln2 : Z;
  bmp_height_ln2 : Z;
  bmp_width_minus1 : Z;
  bmp_height_minus1 : Z;
  palette : Z;
  _unk : Z;
  unp_size : Z;
  bits : Z
}.

(** [struct.pack('<h', v)]. *)
Definition pack_i16 (v : Z) : option (list Z) :=
  if (-32768 <=? v) && (v <? 32768)
  then Some (Py.le_bytes 2 (v mod 65536)) else None.

Fixpoint concat_packed (parts : list (option (list Z))) : result (list Z) :=
  match parts with
  | [] => Ok []
  | Some bs :: parts' => rest <- concat_packed parts' ;; Ok (bs ++ rest)
  | None :: _ => Raise StructError
  end.

(** [TMMLodFile.pack]: [struct.pack('<IIhhhhhhhhII', ...)]. *)
Definition pack_header (h : TMMLodFile) : result (list Z) :=
  concat_packed
    [Py.pack_u32 (bmp_size h); Py.pack_u32 (data_size h);
     pack_i16 (bmp_width h); pack_i16 (bmp_height h);
     pack_i16 (bmp_width_ln2 h); pack_i16 (bmp_height_ln2 h);
     pack_i16 (bmp_width_minus1 h); pack_i16 (bmp_height_minus1 h);
     pack_i16 (palette h); pack_i16 (_unk h);
     Py.pack_u32 (unp_size h); Py.pack_u32 (bits h)].

Section Pack.

(** [zlib.compress(data, level)]. *)
Variable zlib_compress : list Z -> Z -> result (list Z).

(** The header, the payload and the palette that [pack_bitmap] writes
    for an image of mode ['P'] and size [w] by [h]: [pixel_data] is
    [img.tobytes()], [zooms] the bytes of the images that
    [fill_bitmap_zooms] makes, [palette_bytes] the 768 bytes taken from
    [img.getpalette()]. *)
Definition pack_bitmap_parts (w h : Z) (pixel_data zooms palette_bytes : list Z)
           (palette_index bits : Z) (keep_mipmaps : bool)
  : result (TMMLodFile * list Z * list Z) :=
  let mipmap_data := if keep_mipmaps && negb (Z.land bits 2 =? 0)
                     then zooms else [] in
  let all_data := pixel_data ++ mipmap_data in
  compressed <- zlib_compress all_data 6 ;;
  let '(data_to_write, unp) :=
    if Py.len compressed <? Py.len all_data
    then (compressed, Py.len all_data)
    else (all_data, 0) in
  Ok (mkLodFile (32 + Py.len data_to_write + 768) (Py.len data_to_write)
                w h (get_ln2 w) (get_ln2 h) (w - 1) (h - 1)
                palette_index 0 unp bits,
      data_to_write, palette_bytes).

(** [pack_bitmap(img, palette_index, bits, keep_mipmaps)]. *)
Definition pack_bitmap (w h : Z) (pixel_data zooms palette_bytes : list Z)
           (palette_index bits : Z) (keep_mipmaps : bool)
  : result (list Z) :=
  '(hdr, data_to_write, pal) <-
     pack_bitmap_parts w h pixel_data zooms palette_bytes
                       palette_index bits keep_mipmaps ;;
  hdr_bytes <- pack_header hdr ;;
  Ok (hdr_bytes ++ data_to_write ++ pal).

End Pack.

(** *** Reading bitmaps and PCX images back *)

(** [struct.unpack('<h', bs)[0]]. *)
Definition unpack_i16 (bs : list Z) : option Z :=
  if Nat.eqb (List.length bs) 2 then
    let v := Py.le_value bs in
    Some (if v <? 32768 then v else v - 65536)
  else None.

(** [TMMLodFile.unpack(data)]: [struct.unpack('<IIhhhhhhhhII', data[:32])]
    fails unless it is given 32 bytes. *)
Definition unpack_header (data : list Z) : result TMMLodFile :=
  let bs := Py.slice_to data 32 in
  if Nat.eqb (List.length bs) 32 then
    let u32 := fun o => Py.le_value (Py.slice bs o (o + 4)) in
    let i16 := fun o =>
      let v := Py.le_value (Py.slice bs o (o + 2)) in
      if v <? 32768 then v else v - 65536 in
    Ok (mkLodFile (u32 0) (u32 4) (i16 8) (i16 10) (i16 12) (i16 14)
                  (i16 16) (i16 18) (i16 20) (i16 22) (u32 24) (u32 28))
  else Raise StructError.

(** The exceptions of the readers: [ERSLodException(S_RS_LOD_CORRUPT)], a
    division by zero, or one of the exceptions above. *)
Inductive read_error : Type :=
| LodCorrupt
| ZeroDivisionError
| Raised (e : exn).

Inductive read_result (A : Type) : Type :=
| Read (a : A)
| Failed (e : read_error).
Arguments Read {A} a.
Arguments Failed {A} e.

(** A result of the code above as a result of a reader. *)
Definition reading {A} (r : result A) : read_result A :=
  match r with
  | Ok a => Read a
  | Raise e => Failed (Raised e)
  end.

(** [TPCXFileHeader]. *)
Record TPCXFileHeader : Type := mkPcxHeader {
  image_size : Z;
  width : Z;
  height : Z
}.

(** [TPCXFileHeader.pack]: [struct.pack('<III', ...)]. *)
Definition pack_pcx_header (h : TPCXFileHeader) : result (list Z) :=
  concat_packed [Py.pack_u32 (image_size h); Py.pack_u32 (width h);
                 Py.pack_u32 (height h)].

(** [TPCXFileHeader.unpack(data)]. *)
Definition unpack_pcx_header (data : list Z) : result TPCXFileHeader :=
  let bs := Py.slice_to data 12 in
  if Nat.eqb (List.length bs) 12 then
    let u32 := fun o => Py.le_value (Py.slice bs o (o + 4)) in
    Ok (mkPcxHeader (u32 0) (u32 4) (u32 8))
  else Raise StructError.

(** [pack_pcx(img)]: [pixel_data] is [img.tobytes()]; for an image of mode
    ['P'], [palette] is what [img.getpalette()] gives, cut to 768 values, or
    768 zeros; an image of another mode is written as RGB, without a palette
    ([palette] is [None]). *)
Definition pack_pcx (w h : Z) (pixel_data : list Z)
           (palette : option (list Z)) : result (list Z) :=
  hdr <- pack_pcx_header (mkPcxHeader (Py.len pixel_data) w h) ;;
  Ok (hdr ++ pixel_data ++ match palette with
                           | Some p => p
                           | None => []
                           end).

(** What a reader returns: the size of the image, its bytes as
    [img.tobytes()] gives them, whether the image has mode ['P'], the
    palette put into the image, and the palette bytes returned beside it. *)
Record picture : Type := mkPicture {
  pic_w : Z;
  pic_h : Z;
  pic_bytes : list Z;
  pic_paletted : bool;
  pic_palette : option (list Z)
}.

Section Unpack.

(** [zlib.decompress(data)]. *)
Variable zlib_decompress : list Z -> result (list Z).

(** Pillow's [img.frombytes(data)] on a new image of [w] by [h] pixels of
    [bpp] bytes each: the bytes of the image afterwards. *)
Variable image_frombytes : Z -> Z -> Z -> list Z -> result (list Z).

(** [Image.new(mode, (w, h))]: a negative size is refused. *)
Definition image_new_check (w h : Z) : result unit :=
  if (w <? 0) || (h <? 0) then Raise ValueError else Ok tt.

(** [unpack_bitmap(data, size)] on a stream at position 0 that holds
    [data]: the image and the palette bytes. *)
Definition unpack_bitmap (data : list Z)
  : read_result (picture * list Z) :=
  let hdr_data := Lod.read_at data 0 32 in
  if Py.len hdr_data <? 32 then Failed LodCorrupt
  else
    reading
      (hdr <- unpack_header hdr_data ;;
       let compressed_data := Lod.read_at data 32 (data_size hdr) in
       pixel_data <- (if unp_size hdr >? 0
                      then zlib_decompress compressed_data
                      else Ok compressed_data) ;;
       let palette_data :=
         Lod.read_at data (32 + Py.len compressed_data) 768 in
       _ <- image_new_check (bmp_width hdr) (bmp_height hdr) ;;
       bytes <- image_frombytes (bmp_width hdr) (bmp_height hdr) 1
                  (Py.slice_to pixel_data (bmp_width hdr * bmp_height hdr)) ;;
       Ok (mkPicture (bmp_width hdr) (bmp_height hdr) bytes true
                     (if Py.len palette_data =? 768 then Some palette_data
                      else None),
           palette_data)).

(** [unpack_pcx(data)] on a stream at position 0 that holds [data]: the
    image, and the palette bytes or [None]. *)
Definition unpack_pcx (data : list Z)
  : read_result (picture * option (list Z)) :=
  let hdr_data := Lod.read_at data 0 12 in
  if Py.len hdr_data <? 12 then Failed LodCorrupt
  else
    match unpack_pcx_header hdr_data with
    | Raise e => Failed (Raised e)
    | Ok hdr =>
        let img_data := Lod.read_at data 12 (image_size hdr) in
        if width hdr * height hdr =? 0 then Failed ZeroDivisionError
        else
          let bytes_per_pixel := image_size hdr / (width hdr * height hdr) in
          if bytes_per_pixel =? 1 then
            let palette_data :=
              Lod.read_at data (12 + Py.len img_data) 768 in
            reading
              (_ <- image_new_check (width hdr) (height hdr) ;;
               bytes <- image_frombytes (width hdr) (height hdr) 1 img_data ;;
               Ok (mkPicture (width hdr) (height hdr) bytes true
                             (if Py.len palette_data =? 768
                              then Some palette_data else None),
                   Some palette_data))
          else
            reading
              (bytes <- image_frombytes (width hdr) (height hdr) 3 img_data ;;
               Ok (mkPicture (width hdr) (height hdr) bytes false None, None))
    end.

End Unpack.

End Graphics.

(** * Properties *)

(** ** Sequences *)

Module PyFacts.

Lemma len_nonneg {A} (l : list A) : 0 <= Py.len l.
Proof. unfold Py.len. lia. Qed.

Lemma len_app {A} (l1 l2 : list A) : Py.len (l1 ++ l2) = Py.len l1 + Py.len l2.
Proof. unfold Py.len. rewrite length_app. lia. Qed.

Lemma len_repeat {A} (x : A) (n : nat) : Py.len (repeat x n) = Z.of_nat n.
Proof. unfold Py.len. now rewrite repeat_length. Qed.

Lemma len_zeros (n : Z) : 0 <= n -> Py.len (Py.zeros n) = n.
Proof. intros H. unfold Py.zeros. rewrite len_repeat. lia. Qed.

(** A non-negative index in range reads the element at that place. *)
Lemma index_ok {A} (l : list A) (i : Z) (d : A) :
  0 <= i < Py.len l ->
  PySeq.index l i = Ok (nth (Z.to_nat i) l d).
Proof.
  intros H. unfold PySeq.index.
  destruct (Z.ltb_spec i 0) as [Hn|_]; [lia|].
  destruct (Z.leb_spec 0 i) as [_|Hn]; [|lia].
  destruct (Z.ltb_spec i (Py.len l)) as [_|Hn]; [|lia].
  simpl. unfold Py.len in H.
  rewrite (nth_error_nth' l d) by lia. reflexivity.
Qed.

Lemma index_inv {A} (l : list A) (i : Z) (v d : A) :
  0 <= i -> PySeq.index l i = Ok v ->
  i < Py.len l /\ v = nth (Z.to_nat i) l d.
Proof.
  intros Hi H. unfold PySeq.index in H.
  destruct (Z.ltb_spec i 0) as [Hn|_]; [lia|].
  destruct (Z.leb_spec 0 i) as [_|Hn]; [|lia].
  destruct (Z.ltb_spec i (Py.len l)) as [Hlt|Hn]; simpl in H; [|discriminate].
  split; [assumption|].
  unfold Py.len in Hlt.
  rewrite (nth_error_nth' l d) in H by lia. now inversion H.
Qed.

(** A store at a non-negative index in range succeeds, keeps the length,
    sets that place and no other. *)
Lemma store_ok {A} (l : list A) (i : Z) (v : A) :
  0 <= i < Py.len l ->
  exists l', PySeq.store l i v = Ok l'
             /\ List.length l' = List.length l
             /\ (forall d, nth (Z.to_nat i) l' d = v)
             /\ (forall q d, q <> Z.to_nat i -> nth q l' d = nth q l d).
Proof.
  intros H. unfold PySeq.store.
  destruct (Z.ltb_spec i 0) as [Hn|_]; [lia|].
  destruct (Z.leb_spec 0 i) as [_|Hn]; [|lia].
  destruct (Z.ltb_spec i (Py.len l)) as [_|Hn]; [|lia].
  cbn [andb]. eexists. split; [reflexivity|].
  unfold Py.len in H.
  assert (Hn : (Z.to_nat i < List.length l)%nat) by lia.
  set (n := Z.to_nat i) in *.
  assert (Hf : List.length (firstn n l) = n) by (rewrite length_firstn; lia).
  repeat split.
  - rewrite length_app, length_cons, Hf, length_skipn. lia.
  - intros d. rewrite app_nth2 by lia. rewrite Hf, Nat.sub_diag. reflexivity.
  - intros q d Hq.
    destruct (Nat.lt_ge_cases q n) as [Hlt|Hge].
    + rewrite app_nth1 by lia.
      rewrite <- (firstn_skipn n l) at 2. rewrite app_nth1 by lia. reflexivity.
    + rewrite app_nth2 by lia. rewrite Hf.
      destruct (q - n)%nat as [|m] eqn:Em; [lia|]. cbn [nth].
      rewrite nth_skipn. f_equal. lia.
Qed.

Lemma in_range (n k : Z) : In k (PySeq.range n) <-> 0 <= k < n.
Proof.
  unfold PySeq.range. rewrite in_map_iff. split.
  - intros [m [<- Hm]]. apply in_seq in Hm. lia.
  - intros H. exists (Z.to_nat k). split; [lia|]. apply in_seq. lia.
Qed.

End PyFacts.

(** ** The DEF codec *)

Module DefFacts.
Import Def.
#[local] Open Scope res_scope.




(** The eight header fields as bytes. *)
Definition header_bytes (fields : list Z) : list Z :=
  flat_map (Py.le_bytes 4) fields.

(** A frame of one pixel, compression 1: one literal run holding the
    palette index 9. *)
Definition frame_literal1 : list Z :=
  header_bytes [7; 1; 1; 1; 1; 1; 0; 0] ++ [4; 0; 0; 0] ++ [255; 0; 9].

(** The same pixel with compression 2. *)
Definition frame_literal2 : list Z :=
  header_bytes [4; 2; 1; 1; 1; 1; 0; 0] ++ [2; 0] ++ [224; 9].




(** A wrapper around a single frame block at offset 0. *)
Definition single (frame : list Z) : TRSDefWrapper := mkWrapper frame 1 [0].








(** Decoding the frame of [w] to its two canvases, packing them again with
    compression [compr] and decoding the result. *)
Definition decode_encode_decode (w : TRSDefWrapper) (compr : Z)
  : result (option image * option image) :=
  '(bmp, spec) <- _do_extract_bmp w 0 true true ;;
  match bmp with
  | Some b =>
      packed <- _pack_bitmap b spec compr ;;
      _do_extract_bmp (single packed) 0 true true
  | None => Raise ValueError
  end.

(** C1: the round trip fails on a frame of one literal pixel.  With
    compression 1 the frame decodes to the object pixel 9; [_pack_bitmap]
    writes the line offset 0, the length of the compressed bytes before the
    row, where the decoder counts from the start of the offset table, so the
    second decode reads the table as opcodes and yields the object pixel 0.
    With compression 2 the packer computes the opcode
    [(length - 1) | (255 << 5)] for the literal run, which is no byte, and
    [bytearray.append] raises [ValueError]. *)
Theorem roundtrip_fails_on_literal_pixel :
  _do_extract_bmp (single frame_literal1) 0 true true
  = Ok (Some (mkImage 1 1 [9]), Some (mkImage 1 1 [255]))
  /\ _pack_bitmap (mkImage 1 1 [9]) (Some (mkImage 1 1 [255])) 1
     = Ok (header_bytes [7; 1; 1; 1; 1; 1; 0; 0] ++ [0; 0; 0; 0] ++ [255; 0; 9])
  /\ decode_encode_decode (single frame_literal1) 1
     = Ok (Some (mkImage 1 1 [0]), Some (mkImage 1 1 [255]))
  /\ _do_extract_bmp (single frame_literal2) 0 true true
     = Ok (Some (mkImage 1 1 [9]), Some (mkImage 1 1 [255]))
  /\ decode_encode_decode (single frame_literal2) 2 = Raise ValueError.
Proof. repeat split; vm_compute; reflexivity. Qed.




End DefFacts.

(** ** Frame durations *)

Module CliFacts.
Import Cli.

(** The indices at which [k] occurs in [frames], in increasing order. *)
Definition positions (k : string) (frames : list string) : list nat :=
  filter (fun i => String.eqb (nth i frames EmptyString) k)
         (seq 0 (List.length frames)).

(** The number of frames of a group that bear the name [k]. *)
Definition multiplicity (frames : list string) (k : string) : nat :=
  count_occ string_dec frames k.

(** The order of the dict entries: by first index. *)
Definition earlier (a b : string * list nat) : Prop :=
  (hd O (snd a) < hd O (snd b))%nat.

(** What the dict of [most_repeated_frame] is after the frames [pre]. *)
Record counted (pre : list string) (d : list (string * list nat)) : Prop := {
  counted_idx : forall k idx, In (k, idx) d ->
                              idx = positions k pre /\ idx <> [];
  counted_keys : forall k, In k pre -> In k (map fst d);
  counted_nodup : NoDup (map fst d);
  counted_order : StronglySorted earlier d
}.

Lemma positions_app (k f : string) (pre : list string) :
  positions k (pre ++ [f])
  = positions k pre ++ (if String.eqb f k then [List.length pre] else []).
Proof.
  unfold positions. rewrite length_app. simpl List.length.
  rewrite Nat.add_1_r, seq_S, filter_app. simpl.
  rewrite app_nth2 by lia. rewrite Nat.sub_diag. simpl. f_equal.
  apply filter_ext_in. intros i Hi. apply in_seq in Hi.
  rewrite app_nth1 by lia. reflexivity.
Qed.

Lemma positions_spec (k : string) (frames : list string) (i : nat) :
  In i (positions k frames)
  <-> (i < List.length frames)%nat /\ nth i frames EmptyString = k.
Proof.
  unfold positions. rewrite filter_In, in_seq, String.eqb_eq. intuition lia.
Qed.

Lemma positions_absent (k : string) (frames : list string) :
  ~ In k frames -> positions k frames = [].
Proof.
  intros H. destruct (positions k frames) as [|i l] eqn:E; [reflexivity|].
  exfalso. apply H.
  assert (Hi : In i (positions k frames)) by (rewrite E; now left).
  apply positions_spec in Hi. destruct Hi as [Hl <-]. now apply nth_In.
Qed.

Lemma multiplicity_positions (k : string) (frames : list string) :
  multiplicity frames k = List.length (positions k frames).
Proof.
  unfold multiplicity.
  induction frames as [|f pre IH] using rev_ind; [reflexivity|].
  rewrite count_occ_app, positions_app, length_app, IH. simpl.
  destruct (string_dec f k) as [->|N].
  - rewrite String.eqb_refl. reflexivity.
  - apply String.eqb_neq in N. rewrite N. reflexivity.
Qed.

(** The first element of a filtered interval is its least element. *)
Lemma hd_filter_seq_le (p : nat -> bool) (n a i : nat) :
  In i (filter p (seq a n)) -> (hd O (filter p (seq a n)) <= i)%nat.
Proof.
  revert a. induction n as [|n IH]; intros a H; [contradiction|].
  simpl in *. destruct (p a).
  - simpl. destruct H as [->|H]; [lia|].
    apply filter_In in H. destruct H as [H _]. apply in_seq in H. lia.
  - now apply IH.
Qed.

Lemma hd_positions_le (k : string) (frames : list string) (i : nat) :
  In i (positions k frames) -> (hd O (positions k frames) <= i)%nat.
Proof. apply hd_filter_seq_le. Qed.

Lemma hd_in {A} (l : list A) (d : A) : l <> [] -> In (hd d l) l.
Proof. destruct l; [congruence|]. intros _. now left. Qed.

(** [dict_append] on a key of the dict: the entry of the key gets the
    index, the others stay. *)
Lemma dict_append_present (d : list (string * list nat)) (f : string) (n : nat) :
  NoDup (map fst d) -> In f (map fst d) ->
  dict_append d f n
  = map (fun e => if String.eqb f (fst e) then (fst e, snd e ++ [n]) else e) d.
Proof.
  induction d as [|[k idx] d IH]; intros ND Hin; [contradiction|].
  simpl in *. inversion ND as [|? ? Hk ND']; subst.
  destruct (String.eqb_spec f k) as [->|N].
  - f_equal. symmetry. rewrite <- (map_id d) at 2. apply map_ext_in.
    intros [k' idx'] He. simpl.
    destruct (String.eqb_spec k k') as [->|_]; [|reflexivity].
    exfalso. apply Hk. apply in_map_iff. now exists (k', idx').
  - f_equal. apply IH; [assumption|]. destruct Hin; [congruence|assumption].
Qed.

(** [dict_append] on a new key: a new entry at the end. *)
Lemma dict_append_absent (d : list (string * list nat)) (f : string) (n : nat) :
  ~ In f (map fst d) -> dict_append d f n = d ++ [(f, [n])].
Proof.
  induction d as [|[k idx] d IH]; intros Hn; [reflexivity|].
  simpl in *. destruct (String.eqb_spec f k) as [->|N].
  - exfalso. apply Hn. now left.
  - f_equal. apply IH. intros H. apply Hn. now right.
Qed.

Lemma sorted_snoc (d : list (string * list nat)) (e : string * list nat) :
  StronglySorted earlier d -> (forall a, In a d -> earlier a e) ->
  StronglySorted earlier (d ++ [e]).
Proof.
  induction d as [|a d IH]; intros S H; simpl.
  - constructor; constructor.
  - inversion S as [|? ? S' F]; subst. constructor.
    + apply IH; [assumption|]. intros b Hb. apply H. now right.
    + apply Forall_app. split; [assumption|].
      constructor; [|constructor]. apply H. now left.
Qed.

Lemma sorted_map (g : string * list nat -> string * list nat)
      (d : list (string * list nat)) :
  (forall a, In a d -> hd O (snd (g a)) = hd O (snd a)) ->
  StronglySorted earlier d -> StronglySorted earlier (map g d).
Proof.
  induction d as [|a d IH]; intros H S; simpl; [constructor|].
  inversion S as [|? ? S' F]; subst. constructor.
  - apply IH; [|assumption]. intros b Hb. apply H. now right.
  - rewrite Forall_forall in *. intros b' Hb'.
    apply in_map_iff in Hb'. destruct Hb' as [b [<- Hb]].
    unfold earlier. rewrite (H a) by now left.
    rewrite (H b) by now right. now apply F.
Qed.

Lemma sorted_split (d1 d2 : list (string * list nat)) (e b : string * list nat) :
  StronglySorted earlier (d1 ++ e :: d2) -> In b d2 -> earlier e b.
Proof.
  induction d1 as [|a d1 IH]; simpl; intros S Hb.
  - inversion S as [|? ? _ F]; subst. rewrite Forall_forall in F. now apply F.
  - inversion S; subst. now apply IH.
Qed.

Lemma counted_nil : counted [] [].
Proof.
  constructor; simpl; try contradiction; constructor.
Qed.

(** One turn of the first loop of [most_repeated_frame]. *)
Lemma counted_step (pre : list string) (d : list (string * list nat)) (f : string) :
  counted pre d ->
  counted (pre ++ [f]) (dict_append d f (List.length pre)).
Proof.
  intros [HA HB HC HD].
  destruct (in_dec string_dec f (map fst d)) as [Hin|Hout].
  - rewrite (dict_append_present d f _ HC Hin).
    constructor.
    + intros k idx H. apply in_map_iff in H. destruct H as [[k' idx'] [E He]].
      destruct (HA k' idx' He) as [-> Hne]. simpl in E.
      rewrite positions_app.
      destruct (String.eqb f k') eqn:Ef; inversion E; subst; rewrite Ef.
      * split; [reflexivity|]. intros C. apply app_eq_nil in C. intuition discriminate.
      * rewrite app_nil_r. split; [reflexivity|assumption].
    + intros k Hk. rewrite map_map.
      rewrite (map_ext _ fst); [|intros [k' idx']; simpl; now destruct (String.eqb f k')].
      apply in_app_or in Hk. destruct Hk as [Hk|[<-|[]]]; [now apply HB|assumption].
    + rewrite map_map.
      rewrite (map_ext _ fst); [assumption|].
      intros [k' idx']; simpl; now destruct (String.eqb f k').
    + apply sorted_map; [|assumption].
      intros [k' idx'] He. simpl.
      destruct (String.eqb f k'); [|reflexivity]. simpl.
      destruct (HA k' idx' He) as [_ Hne].
      destruct idx'; [congruence|reflexivity].
  - rewrite (dict_append_absent d f _ Hout).
    assert (Hnew : ~ In f pre) by (intros C; apply Hout; now apply HB).
    constructor.
    + intros k idx H. apply in_app_or in H. rewrite positions_app.
      destruct H as [H|[E|[]]].
      * destruct (HA k idx H) as [-> Hne].
        destruct (String.eqb_spec f k) as [->|N].
        -- exfalso. apply Hout. apply in_map_iff. now exists (k, positions k pre).
        -- rewrite app_nil_r. split; [reflexivity|assumption].
      * inversion E; subst. rewrite String.eqb_refl.
        rewrite (positions_absent k pre Hnew). split; [reflexivity|discriminate].
    + intros k Hk. rewrite map_app. apply in_or_app.
      apply in_app_or in Hk. destruct Hk as [Hk|[<-|[]]].
      * left. now apply HB.
      * right. now left.
    + rewrite map_app. simpl.
      apply NoDup_app; [assumption|constructor; [intros []|constructor]|].
      intros k Hk [<-|[]]. contradiction.
    + apply sorted_snoc; [assumption|].
      intros [k idx] He. unfold earlier. simpl.
      destruct (HA k idx He) as [-> Hne].
      pose proof (hd_in _ O Hne) as Hh.
      apply positions_spec in Hh. lia.
Qed.

(** The first loop of [most_repeated_frame]. *)
Lemma counted_loop (post pre : list string) (d : list (string * list nat)) :
  counted pre d ->
  counted (pre ++ post) (frame_counts post (List.length pre) d).
Proof.
  revert pre d. induction post as [|f post IH]; intros pre d H; simpl.
  - now rewrite app_nil_r.
  - replace (pre ++ f :: post) with ((pre ++ [f]) ++ post)
      by (rewrite <- app_assoc; reflexivity).
    replace (S (List.length pre)) with (List.length (pre ++ [f]))
      by (rewrite length_app; simpl; lia).
    apply IH. now apply counted_step.
Qed.

(** The second loop of [most_repeated_frame]: no entry is longer than
    [max_count], or the result is the first index of the first entry of
    greatest length. *)
Lemma pick_max_spec (d : list (string * list nat)) :
  forall max_count most_repeated,
    ((forall e, In e d -> (List.length (snd e) <= max_count)%nat)
     /\ pick_max d max_count most_repeated = most_repeated)
    \/ exists d1 e d2,
         d = d1 ++ e :: d2
         /\ pick_max d max_count most_repeated = hd O (snd e)
         /\ (max_count < List.length (snd e))%nat
         /\ (forall a, In a d1 -> (List.length (snd a) < List.length (snd e))%nat)
         /\ (forall a, In a d2 -> (List.length (snd a) <= List.length (snd e))%nat).
Proof.
  induction d as [|[k idx] d IH]; intros m r; simpl.
  - left. split; [intros e []|reflexivity].
  - destruct (Nat.ltb_spec m (List.length idx)) as [Hlt|Hge].
    + destruct (IH (List.length idx) (hd O idx))
        as [[Hall E]|[d1 [e [d2 [Ed [E [Hm [H1 H2]]]]]]]].
      * right. exists [], (k, idx), d. simpl. repeat split; auto.
        intros a [].
      * right. exists ((k, idx) :: d1), e, d2. subst d. simpl.
        repeat split; auto; try lia.
        intros a [<-|Ha]; [simpl; lia|now apply H1].
    + destruct (IH m r) as [[Hall E]|[d1 [e [d2 [Ed [E [Hm [H1 H2]]]]]]]].
      * left. split; [|assumption].
        intros e [<-|He]; [simpl; lia|now apply Hall].
      * right. exists ((k, idx) :: d1), e, d2. subst d. simpl.
        repeat split; auto.
        intros a [<-|Ha]; [simpl; lia|now apply H1].
Qed.

(** The index that [most_repeated_frame] returns for a group with a frame:
    it is the earliest index whose name has the greatest multiplicity. *)
Lemma most_repeated_frame_spec (frames : list string) :
  frames <> [] ->
  let r := most_repeated_frame frames in
  (r < List.length frames)%nat
  /\ (forall j, (j < List.length frames)%nat ->
        (multiplicity frames (nth j frames EmptyString)
         <= multiplicity frames (nth r frames EmptyString))%nat)
  /\ (forall j, (j < r)%nat ->
        (multiplicity frames (nth j frames EmptyString)
         < multiplicity frames (nth r frames EmptyString))%nat).
Proof.
  intros Hne r.
  pose proof (counted_loop frames [] [] counted_nil) as [HA HB HC HD].
  simpl in HA, HB, HC, HD.
  set (d := frame_counts frames 0 []) in *.
  assert (Hentry : forall j, (j < List.length frames)%nat ->
            In (nth j frames EmptyString,
                positions (nth j frames EmptyString) frames) d
            /\ In j (positions (nth j frames EmptyString) frames)).
  { intros j Hj.
    assert (Hk : In (nth j frames EmptyString) (map fst d))
      by (apply HB; now apply nth_In).
    apply in_map_iff in Hk. destruct Hk as [[k idx] [E He]]. simpl in E. subst k.
    destruct (HA _ _ He) as [-> _]. split; [assumption|].
    apply positions_spec. now split. }
  destruct (pick_max_spec d 0 0) as [[Hall _]|[d1 [e [d2 [Ed [E [Hm [H1 H2]]]]]]]].
  - exfalso. destruct frames as [|f fs]; [congruence|].
    destruct (Hentry O) as [He Hin]; [simpl; lia|].
    specialize (Hall _ He). cbn [nth snd] in Hall, Hin.
    destruct (positions f (f :: fs)); [contradiction|simpl in Hall; lia].
  - destruct e as [k idx].
    assert (He : In (k, idx) d) by (rewrite Ed; apply in_or_app; right; now left).
    destruct (HA k idx He) as [Hidx Hnn]. simpl in *.
    assert (Er : r = hd O idx) by exact E.
    assert (Hr : In r (positions k frames)).
    { rewrite Er, <- Hidx. now apply hd_in. }
    apply positions_spec in Hr. destruct Hr as [Hrl Hrk].
    rewrite Hrk.
    assert (Hlen : multiplicity frames k = List.length idx)
      by (rewrite multiplicity_positions; congruence).
    split; [assumption|]. split.
    + intros j Hj. destruct (Hentry j Hj) as [Hj1 _].
      rewrite (multiplicity_positions (nth j frames EmptyString)), Hlen.
      rewrite Ed in Hj1. apply in_app_or in Hj1.
      destruct Hj1 as [Hj1|[Hj1|Hj1]].
      * specialize (H1 _ Hj1). simpl in H1. lia.
      * inversion Hj1; subst. lia.
      * specialize (H2 _ Hj1). simpl in H2. lia.
    + intros j Hj. assert (Hjl : (j < List.length frames)%nat) by lia.
      destruct (Hentry j Hjl) as [Hj1 Hj2].
      rewrite (multiplicity_positions (nth j frames EmptyString)), Hlen.
      pose proof (hd_positions_le _ _ _ Hj2) as Hle.
      rewrite Ed in Hj1. apply in_app_or in Hj1.
      destruct Hj1 as [Hj1|[Hj1|Hj1]].
      * specialize (H1 _ Hj1). simpl in H1. lia.
      * exfalso. inversion Hj1 as [[Ek Ei]]. rewrite <- Ei in Hle. lia.
      * exfalso. rewrite Ed in HD.
        pose proof (sorted_split _ _ _ _ HD Hj1) as Hs.
        unfold earlier in Hs. simpl in Hs. lia.
Qed.

(** The claim C4 as stated fails: the duration of a frame of a type-3 DEF
    that is not the most repeated one is the quotient 1000/6, which is not
    167. *)
Lemma duration_is_not_167 :
  exists d,
    nth_error (get_frame_durations (fun _ => false)
                 ["a"%string; "b"%string] "3" 0 "x") 1 = Some d
    /\ ~ (d == inject_Z 167)%Q.
Proof.
  exists (truediv 1000 6). split; [reflexivity|].
  unfold Qeq. simpl. discriminate.
Qed.

(** C4 (amended): for a DEF of type "3", [get_frame_durations] gives the
    duration 1000 to the most repeated frame when the DEF name is an
    adventure-map creature, and the duration 1000/6 (the spec rounds it to
    167) to every other frame of the group; the most repeated frame is the
    earliest index whose name has the greatest multiplicity in the group. *)
Theorem durations_of_type3 :
  forall (isAdvMapCreature : string -> bool) (frames : list string)
         (group_id : Z) (def_name : string) (num : nat),
    (num < List.length frames)%nat ->
    let r := most_repeated_frame frames in
    nth_error (get_frame_durations isAdvMapCreature frames "3" group_id def_name)
              num
    = Some (if isAdvMapCreature def_name && Nat.eqb num r
            then inject_Z 1000 else truediv 1000 6)
    /\ (r < List.length frames)%nat
    /\ (forall j, (j < List.length frames)%nat ->
          (multiplicity frames (nth j frames EmptyString)
           <= multiplicity frames (nth r frames EmptyString))%nat)
    /\ (forall j, (j < r)%nat ->
          (multiplicity frames (nth j frames EmptyString)
           < multiplicity frames (nth r frames EmptyString))%nat).
Proof.
  intros isAdv frames group_id def_name num Hnum r.
  split.
  - unfold get_frame_durations. fold r.
    rewrite nth_error_map.
    rewrite (nth_error_nth' _ O) by (rewrite length_seq; exact Hnum).
    rewrite seq_nth by exact Hnum. simpl.
    unfold duration_of. simpl.
    destruct (isAdv def_name && Nat.eqb num r); reflexivity.
  - apply most_repeated_frame_spec. destruct frames; [simpl in Hnum; lia|discriminate].
Qed.

(** A group of three frames, the second name twice, of the adventure-map
    creature [avwmon]: the most repeated frame is at index 1. *)
Lemma durations_of_type3_witness :
  (1 < List.length ["a"%string; "b"%string; "b"%string])%nat
  /\ nth_error (get_frame_durations (String.eqb "avwmon")
                  ["a"%string; "b"%string; "b"%string] "3" 0 "avwmon") 1
     = Some (inject_Z 1000).
Proof.
  split; [simpl; lia|].
  destruct (durations_of_type3 (String.eqb "avwmon")
              ["a"%string; "b"%string; "b"%string] 0 "avwmon" 1) as [H _].
  - simpl. lia.
  - rewrite H. reflexivity.
Defined.

End CliFacts.

(** ** The archive file manager *)

Module LodFacts.
Import Lod.
#[local] Open Scope lod_scope.

(** The state in which a computation ends. *)
Definition final {A} (o : outcome A) : TRSMMFiles :=
  match o with
  | Ret _ f => f
  | Exc _ f => f
  end.

(** The names of the directory, in order. *)
Definition names (f : TRSMMFiles) : list string :=
  map (get_name f) (PySeq.range (count f)).

(** The test of [read_header] for the flag [sorted]: no name is greater,
    without regard to case, than the next one. *)
Fixpoint in_order (l : list string) : bool :=
  match l with
  | a :: (b :: _) as l' => negb (rs_lod_compare_str a b >? 0) && in_order l'
  | _ => true
  end.

(** The [.blv] and [.odm] entries form a suffix of the directory. *)
Fixpoint maps_last (l : list string) : bool :=
  match l with
  | a :: l' => (negb (is_blv_or_odm a) || forallb is_blv_or_odm l')
               && maps_last l'
  | [] => true
  end.

(** The options of a Heroes sound archive ([TRSSnd.init_options] with [mm]
    false): records of 48 bytes, a name of 40 bytes, the address at 40 and
    the size at 44; the table starts at 4. *)
Definition snd_options : TRSMMFilesOptions :=
  mkOptions 40 40 44 (-1) (-1) 48 4 0 0.

(** [TRSSnd.write_header]: the number of entries is written at the position
    of the stream. *)
Definition snd_write_header : M unit :=
  f <- self ;;
  match Py.pack_u32 (count f) with
  | Some bs => ws_write bs
  | None => raise StructError
  end.

(** The environment of a sound archive.  No entry of such an archive is
    packed, so the three [zlib] functions are never called; they stand for
    a codec that stores. *)
Definition snd_env : env :=
  mkEnv (fun d _ => Ok d) (fun d => Ok d) (fun d => d)
        (Some snd_write_header) None None None None None.

Definition ascii_bytes (s : string) : list Z :=
  match encode_ascii s with
  | Ok bs => bs
  | Raise _ => []
  end.

(** A record of a sound archive. *)
Definition snd_record (name : string) (addr size : Z) : list Z :=
  ascii_bytes name ++ Py.zeros (40 - Py.len (ascii_bytes name))
  ++ Py.le_bytes 4 addr ++ Py.le_bytes 4 size.

(** The table of a sound archive whose payloads follow one another from
    [addr] on. *)
Fixpoint snd_table (entries : list (string * list Z)) (addr : Z) : list Z :=
  match entries with
  | [] => []
  | (name, payload) :: rest =>
      snd_record name addr (Py.len payload)
      ++ snd_table rest (addr + Py.len payload)
  end.

(** A sound archive as [load] leaves it: the file holds the count, the
    table and the payloads, one after the other; nothing is buffered. *)
Definition sound_archive (games : bool) (entries : list (string * list Z))
  : TRSMMFiles :=
  let n := Py.len entries in
  let table := snd_table entries (4 + 48 * n) in
  let payloads := List.concat (map snd entries) in
  mkFiles snd_options "sounds.snd" "sounds.snd" None 0 None false false
          table n (4 + 48 * n + Py.len payloads) [] true games [] 0 false
          [("sounds.snd"%string, Py.le_bytes 4 n ++ table ++ payloads)] None.

(** C7: [delete] breaks the order of a sorted directory.  [remove_data]
    overwrites the record at the index with the last record and cuts the
    last record off: deleting entry 0 of a, b, c, d leaves d, b, c, while the
    flag [sorted] stays set, so the binary search of [find_file] no longer
    finds d; [rename] removes the old record in the same way, and renaming
    entry 0 to e leaves d, b, c, e.  With the Games flag, deleting entry 0 of
    a.txt, b.txt, x.blv, y.odm leaves y.odm, b.txt, x.blv. *)
Theorem delete_and_rename_break_order :
  let f := sound_archive false
             [("a", [1]); ("b", [2]); ("c", [3]); ("d", [4])]%string in
  let g := sound_archive true
             [("a.txt", [1]); ("b.txt", [2]); ("x.blv", [3]); ("y.odm", [4])]%string in
  in_order (names f) = true /\ sorted f = true
  /\ (exists f', delete snd_env 0 f = Ret tt f'
                 /\ names f' = ["d"; "b"; "c"]%string
                 /\ in_order (names f') = false
                 /\ sorted f' = true
                 /\ find_file f' "d" = (false, 3))
  /\ (exists f', rename snd_env 0 "e" f = Ret 3 f'
                 /\ names f' = ["d"; "b"; "c"; "e"]%string
                 /\ in_order (names f') = false)
  /\ maps_last (names g) = true
  /\ (exists g', delete snd_env 0 g = Ret tt g'
                 /\ names g' = ["y.odm"; "b.txt"; "x.blv"]%string
                 /\ maps_last (names g') = false).
Proof.
  cbv zeta. split; [reflexivity|]. split; [reflexivity|].
  split; [|split; [|split; [reflexivity|]]].
  - eexists. split; [vm_compute; reflexivity|]. repeat split; vm_compute; reflexivity.
  - eexists. split; [vm_compute; reflexivity|]. repeat split; vm_compute; reflexivity.
  - eexists. split; [vm_compute; reflexivity|]. repeat split; vm_compute; reflexivity.
Qed.

(** C6: after [rename] the new name may not be found, and the payload may
    be lost.  [rename] overwrites the old record with the last one, so the
    directory is out of order when the new position is searched and when the
    name is looked up afterwards: renaming entry 0 of b, d, f, h, j, l to e
    returns index 0, and [find_file] then misses e.  [rename] also leaves the
    table one record longer than the directory, and [write_header] writes
    the whole table: in an archive of one entry whose payload follows the
    table, the payload [1; 2; 3; 4] is overwritten with the start of the
    stale record, and extracting the renamed entry yields [97; 0; 0; 0]. *)
Theorem rename_loses_entry :
  let f := sound_archive false
             [("b", [1]); ("d", [2]); ("f", [3]); ("h", [4]);
              ("j", [5]); ("l", [6])]%string in
  let g := sound_archive false [("a"%string, [1; 2; 3; 4])] in
  in_order (names f) = true
  /\ (exists f', rename snd_env 0 "e" f = Ret 0 f'
                 /\ names f' = ["e"; "l"; "d"; "f"; "h"; "j"]%string
                 /\ find_file f' "e" = (false, 3))
  /\ (exists g0, raw_extract snd_env 0 g = Ret [1; 2; 3; 4] g0)
  /\ (exists g' g'', rename snd_env 0 "b" g = Ret 0 g'
                     /\ find_file g' "b" = (true, 0)
                     /\ raw_extract snd_env 0 g' = Ret [97; 0; 0; 0] g'').
Proof.
  cbv zeta. split; [reflexivity|]. split; [|split].
  - eexists. split; [vm_compute; reflexivity|]. split; vm_compute; reflexivity.
  - eexists. vm_compute. reflexivity.
  - eexists. eexists. split; [vm_compute; reflexivity|].
    split; vm_compute; reflexivity.
Qed.

(** *** What an operation leaves alone

    [keeps P m] says that the state in which [m] ends, with a result or with
    an exception, is related by [P] to the state in which it started.  [P]
    is a preorder that the assignments made by the operation respect; the
    lemmas below need, for each group of operations, only the assignments
    that those operations make. *)

Section Keeps.

Variable E : env.
Variable P : TRSMMFiles -> TRSMMFiles -> Prop.
Hypothesis P_refl : forall f, P f f.
Hypothesis P_trans : forall f g h, P f g -> P g h -> P f h.

Definition keeps {A} (m : M A) : Prop := forall f, P f (final (m f)).

Lemma keeps_ret {A} (a : A) : keeps (ret a).
Proof. intros f. apply P_refl. Qed.

Lemma keeps_raise {A} (e : exn) : keeps (@raise A e).
Proof. intros f. apply P_refl. Qed.

Lemma keeps_self : keeps self.
Proof. intros f. apply P_refl. Qed.

Lemma keeps_lift {A} (r : TRSMMFiles -> result A) : keeps (lift r).
Proof. intros f. unfold lift. destruct (r f); apply P_refl. Qed.

Lemma keeps_update (g : TRSMMFiles -> TRSMMFiles) :
  (forall f, P f (g f)) -> keeps (update g).
Proof. intros H f. apply H. Qed.

Lemma keeps_bind {A B} (m : M A) (k : A -> M B) :
  keeps m -> (forall a, keeps (k a)) -> keeps (bind m k).
Proof.
  intros Hm Hk f. unfold bind. specialize (Hm f).
  destruct (m f) as [a f'|e f']; simpl in *; [|assumption].
  eapply P_trans; [exact Hm|apply Hk].
Qed.

Lemma keeps_try_finally {A} (m : M A) (fin : M unit) :
  keeps m -> keeps fin -> keeps (try_finally m fin).
Proof.
  intros Hm Hf f. unfold try_finally. specialize (Hm f).
  destruct (m f) as [a f'|e f']; simpl in *;
    specialize (Hf f'); destruct (fin f'); simpl in *;
    eapply P_trans; eassumption.
Qed.

Lemma keeps_try_except {A} (m h : M A) :
  keeps m -> keeps h -> keeps (try_except m h).
Proof.
  intros Hm Hh f. unfold try_except. specialize (Hm f).
  destruct (m f) as [a f'|e f']; simpl in *; [assumption|].
  eapply P_trans; [exact Hm|apply Hh].
Qed.

Lemma keeps_attempt {A} (m : M A) : keeps m -> keeps (attempt m).
Proof.
  intros Hm f. unfold attempt. specialize (Hm f).
  destruct (m f); simpl in *; assumption.
Qed.

Lemma keeps_when (c : bool) (m : M unit) : keeps m -> keeps (when c m).
Proof. intros H. destruct c; [exact H|apply keeps_ret]. Qed.

Lemma keeps_for_each {A} (xs : list A) (body : A -> M unit) :
  (forall x, keeps (body x)) -> keeps (for_each xs body).
Proof.
  intros H. induction xs as [|x xs IH]; simpl.
  - apply keeps_ret.
  - apply keeps_bind; [apply H|intros _; exact IH].
Qed.

(** The proof of a [keeps] goal follows the code: a sequence is split, a
    branch is taken apart, an assignment is checked against [P]. *)
Create HintDb keeps.

Ltac rel_solve :=
  solve [ eauto 2 with keeps
        | eapply P_trans; [ | solve [eauto 2 with keeps] ]; rel_solve ].

Ltac keeps_step :=
  match goal with
  | |- keeps (ret _) => apply keeps_ret
  | |- keeps (raise _) => apply keeps_raise
  | |- keeps self => apply keeps_self
  | |- keeps (lift _) => apply keeps_lift
  | |- keeps (bind _ _) => apply keeps_bind; [ | intro ]
  | |- keeps (when _ _) => apply keeps_when
  | |- keeps (try_finally _ _) => apply keeps_try_finally
  | |- keeps (try_except _ _) => apply keeps_try_except
  | |- keeps (attempt _) => apply keeps_attempt
  | |- keeps (for_each _ _) => apply keeps_for_each; intro
  | |- keeps (update _) =>
      apply keeps_update; intro; cbv beta;
      try match goal with
          | |- P _ (if ?c then _ else _) => destruct c
          end; rel_solve
  | |- keeps (match ?x with _ => _ end) => destruct x
  | |- keeps _ => first [ assumption | solve [eauto 2 with keeps] ]
  end.

Ltac keeps_tac := repeat keeps_step.

#[local] Hint Resolve P_refl : keeps.

(** **** Reading, and the plumbing of streams *)

Hypothesis P_io_budget : forall v f, P f (set_io_budget v f).
Hypothesis P_write_stream : forall v f, P f (set_write_stream v f).
Hypothesis P_writes_count : forall v f, P f (set_writes_count v f).
Hypothesis P_block_stream : forall v f, P f (set_block_stream v f).
Hypothesis P_disk :
  forall p c f, P f (set_disk (disk_set (disk f) p c) f).
Hypothesis P_file_size : forall v f, P f (set_file_size v f).

#[local] Hint Resolve P_io_budget P_write_stream P_writes_count
  P_block_stream P_disk P_file_size : keeps.

(** The event handlers respect [P] too. *)
Hypothesis hook_get_file_size :
  forall h i s, on_get_file_size E = Some h -> keeps (h i s).
Hypothesis hook_write_header :
  forall h, on_write_header E = Some h -> keeps h.

Lemma keeps_os_call : keeps os_call.
Proof.
  intros f. unfold os_call. destruct (io_budget f) as [[|n]|]; simpl;
    auto with keeps.
Qed.

Lemma keeps_file_bytes (path : string) : keeps (file_bytes path).
Proof.
  intros f. unfold file_bytes. destruct (disk_get (disk f) path); apply P_refl.
Qed.

Lemma keeps_the_write_stream : keeps the_write_stream.
Proof.
  intros f. unfold the_write_stream. destruct (write_stream f); apply P_refl.
Qed.

#[local] Hint Resolve keeps_os_call keeps_file_bytes keeps_the_write_stream
  : keeps.

Lemma keeps_ws_set_pos (pos : Z) : keeps (ws_set_pos pos).
Proof. unfold ws_set_pos. keeps_tac. Qed.
#[local] Hint Resolve keeps_ws_set_pos : keeps.

Lemma keeps_ws_seek (pos : Z) : keeps (ws_seek pos).
Proof. unfold ws_seek. keeps_tac. Qed.

Lemma keeps_ws_seek_end : keeps ws_seek_end.
Proof. unfold ws_seek_end. keeps_tac. Qed.

Lemma keeps_ws_truncate (n : Z) : keeps (ws_truncate n).
Proof. unfold ws_truncate. keeps_tac. Qed.

Lemma keeps_ws_write (bs : list Z) : keeps (ws_write bs).
Proof. unfold ws_write. keeps_tac. Qed.

Lemma keeps_ws_read (n : Z) : keeps (ws_read n).
Proof. unfold ws_read. keeps_tac. Qed.

#[local] Hint Resolve keeps_ws_seek keeps_ws_seek_end keeps_ws_truncate
  keeps_ws_write keeps_ws_read : keeps.

Lemma keeps_h_read (h : handle) (n : Z) : keeps (h_read h n).
Proof. unfold h_read. keeps_tac. Qed.

Lemma keeps_h_seek (h : handle) (pos : Z) : keeps (h_seek h pos).
Proof. unfold h_seek. keeps_tac. Qed.

Lemma keeps_h_seek_cur (h : handle) (off : Z) : keeps (h_seek_cur h off).
Proof. unfold h_seek_cur. keeps_tac. Qed.

Lemma keeps_h_tell (h : handle) : keeps (h_tell h).
Proof. unfold h_tell. keeps_tac. Qed.

Lemma keeps_open_existing (path : string) : keeps (open_existing path).
Proof. unfold open_existing. keeps_tac. Qed.

#[local] Hint Resolve keeps_h_read keeps_h_seek keeps_h_seek_cur keeps_h_tell
  keeps_open_existing : keeps.

Lemma keeps_begin_write : keeps begin_write.
Proof. unfold begin_write. keeps_tac. Qed.
#[local] Hint Resolve keeps_begin_write : keeps.

Lemma keeps_begin_read : keeps begin_read.
Proof. unfold begin_read. keeps_tac. Qed.
#[local] Hint Resolve keeps_begin_read : keeps.

Lemma keeps_end_write : keeps end_write.
Proof. unfold end_write. keeps_tac. Qed.
#[local] Hint Resolve keeps_end_write : keeps.

Lemma keeps_end_read (h : handle) : keeps (end_read h).
Proof. unfold end_read. keeps_tac. Qed.

Lemma keeps_get_address (i : Z) : keeps (get_address i).
Proof. unfold get_address. keeps_tac. Qed.

Lemma keeps_buffer_slot (i : Z) : keeps (buffer_slot i).
Proof. unfold buffer_slot. keeps_tac. Qed.

#[local] Hint Resolve keeps_end_read keeps_get_address keeps_buffer_slot
  : keeps.

Lemma keeps_get_size (i : Z) : keeps (get_size E i).
Proof.
  unfold get_size. keeps_tac.
Qed.
#[local] Hint Resolve keeps_get_size : keeps.

Lemma keeps_get_unpacked_size (i : Z) : keeps (get_unpacked_size E i).
Proof. unfold get_unpacked_size. keeps_tac. Qed.

Lemma keeps_get_is_packed (i : Z) : keeps (get_is_packed i).
Proof. unfold get_is_packed. keeps_tac. Qed.

Lemma keeps_get_as_is_file_stream (i : Z) (b : bool) :
  keeps (get_as_is_file_stream E i b).
Proof. unfold get_as_is_file_stream. keeps_tac. Qed.

Lemma keeps_free_as_is_file_stream (i : Z) (h : handle) :
  keeps (free_as_is_file_stream i h).
Proof. unfold free_as_is_file_stream. keeps_tac. Qed.

#[local] Hint Resolve keeps_get_unpacked_size keeps_get_is_packed
  keeps_get_as_is_file_stream keeps_free_as_is_file_stream : keeps.

Lemma keeps_end_of_entries (ixs : list Z) :
  forall sz, keeps (end_of_entries E sz ixs).
Proof. induction ixs as [|i ixs IH]; intros sz; simpl; keeps_tac. Qed.
#[local] Hint Resolve keeps_end_of_entries : keeps.

Lemma keeps_write_header : keeps (write_header E).
Proof.
  unfold write_header. keeps_tac.
Qed.
#[local] Hint Resolve keeps_write_header : keeps.

(** **** Writing payloads and fields of the table *)

Hypothesis P_data : forall v f, P f (set_data v f).
Hypothesis P_file_buffers : forall v f, P f (set_file_buffers v f).

#[local] Hint Resolve P_data P_file_buffers : keeps.

Lemma keeps_poke_u32 (offset v : Z) : keeps (poke_u32 offset v).
Proof. unfold poke_u32. keeps_tac. Qed.

Lemma keeps_poke_i32 (offset v : Z) : keeps (poke_i32 offset v).
Proof. unfold poke_i32. keeps_tac. Qed.

#[local] Hint Resolve keeps_poke_u32 keeps_poke_i32 : keeps.

Lemma keeps_do_write_file (index : Z) (dat : handle) (size addr : Z)
  (force : bool) : keeps (do_write_file index dat size addr force).
Proof. unfold do_write_file. keeps_tac. Qed.
#[local] Hint Resolve keeps_do_write_file : keeps.

Lemma keeps_do_move_file (index addr : Z) : keeps (do_move_file E index addr).
Proof. unfold do_move_file. keeps_tac. Qed.
#[local] Hint Resolve keeps_do_move_file : keeps.

Lemma keeps_save_as_copy : keeps (save_as_copy E).
Proof. unfold save_as_copy. keeps_tac. Qed.

Lemma keeps_can_expand_loop (addr new_size : Z) (ixs : list Z) :
  keeps (can_expand_loop addr new_size ixs).
Proof. induction ixs as [|i ixs IH]; simpl; keeps_tac. Qed.
#[local] Hint Resolve keeps_can_expand_loop : keeps.

Lemma keeps_can_expand (index new_size : Z) :
  keeps (can_expand E index new_size).
Proof. unfold can_expand. keeps_tac. Qed.
#[local] Hint Resolve keeps_can_expand : keeps.

Lemma keeps_write_name (offset : Z) (name : string) :
  keeps (write_name offset name).
Proof. unfold write_name. keeps_tac. Qed.
#[local] Hint Resolve keeps_write_name : keeps.

(** **** The record of an entry in [add] *)

Hypothesis hook_set_file_size :
  forall h i s, on_set_file_size E = Some h -> keeps (h i s).

Lemma keeps_add_record (name : string) (size unp pk result : Z) :
  keeps (add_record E name size unp pk result).
Proof. unfold add_record. keeps_tac. Qed.

(** **** All of [add] *)

Hypothesis P_count : forall v f, P f (set_count v f).
Hypothesis P_user_data : forall v f, P f (set_user_data v f).
Hypothesis hook_before_replace_file :
  forall h i, on_before_replace_file E = Some h -> keeps (h i).

#[local] Hint Resolve P_count P_user_data : keeps.

Lemma keeps_insert_data (index : Z) : keeps (insert_data index).
Proof. unfold insert_data. keeps_tac. Qed.
#[local] Hint Resolve keeps_insert_data : keeps.

Lemma keeps_add_store (dat : stream) (size : Z) (found : bool) (result : Z) :
  keeps (add_store E dat size found result).
Proof. unfold add_store. keeps_tac. Qed.

Lemma keeps_add (name : string) (dat : stream) (size c u : Z) :
  keeps (add E name dat size c u).
Proof.
  pose proof keeps_add_store. pose proof keeps_add_record.
  unfold add, add_place, check_name. keeps_tac.
Qed.

(** **** Extraction *)

Lemma keeps_unzip_ignore_errors (input : handle) (unp : Z) :
  keeps (unzip_ignore_errors E input unp).
Proof. unfold unzip_ignore_errors. keeps_tac. Qed.
#[local] Hint Resolve keeps_unzip_ignore_errors : keeps.

Lemma keeps_raw_extract (i : Z) : keeps (raw_extract E i).
Proof. unfold raw_extract. keeps_tac. Qed.

End Keeps.

(** *** Taking a successful run apart *)

Lemma bind_ret_inv {A B} (m : M A) (k : A -> M B) f b f' :
  bind m k f = Ret b f' ->
  exists a f1, m f = Ret a f1 /\ k a f1 = Ret b f'.
Proof.
  unfold bind. destruct (m f) as [a f1|e f1]; [|discriminate].
  intros H. exists a, f1. split; [reflexivity|exact H].
Qed.

Lemma try_finally_ret_inv {A} (m : M A) (fin : M unit) f a f' :
  try_finally m fin f = Ret a f' ->
  exists f1, m f = Ret a f1 /\ fin f1 = Ret tt f'.
Proof.
  unfold try_finally. destruct (m f) as [a1 f1|e f1].
  - destruct (fin f1) as [[] f2|e f2] eqn:Hf; [|discriminate].
    intros H. inversion H; subst. exists f1. split; [reflexivity|exact Hf].
  - destruct (fin f1); discriminate.
Qed.

Lemma when_ret_inv (c : bool) (m : M unit) f u f' :
  when c m f = Ret u f' ->
  (c = true /\ m f = Ret u f') \/ (c = false /\ f' = f).
Proof.
  destruct c; simpl; intros H; [left; auto|right].
  inversion H; auto.
Qed.

(** A relation that says that one field is unchanged. *)
Definition same_on {A} (field : TRSMMFiles -> A) (f f' : TRSMMFiles) : Prop :=
  field f' = field f.

Lemma same_on_refl {A} (field : TRSMMFiles -> A) f : same_on field f f.
Proof. reflexivity. Qed.

Lemma same_on_trans {A} (field : TRSMMFiles -> A) f g h :
  same_on field f g -> same_on field g h -> same_on field f h.
Proof. unfold same_on. congruence. Qed.

Lemma keeps_weaken (P Q : TRSMMFiles -> TRSMMFiles -> Prop) {A} (m : M A) :
  (forall f f', P f f' -> Q f f') -> keeps P m -> keeps Q m.
Proof. intros H Hm f. apply H, Hm. Qed.

Lemma keeps_ret_state (P : TRSMMFiles -> TRSMMFiles -> Prop) {A} (m : M A)
  f a f' : keeps P m -> m f = Ret a f' -> P f f'.
Proof. intros H Hm. specialize (H f). rewrite Hm in H. exact H. Qed.

Lemma keeps_exc_state (P : TRSMMFiles -> TRSMMFiles -> Prop) {A} (m : M A)
  f e f' : keeps P m -> m f = Exc e f' -> P f f'.
Proof. intros H Hm. specialize (H f). rewrite Hm in H. exact H. Qed.

(** *** [save_as] *)

Lemma disk_get_set (d : list (string * list Z)) (p q : string) (c : list Z) :
  disk_get (disk_set d p c) q
  = if String.eqb q p then Some c else disk_get d q.
Proof.
  induction d as [|[r c'] d IH]; simpl.
  - reflexivity.
  - destruct (String.eqb_spec p r) as [->|Hpr]; simpl.
    + destruct (String.eqb_spec q r); reflexivity.
    + destruct (String.eqb_spec q r) as [->|Hqr].
      * destruct (String.eqb_spec r p) as [->|_]; [congruence|reflexivity].
      * exact IH.
Qed.

(** The files in use are the same, and no file has disappeared. *)
Definition same_files (f f' : TRSMMFiles) : Prop :=
  in_file f' = in_file f /\ out_file f' = out_file f
  /\ block_in_file f' = block_in_file f
  /\ forall p, disk_get (disk f) p <> None -> disk_get (disk f') p <> None.

Lemma same_files_refl f : same_files f f.
Proof. unfold same_files. auto. Qed.

Lemma same_files_trans f g h :
  same_files f g -> same_files g h -> same_files f h.
Proof.
  intros (a & b & c & d) (a' & b' & c' & d').
  repeat split; try congruence. auto.
Qed.

Lemma same_files_disk p c f :
  same_files f (set_disk (disk_set (disk f) p c) f).
Proof.
  repeat split. simpl. intros q Hq. rewrite disk_get_set.
  destruct (String.eqb q p); [discriminate|exact Hq].
Qed.

(** The copy loop of [save_as] keeps the files in use. *)
Lemma save_as_copy_same_files (E : env) :
  (forall h i s, on_get_file_size E = Some h -> keeps same_files (h i s)) ->
  keeps same_files (save_as_copy E).
Proof.
  intros Hh.
  apply keeps_save_as_copy;
    solve [ apply same_files_refl | apply same_files_trans
          | apply same_files_disk | exact Hh
          | intros; repeat split; auto ].
Qed.

(** [end_write] when the archive does not go back to reading its own
    file: nothing can fail, and neither the table, the size nor the disk is
    touched. *)
Lemma end_write_quiet (f : TRSMMFiles) :
  block_in_file f = false \/ in_file f <> out_file f ->
  exists f', end_write f = Ret tt f'
             /\ data f' = data f /\ file_size f' = file_size f
             /\ disk f' = disk f.
Proof.
  intros H. unfold end_write, bind, update, self, when. simpl.
  destruct (writes_count f - 1 =? 0).
  - assert (Hc : block_in_file f && String.eqb (in_file f) (out_file f)
                 = false).
    { destruct H as [->|H]; [reflexivity|].
      destruct (String.eqb_spec (in_file f) (out_file f)); [contradiction|].
      apply andb_false_r. }
    rewrite Hc. simpl. eexists. split; [reflexivity|]. auto.
  - eexists. split; [reflexivity|]. auto.
Qed.

(** The file that [save_as_open] creates exists afterwards. *)
Lemma save_as_open_spec (filename : string) (f f1 : TRSMMFiles) :
  save_as_open filename f = Ret tt f1 ->
  in_file f1 = in_file f /\ out_file f1 = filename
  /\ block_in_file f1 = block_in_file f
  /\ disk_get (disk f1) filename <> None.
Proof.
  unfold save_as_open, bind, update, os_call. cbn.
  destruct (io_budget f) as [[|[|n]]|] eqn:Hb; cbn; rewrite ?Hb;
    try discriminate;
    intros H; inversion H; subst; clear H; cbn;
    rewrite disk_get_set, String.eqb_refl; repeat split; discriminate.
Qed.

(** An archive of one entry whose payload lies four bytes behind the end of
    the table: the four bytes between them belong to no entry. *)
Definition gapped_archive : TRSMMFiles :=
  let table := snd_record "a" 56 4 in
  mkFiles snd_options "sounds.snd" "sounds.snd" None 0 None false false
          table 1 60 [] true false [] 0 false
          [("sounds.snd"%string,
            Py.le_bytes 4 1 ++ table ++ [0; 0; 0; 0] ++ [1; 2; 3; 4])] None.

(** C9, as stated, fails: [save_as] assigns the new size before its [try]
    block and sets the flag [ok] before [write_header], so an exception of
    [open] leaves the new size in place, and an exception of [write_header]
    leaves the table of the copy and its size in place.  Here the operating
    system fails at its second call ([open]), and at its seventh (the write
    of the header). *)
Theorem save_as_keeps_changes_on_failure :
  let f := gapped_archive in
  (exists f', save_as snd_env "copy.snd" (set_io_budget (Some 1%nat) f)
              = Exc OSError f'
              /\ data f' = data f
              /\ file_size f = 60 /\ file_size f' = 52)
  /\ (exists f', save_as snd_env "copy.snd" (set_io_budget (Some 6%nat) f)
                 = Exc OSError f'
                 /\ data f = snd_record "a" 56 4
                 /\ data f' = snd_record "a" 52 4
                 /\ file_size f = 60 /\ file_size f' = 56).
Proof.
  cbv zeta. split.
  - eexists. split; [vm_compute; reflexivity|].
    repeat split; vm_compute; reflexivity.
  - eexists. split; [vm_compute; reflexivity|].
    repeat split; vm_compute; reflexivity.
Qed.

(** C9, amended: when the statements of [save_as] before its [try] block
    have run and the loop that copies the entries raises [e], then [save_as]
    raises [e], the table and the size of the archive are those from before
    the call, and the disk is as the loop left it: the output file is still
    there.  The archive must not go back to reading its own file in
    [end_write] (it does not block its file, or it is saved under another
    name), and the handler of [get_size], if there is one, must keep the
    files in use. *)
Theorem save_as_rolls_back_failed_copy (E : env) (filename : string)
  (f f1 f2 : TRSMMFiles) (e : exn) :
  (forall h i s, on_get_file_size E = Some h -> keeps same_files (h i s)) ->
  write_stream f = None ->
  block_in_file f = false \/ in_file f <> filename ->
  save_as_open filename f = Ret tt f1 ->
  save_as_copy E f1 = Exc e f2 ->
  exists f3, save_as E filename f = Exc e f3
             /\ data f3 = data f /\ file_size f3 = file_size f
             /\ disk f3 = disk f2
             /\ disk_get (disk f3) filename <> None.
Proof.
  intros Hh Hws Hblk Hopen Hcopy.
  destruct (save_as_open_spec _ _ _ Hopen) as (Hin & Hout & Hb & Hex).
  pose proof (keeps_exc_state _ _ _ _ _ (save_as_copy_same_files E Hh) Hcopy)
    as (Kin & Kout & Kb & Kd).
  destruct (end_write_quiet f2) as (f2' & Hew & Hd & Hs & Hk).
  { rewrite Kin, Kout, Kb, Hin, Hout, Hb. exact Hblk. }
  eexists. split.
  - unfold save_as. unfold bind at 1. unfold self at 1. rewrite Hws.
    unfold bind at 1. rewrite Hopen.
    unfold bind at 1. unfold attempt. rewrite Hcopy.
    unfold bind at 1. unfold bind at 1. rewrite Hew.
    unfold bind, update, raise. reflexivity.
  - simpl. repeat split; auto.
    rewrite Hk. auto.
Qed.

(** The archive of one entry, saved under another name while the operating
    system fails at its fourth call, the [truncate] of the copy loop. *)
Lemma save_as_rolls_back_failed_copy_witness :
  let f := set_io_budget (Some 3%nat) gapped_archive in
  exists f3, save_as snd_env "copy.snd" f = Exc OSError f3
             /\ data f3 = data f /\ file_size f3 = file_size f
             /\ disk_get (disk f3) "copy.snd" <> None.
Proof.
  cbv zeta.
  destruct (save_as_rolls_back_failed_copy snd_env "copy.snd"
              (set_io_budget (Some 3%nat) gapped_archive)
              (final (save_as_open "copy.snd"
                        (set_io_budget (Some 3%nat) gapped_archive)))
              (final (save_as_copy snd_env
                        (final (save_as_open "copy.snd"
                           (set_io_budget (Some 3%nat) gapped_archive)))))
              OSError)
    as (f3 & H1 & H2 & H3 & _ & H5).
  - intros h i s H. discriminate H.
  - reflexivity.
  - left. reflexivity.
  - vm_compute. reflexivity.
  - vm_compute. reflexivity.
  - exists f3. repeat split; assumption.
Defined.

(** *** Fields of the table *)

Lemma le_value_le_bytes (n : nat) : forall w,
  Py.le_value (Py.le_bytes n w) = w mod 256 ^ Z.of_nat n.
Proof.
  induction n as [|n IH]; intros w.
  - simpl. now rewrite Z.mod_1_r.
  - cbn [Py.le_bytes Py.le_value]. rewrite IH.
    rewrite Nat2Z.inj_succ, Z.pow_succ_r by lia.
    rewrite Z.rem_mul_r by lia. reflexivity.
Qed.

Lemma length_le_bytes (n : nat) : forall w,
  List.length (Py.le_bytes n w) = n.
Proof. induction n as [|n IH]; intros w; simpl; [reflexivity|now rewrite IH]. Qed.

Lemma unpack_pack_i32 (v : Z) (bs : list Z) :
  Py.pack_i32 v = Some bs -> Py.unpack_i32 bs = Some v.
Proof.
  unfold Py.pack_i32, Py.unpack_i32.
  destruct (Z.leb_spec (-2147483648) v) as [Hlo|]; [|discriminate].
  destruct (Z.ltb_spec v 2147483648) as [Hhi|]; [|discriminate].
  cbn [andb]. intros H.
  assert (Hbs : bs = Py.le_bytes 4 (v mod 4294967296)) by congruence.
  rewrite Hbs, length_le_bytes. cbn [Nat.eqb].
  rewrite le_value_le_bytes.
  change (256 ^ Z.of_nat 4) with 4294967296.
  rewrite Z.mod_mod by lia.
  clear H Hbs.
  destruct (Z.ltb_spec (v mod 4294967296) 2147483648) as [H|H]; f_equal.
  - destruct (Z.lt_ge_cases v 0) as [Hn|Hp].
    + rewrite <- (Z.mod_add v 1) in H by lia.
      rewrite Z.mod_small in H by lia. lia.
    + apply Z.mod_small. lia.
  - destruct (Z.lt_ge_cases v 0) as [Hn|Hp].
    + rewrite <- (Z.mod_add v 1) by lia.
      rewrite Z.mod_small by lia. lia.
    + rewrite Z.mod_small in H by lia. lia.
Qed.

Lemma length_pack_i32 (v : Z) (bs : list Z) :
  Py.pack_i32 v = Some bs -> Py.len bs = 4.
Proof.
  unfold Py.pack_i32. destruct (_ && _); [|discriminate].
  intros H.
  assert (Hbs : bs = Py.le_bytes 4 (v mod 4294967296)) by congruence.
  unfold Py.len. now rewrite Hbs, length_le_bytes.
Qed.

Lemma pack_into_slice (buf : list Z) (off : Z) (bs d : list Z) :
  0 <= off -> Py.pack_into buf off bs = Some d ->
  Py.slice d off (off + Py.len bs) = bs.
Proof.
  intros Hoff. unfold Py.pack_into.
  destruct (Z.ltb_spec off 0) as [|_]; [lia|].
  destruct (Z.leb_spec 0 off) as [_|]; [|lia].
  destruct (Z.leb_spec (off + Py.len bs) (Py.len buf)) as [Hfit|];
    [|discriminate].
  cbn [andb]. intros H.
  assert (Hd0 : d = firstn (Z.to_nat off) buf ++ bs
                    ++ skipn (Z.to_nat (off + Py.len bs)) buf) by congruence.
  clear H. subst d.
  pose proof (PyFacts.len_nonneg bs) as Hbs.
  assert (Hf : List.length (firstn (Z.to_nat off) buf) = Z.to_nat off).
  { rewrite length_firstn. unfold Py.len in *. lia. }
  unfold Py.slice.
  set (d := firstn (Z.to_nat off) buf ++ bs ++ _).
  assert (Hd : Py.len d = Py.len buf).
  { unfold d. rewrite !PyFacts.len_app. unfold Py.len in *.
    rewrite Hf, length_skipn. lia. }
  rewrite Hd. unfold Py.clamp.
  destruct (Z.ltb_spec off 0) as [|_]; [lia|].
  destruct (Z.ltb_spec (off + Py.len bs) 0) as [|_]; [lia|].
  rewrite !Z.min_r by lia.
  replace (off + Py.len bs - off) with (Py.len bs) by lia.
  unfold d. rewrite skipn_app, Hf, Nat.sub_diag.
  rewrite skipn_all2 by lia. cbn [skipn app].
  unfold Py.len. rewrite Nat2Z.id.
  rewrite firstn_app, Nat.sub_diag, firstn_all. cbn [firstn].
  now rewrite app_nil_r.
Qed.

Lemma field_i32_data (f f' : TRSMMFiles) (off : Z) :
  data f' = data f -> field_i32 f' off = field_i32 f off.
Proof. intros H. unfold field_i32. now rewrite H. Qed.

(** A field written with [pack_into] reads back as it was written. *)
Lemma poke_i32_spec (off v : Z) (f f' : TRSMMFiles) (u : unit) :
  0 <= off -> poke_i32 off v f = Ret u f' -> field_i32 f' off = Ok v.
Proof.
  intros Hoff. unfold poke_i32, bind, self.
  destruct (Py.pack_i32 v) as [bs|] eqn:Hp; [|discriminate].
  destruct (Py.pack_into (data f) off bs) as [d|] eqn:Hd; [|discriminate].
  unfold update. intros H. inversion H; subst; clear H.
  unfold field_i32. cbn [data set_data].
  rewrite <- (length_pack_i32 _ _ Hp).
  rewrite (pack_into_slice _ _ _ _ Hoff Hd).
  rewrite (unpack_pack_i32 _ _ Hp). reflexivity.
Qed.

(** *** The index that [find_add_index] returns *)

Lemma find_linear_loop_nonneg (f : TRSMMFiles) (name : string) (ixs : list Z) :
  forall best_same best best_c,
  0 <= best -> (forall i, In i ixs -> 0 <= i) ->
  0 <= snd (find_linear_loop f name ixs best_same best best_c).
Proof.
  induction ixs as [|i ixs IH]; intros bs b bc Hb Hall;
    cbn [find_linear_loop]; [exact Hb|].
  assert (Hi : 0 <= i) by (apply Hall; now left).
  assert (Hrest : forall k, In k ixs -> 0 <= k) by (intros k Hk; apply Hall; now right).
  destruct (rs_lod_compare_str_with_count name (get_name f i)) as [c same].
  destruct (c =? 0); [exact Hi|].
  destruct (_ || _); apply IH; auto.
  destruct (c >? 0); lia.
Qed.

Lemma bin_search_loop_lower (f : TRSMMFiles) (name : string) (fuel : nat) :
  forall L H, L <= snd (bin_search_loop fuel f name L H).
Proof.
  induction fuel as [|fuel IH]; intros L H; simpl; [lia|].
  destruct (Z.leb_spec L H) as [HLH|_]; [|simpl; lia].
  assert (Hm : L <= (L + H) / 2) by (apply Z.div_le_lower_bound; lia).
  destruct (_ <=? 0).
  - destruct (_ =? 0); [exact Hm|apply IH].
  - specialize (IH ((L + H) / 2 + 1) H). lia.
Qed.

Lemma last_blv_or_odm_lower (f : TRSMMFiles) (fuel : nat) :
  forall i, -1 <= i -> -1 <= last_blv_or_odm fuel f i.
Proof.
  induction fuel as [|fuel IH]; intros i Hi; simpl; [exact Hi|].
  destruct (Z.geb_spec i 0) as [H0|_]; [|exact Hi].
  destruct (negb _); [|exact Hi]. cbn [andb]. apply IH. lia.
Qed.

Lemma find_file_nonneg (f : TRSMMFiles) (name : string) :
  0 <= snd (find_file f name).
Proof.
  unfold find_file. destruct (negb (sorted f)).
  - apply find_linear_loop_nonneg; [lia|].
    intros i Hi. apply PyFacts.in_range in Hi. lia.
  - apply bin_search_loop_lower.
Qed.

Lemma find_add_index_nonneg (f : TRSMMFiles) (name : string) :
  0 <= count f -> 0 <= snd (find_add_index f name).
Proof.
  intros Hc. unfold find_add_index.
  pose proof (find_file_nonneg f name) as Hf.
  destruct (find_file f name) as [found index]. cbn [snd] in Hf.
  destruct (negb found && games_lod f); [|exact Hf].
  pose proof (last_blv_or_odm_lower f (Z.to_nat (count f)) (count f - 1)) as Hl.
  destruct (negb (is_blv_or_odm name)).
  - unfold _find_file_bin_search.
    match goal with
    | |- 0 <= snd (bin_search_loop ?n f name ?L ?H) =>
        pose proof (bin_search_loop_lower f name n L H)
    end. lia.
  - cbn [snd]. lia.
Qed.

(** *** What [add] records *)

Lemma bind_self {B} (k : TRSMMFiles -> M B) f : bind self k f = k f f.
Proof. reflexivity. Qed.

Lemma bind_lift {A B} (g : TRSMMFiles -> result A) (k : A -> M B) f :
  bind (lift g) k f
  = match g f with Ok a => k a f | Raise e => Exc e f end.
Proof. unfold bind, lift. destruct (g f); reflexivity. Qed.

Lemma check_name_ret (name : string) (f f' : TRSMMFiles) (u : unit) :
  check_name name f = Ret u f' -> f' = f.
Proof.
  unfold check_name. rewrite bind_self.
  destruct (_ >=? _); [discriminate|]. intros H. now inversion H.
Qed.

(** The options, the table, the buffers and the mode of the archive are
    unchanged. *)
Definition untouched (f f' : TRSMMFiles) : Prop :=
  options f' = options f /\ data f' = data f
  /\ file_buffers f' = file_buffers f
  /\ write_on_demand f' = write_on_demand f.

(** The event handlers that [add] may call respect [P]. *)
Definition handlers_keep (E : env)
  (P : TRSMMFiles -> TRSMMFiles -> Prop) : Prop :=
  (forall h, on_write_header E = Some h -> keeps P h)
  /\ (forall h i s, on_get_file_size E = Some h -> keeps P (h i s))
  /\ (forall h i s, on_set_file_size E = Some h -> keeps P (h i s))
  /\ (forall h i, on_before_replace_file E = Some h -> keeps P (h i)).

Lemma handlers_keep_weaken (E : env)
  (P Q : TRSMMFiles -> TRSMMFiles -> Prop) :
  (forall f f', P f f' -> Q f f') -> handlers_keep E P -> handlers_keep E Q.
Proof.
  intros HPQ (H1 & H2 & H3 & H4).
  repeat split; intros; eapply keeps_weaken; eauto.
Qed.

Lemma handlers_keep_options (E : env) :
  handlers_keep E untouched -> handlers_keep E (same_on options).
Proof. apply handlers_keep_weaken. intros f f' (H & _). exact H. Qed.

Lemma handlers_keep_data (E : env) :
  handlers_keep E untouched -> handlers_keep E (same_on data).
Proof. apply handlers_keep_weaken. intros f f' (_ & H & _). exact H. Qed.

Lemma handlers_keep_buffers (E : env) :
  handlers_keep E untouched -> handlers_keep E (same_on file_buffers).
Proof. apply handlers_keep_weaken. intros f f' (_ & _ & H & _). exact H. Qed.

Lemma handlers_keep_mode (E : env) :
  handlers_keep E untouched -> handlers_keep E (same_on write_on_demand).
Proof. apply handlers_keep_weaken. intros f f' (_ & _ & _ & H). exact H. Qed.

(** The size that [add] works with: the rest of the stream when no size
    is given. *)
Definition payload_size (dat : stream) (size : Z) : Z :=
  if size <? 0 then Py.len (s_bytes dat) - s_pos dat else size.

Ltac field_kept :=
  solve [ apply same_on_refl | apply same_on_trans | assumption
        | intros; reflexivity ].

Lemma add_keeps_options (E : env) (name : string) (dat : stream)
  (size c u : Z) :
  handlers_keep E (same_on options) ->
  keeps (same_on options) (add E name dat size c u).
Proof. intros (H1 & H2 & H3 & H4). apply keeps_add; field_kept. Qed.

Lemma add_store_keeps_options (E : env) (dat : stream) (size : Z)
  (found : bool) (result : Z) :
  handlers_keep E (same_on options) ->
  keeps (same_on options) (add_store E dat size found result).
Proof. intros (H1 & H2 & H3 & H4). apply keeps_add_store; field_kept. Qed.

Lemma write_header_keeps_data (E : env) :
  handlers_keep E (same_on data) -> keeps (same_on data) (write_header E).
Proof. intros (H1 & H2 & H3 & H4). apply keeps_write_header; field_kept. Qed.

Lemma add_records_packed_size (E : env) (name : string) (dat dat' : stream)
  (size c u size' unp pk r : Z) (f f' : TRSMMFiles) :
  handlers_keep E untouched ->
  0 <= count f -> 0 <= ItemSize (options f) ->
  0 <= PackedSizeOffset (options f) ->
  add_pack E (options f) dat (payload_size dat size) c u
  = Ok (dat', size', unp, pk) ->
  add E name dat size c u f = Ret r f' ->
  options f' = options f
  /\ field_i32 f' (r * ItemSize (options f) + PackedSizeOffset (options f))
     = Ok pk.
Proof.
  intros Hh Hc Hi Hp Hpack Hadd.
  pose proof (handlers_keep_options E Hh) as Hho.
  pose proof (handlers_keep_data E Hh) as Hhd.
  split.
  { exact (keeps_ret_state _ _ _ _ _ (add_keeps_options E _ _ _ _ _ Hho) Hadd). }
  unfold add in Hadd.
  apply bind_ret_inv in Hadd as (u0 & f0 & Hcheck & Hadd).
  apply check_name_ret in Hcheck. subst f0.
  rewrite bind_self in Hadd. cbv zeta in Hadd.
  rewrite bind_lift in Hadd. unfold payload_size in Hpack.
  rewrite Hpack in Hadd.
  pose proof (find_add_index_nonneg f name Hc) as Hr.
  destruct (find_add_index f name) as [found result]. cbn [snd] in Hr.
  apply bind_ret_inv in Hadd as (u1 & f1 & Hhook & Hadd).
  apply bind_ret_inv in Hadd as (u2 & f2 & Hbw & Hadd).
  apply bind_ret_inv in Hadd as (u3 & f3 & Htf & Hret).
  inversion Hret; subst; clear Hret.
  apply try_finally_ret_inv in Htf as (f4 & Hplace & Hew).
  unfold add_place in Hplace.
  apply bind_ret_inv in Hplace as (u5 & f5 & Hstore & Hrec).
  assert (Ho1 : options f1 = options f).
  { destruct Hho as (_ & _ & _ & H4).
    destruct (on_before_replace_file E) as [h|].
    - destruct found; [|now inversion Hhook].
      exact (keeps_ret_state _ _ _ _ _ (H4 h r eq_refl) Hhook).
    - now inversion Hhook. }
  assert (Ho2 : options f2 = options f1).
  { refine (keeps_ret_state (same_on options) _ _ _ _ _ Hbw).
    apply keeps_begin_write; field_kept. }
  assert (Ho5 : options f5 = options f2).
  { exact (keeps_ret_state _ _ _ _ _
             (add_store_keeps_options E _ _ _ _ Hho) Hstore). }
  assert (Ho : options f5 = options f) by congruence.
  unfold add_record in Hrec. rewrite bind_self in Hrec. cbv zeta in Hrec.
  rewrite Ho in Hrec.
  apply bind_ret_inv in Hrec as (u6 & f6 & _ & Hrec).
  apply bind_ret_inv in Hrec as (u7 & f7 & _ & Hrec).
  apply bind_ret_inv in Hrec as (u8 & f8 & _ & Hrec).
  apply bind_ret_inv in Hrec as (u9 & f9 & Hpoke & Hrec).
  apply bind_ret_inv in Hrec as (u10 & f10 & Hset & Hwh).
  rewrite Z.geb_leb in Hpoke.
  apply Z.leb_le in Hp as Hpb. rewrite Hpb in Hpoke. cbn [when] in Hpoke.
  apply poke_i32_spec in Hpoke; [|nia].
  assert (Hd10 : data f10 = data f9).
  { destruct Hhd as (_ & _ & H3 & _).
    destruct (on_set_file_size E) as [h|].
    - exact (keeps_ret_state _ _ _ _ _ (H3 h r size' eq_refl) Hset).
    - now inversion Hset. }
  assert (Hd4 : data f4 = data f10).
  { apply when_ret_inv in Hwh as [[_ Hwh]|[_ ->]]; [|reflexivity].
    exact (keeps_ret_state _ _ _ _ _ (write_header_keeps_data E Hhd) Hwh). }
  assert (Hd' : data f' = data f4).
  { refine (keeps_ret_state (same_on data) _ _ _ _ _ Hew).
    apply keeps_end_write; field_kept. }
  rewrite <- Hpoke. apply field_i32_data. congruence.
Qed.

(** *** What [add] stores in an archive that writes on demand *)

Lemma update_ret_inv (g : TRSMMFiles -> TRSMMFiles) f u f' :
  update g f = Ret u f' -> f' = g f.
Proof. unfold update. intros H. now inversion H. Qed.

Lemma do_write_file_buffers (i : Z) (s : stream) (n addr : Z)
  (f f' : TRSMMFiles) (u : unit) :
  write_on_demand f = true -> 0 <= i ->
  do_write_file i (HMem s) n addr false f = Ret u f' ->
  buffer_at f' i = Some (read_at (s_bytes s) (s_pos s) n).
Proof.
  intros Hwod Hi H. unfold do_write_file in H.
  rewrite bind_self, Hwod in H. cbn [negb andb] in H.
  apply bind_ret_inv in H as (u1 & f1 & Hfirst & Hrest).
  assert (Hb : file_buffers f' = file_buffers f1).
  { rewrite bind_self in Hrest.
    apply bind_ret_inv in Hrest as (u2 & f2 & Hpoke & Hupd).
    apply update_ret_inv in Hupd.
    assert (Hb2 : file_buffers f2 = file_buffers f1).
    { refine (keeps_ret_state (same_on file_buffers) _ _ _ _ _ Hpoke).
      apply keeps_poke_u32; field_kept. }
    rewrite Hupd. destruct (_ >? _); exact Hb2. }
  unfold buffer_at. rewrite Hb. clear Hb Hrest.
  apply bind_ret_inv in Hfirst as (u2 & f2 & Hwhen & Hfirst).
  assert (Hlen : i < Py.len (file_buffers f2)).
  { apply when_ret_inv in Hwhen as [[Hge Hwhen]|[Hlt ->]].
    - apply update_ret_inv in Hwhen. rewrite Hwhen. cbn [file_buffers set_file_buffers].
      rewrite PyFacts.len_app, PyFacts.len_repeat.
      pose proof (PyFacts.len_nonneg (file_buffers f)). lia.
    - destruct (Z.geb_spec i (Py.len (file_buffers f))); [discriminate|lia]. }
  rewrite bind_lift in Hfirst.
  destruct (PySeq.index (file_buffers f2) i) as [slot|e]; [|discriminate].
  cbn beta iota in Hfirst.
  unfold h_read in Hfirst.
  apply bind_ret_inv in Hfirst as ([bs h] & f3 & Hread & Hfirst).
  unfold ret in Hread. inversion Hread; subst; clear Hread.
  rewrite bind_lift in Hfirst.
  destruct (PyFacts.store_ok (file_buffers f3) i
              (Some (read_at (s_bytes s) (s_pos s) n)))
    as (l' & Hst & Hl & Hnth & _); [lia|].
  rewrite Hst in Hfirst. apply update_ret_inv in Hfirst. subst f1.
  cbn [file_buffers set_file_buffers].
  rewrite (PyFacts.index_ok l' i None) by (unfold Py.len in *; lia).
  rewrite Hnth. reflexivity.
Qed.

Lemma add_store_buffers (E : env) (dat : stream) (size : Z) (found : bool)
  (result : Z) (f f' : TRSMMFiles) (u : unit) :
  handlers_keep E (same_on write_on_demand) ->
  write_on_demand f = true -> 0 <= result ->
  add_store E dat size found result f = Ret u f' ->
  buffer_at f' result = Some (read_at (s_bytes dat) (s_pos dat) size).
Proof.
  intros (H1 & H2 & H3 & H4) Hwod Hr H. unfold add_store in H.
  destruct found.
  - apply bind_ret_inv in H as (ce & fa & Hce & H).
    assert (Ha : write_on_demand fa = true).
    { rewrite <- Hwod.
      refine (keeps_ret_state (same_on write_on_demand) _ _ _ _ _ Hce).
      apply keeps_can_expand; field_kept. }
    apply bind_ret_inv in H as (ub & fb & Hbranch & Hupd).
    apply update_ret_inv in Hupd. subst f'.
    change (buffer_at fb result
            = Some (read_at (s_bytes dat) (s_pos dat) size)).
    destruct ce.
    + apply bind_ret_inv in Hbranch as (addr & fc & Hga & Hdw).
      assert (Hc : write_on_demand fc = true).
      { rewrite <- Ha.
        refine (keeps_ret_state (same_on write_on_demand) _ _ _ _ _ Hga).
        apply keeps_get_address; field_kept. }
      exact (do_write_file_buffers _ _ _ _ _ _ _ Hc Hr Hdw).
    + rewrite bind_self in Hbranch.
      exact (do_write_file_buffers _ _ _ _ _ _ _ Ha Hr Hbranch).
  - rewrite bind_self in H. cbv zeta in H.
    apply bind_ret_inv in H as (u1 & f1 & Hloop & H).
    assert (Hw1 : write_on_demand f1 = true).
    { rewrite <- Hwod.
      refine (keeps_ret_state (same_on write_on_demand) _ _ _ _ _ Hloop).
      apply keeps_for_each; [field_kept|field_kept|]. intros i.
      apply keeps_bind; [field_kept|apply keeps_get_address; field_kept|].
      intros a. destruct (a <? _); [|apply keeps_ret; field_kept].
      apply keeps_bind; [field_kept|apply keeps_self; field_kept|].
      intros g. apply keeps_do_move_file; field_kept. }
    apply bind_ret_inv in H as (u2 & f2 & Hu2 & H).
    apply update_ret_inv in Hu2.
    apply bind_ret_inv in H as (u3 & f3 & Hu3 & H).
    unfold insert_data in Hu3. apply update_ret_inv in Hu3.
    apply bind_ret_inv in H as (u4 & f4 & Hu4 & H).
    apply update_ret_inv in Hu4.
    apply bind_ret_inv in H as (u5 & f5 & Hu5 & H).
    apply update_ret_inv in Hu5.
    rewrite bind_self in H.
    refine (do_write_file_buffers _ _ _ _ _ _ _ _ Hr H).
    subst f5 f4 f3 f2. exact Hw1.
Qed.

Lemma add_buffers_payload (E : env) (name : string) (dat dat' : stream)
  (size c u size' unp pk r : Z) (f f' : TRSMMFiles) :
  handlers_keep E untouched ->
  write_on_demand f = true -> 0 <= count f ->
  add_pack E (options f) dat (payload_size dat size) c u
  = Ok (dat', size', unp, pk) ->
  add E name dat size c u f = Ret r f' ->
  buffer_at f' r = Some (read_at (s_bytes dat') (s_pos dat') size').
Proof.
  intros Hh Hwod Hc Hpack Hadd.
  pose proof (handlers_keep_buffers E Hh) as Hhb.
  pose proof (handlers_keep_mode E Hh) as Hhm.
  unfold add in Hadd.
  apply bind_ret_inv in Hadd as (u0 & f0 & Hcheck & Hadd).
  apply check_name_ret in Hcheck. subst f0.
  rewrite bind_self in Hadd. cbv zeta in Hadd.
  rewrite bind_lift in Hadd. unfold payload_size in Hpack.
  rewrite Hpack in Hadd.
  pose proof (find_add_index_nonneg f name Hc) as Hr.
  destruct (find_add_index f name) as [found result]. cbn [snd] in Hr.
  apply bind_ret_inv in Hadd as (u1 & f1 & Hhook & Hadd).
  apply bind_ret_inv in Hadd as (u2 & f2 & Hbw & Hadd).
  apply bind_ret_inv in Hadd as (u3 & f3 & Htf & Hret).
  inversion Hret; subst; clear Hret.
  apply try_finally_ret_inv in Htf as (f4 & Hplace & Hew).
  unfold add_place in Hplace.
  apply bind_ret_inv in Hplace as (u5 & f5 & Hstore & Hrec).
  assert (Hw1 : write_on_demand f1 = write_on_demand f).
  { destruct Hhm as (_ & _ & _ & H4).
    destruct (on_before_replace_file E) as [h|].
    - destruct found; [|now inversion Hhook].
      exact (keeps_ret_state _ _ _ _ _ (H4 h r eq_refl) Hhook).
    - now inversion Hhook. }
  assert (Hw2 : write_on_demand f2 = write_on_demand f1).
  { refine (keeps_ret_state (same_on write_on_demand) _ _ _ _ _ Hbw).
    apply keeps_begin_write; field_kept. }
  assert (Hb5 : buffer_at f5 r
                = Some (read_at (s_bytes dat') (s_pos dat') size')).
  { refine (add_store_buffers E _ _ _ _ _ _ _ Hhm _ Hr Hstore). congruence. }
  assert (Hb4 : file_buffers f4 = file_buffers f5).
  { refine (keeps_ret_state (same_on file_buffers) _ _ _ _ _ Hrec).
    destruct Hhb as (H1 & H2 & H3 & H4).
    apply keeps_add_record; field_kept. }
  assert (Hb' : file_buffers f' = file_buffers f4).
  { refine (keeps_ret_state (same_on file_buffers) _ _ _ _ _ Hew).
    apply keeps_end_write; field_kept. }
  unfold buffer_at in *. rewrite Hb', Hb4. exact Hb5.
Qed.

(** *** Compression in [add] and [pack_bitmap] *)

Lemma read_at_all (z : list Z) : read_at z 0 (Py.len z) = z.
Proof.
  unfold read_at. pose proof (PyFacts.len_nonneg z).
  destruct (Z.ltb_spec (Py.len z) 0); [lia|].
  cbn [Z.to_nat skipn]. unfold Py.len. rewrite Nat2Z.id. apply firstn_all.
Qed.

(** The options of a Heroes LOD ([TRSLod.init_options]): records of 32
    bytes, the unpacked size at 20 and the packed size at 28. *)
Definition heroes_options : TRSMMFilesOptions :=
  mkOptions 16 16 (-1) 20 28 32 92 0 320092.

(** A stand-in for [zlib.compress]: a run of one byte is answered by its
    length and the byte, anything else by itself behind a zero. *)
Definition run_codec (d : list Z) (level : Z) : result (list Z) :=
  match d with
  | b :: _ => if forallb (Z.eqb b) d then Ok [Py.len d mod 256; b]
              else Ok (0 :: d)
  | [] => Ok [0]
  end.


(** An empty Heroes LOD that writes on demand. *)
Definition fresh_lod : TRSMMFiles :=
  mkFiles heroes_options "new.lod" "new.lod" None 0 None false true
          [] 0 320092 [] true false [] 0 false
          [("new.lod"%string, Py.zeros 92)] None.







(** *** The palette registry *)





Lemma buffer_slot_buffered (f : TRSMMFiles) (i : Z) (b : list Z) :
  0 <= i -> buffer_at f i = Some b ->
  buffer_slot i f = Ret (Some b) f
  /\ i < Py.len (file_buffers f)
  /\ PySeq.index (file_buffers f) i = Ok (Some b).
Proof.
  intros Hi Hb. unfold buffer_at in Hb.
  destruct (PySeq.index (file_buffers f) i) as [[b'|]|e] eqn:Hx;
    try discriminate.
  assert (b' = b) by congruence. subst b'.
  destruct (PyFacts.index_inv _ _ _ None Hi Hx) as [Hlt _].
  repeat split; auto.
  unfold buffer_slot, lift.
  destruct (Z.ltb_spec i (Py.len (file_buffers f))); [|lia].
  now rewrite Hx.
Qed.


Lemma try_finally_ret {A} (m : M A) (fin : M unit) f a f1 u f2 :
  m f = Ret a f1 -> fin f1 = Ret u f2 -> try_finally m fin f = Ret a f2.
Proof. intros Hm Hf. unfold try_finally. now rewrite Hm, Hf. Qed.

Lemma bind_ret {A B} (m : M A) (k : A -> M B) f a f1 :
  m f = Ret a f1 -> bind m k f = k a f1.
Proof. intros Hm. unfold bind. now rewrite Hm. Qed.
























(** A palette of 768 bytes. *)
Definition grey_palette : list Z := repeat 7 768.





End LodFacts.

(** ** The directory: comparing names, searching, opening and closing
    records *)

Module DirectoryFacts.
Import Lod LodFacts.
#[local] Open Scope lod_scope.

(** *** Comparing names *)

Lemma compare_str_refl (s : string) : Py.compare_str s s = Eq.
Proof.
  induction s as [|c s IH]; cbn; [reflexivity|].
  now rewrite Nat.compare_refl.
Qed.

Lemma compare_str_eq (a : string) :
  forall b, Py.compare_str a b = Eq -> a = b.
Proof.
  induction a as [|c a IH]; intros [|d b]; cbn; try discriminate; auto.
  destruct (Nat.compare_spec (nat_of_ascii c) (nat_of_ascii d)) as [He| |];
    try discriminate.
  intros H. f_equal; [|now apply IH].
  rewrite <- (ascii_nat_embedding c), <- (ascii_nat_embedding d).
  now rewrite He.
Qed.

Lemma compare_str_antisym (a : string) :
  forall b, Py.compare_str b a = CompOpp (Py.compare_str a b).
Proof.
  induction a as [|c a IH]; intros [|d b]; cbn; try reflexivity.
  rewrite (Nat.compare_antisym (nat_of_ascii c) (nat_of_ascii d)).
  destruct (Nat.compare (nat_of_ascii c) (nat_of_ascii d)); cbn; auto.
Qed.

Lemma compare_str_lt_trans (a : string) :
  forall b c, Py.compare_str a b = Lt -> Py.compare_str b c = Lt ->
              Py.compare_str a c = Lt.
Proof.
  induction a as [|x a IH]; intros [|y b] [|z c]; cbn; try discriminate; auto.
  destruct (Nat.compare_spec (nat_of_ascii x) (nat_of_ascii y)) as [Hxy|Hxy|Hxy];
    try discriminate;
    destruct (Nat.compare_spec (nat_of_ascii y) (nat_of_ascii z)) as [Hyz|Hyz|Hyz];
    try discriminate; intros H1 H2.
  - rewrite Hxy, Hyz, Nat.compare_refl. eapply IH; eassumption.
  - rewrite Hxy. now apply Nat.compare_lt_iff in Hyz as ->.
  - rewrite <- Hyz. now apply Nat.compare_lt_iff in Hxy as ->.
  - assert (Hxz : (nat_of_ascii x < nat_of_ascii z)%nat) by lia.
    now apply Nat.compare_lt_iff in Hxz as ->.
Qed.

Lemma compare_cases (a b : string) :
  (rs_lod_compare_str a b = -1 /\ Py.compare_str (Py.lower a) (Py.lower b) = Lt)
  \/ (rs_lod_compare_str a b = 0 /\ Py.lower a = Py.lower b)
  \/ (rs_lod_compare_str a b = 1 /\ Py.compare_str (Py.lower b) (Py.lower a) = Lt).
Proof.
  unfold rs_lod_compare_str.
  destruct (Py.compare_str (Py.lower a) (Py.lower b)) eqn:Hc.
  - right. left. split; [reflexivity|]. now apply compare_str_eq.
  - left. auto.
  - right. right. split; [reflexivity|].
    rewrite compare_str_antisym, Hc. reflexivity.
Qed.

Lemma lower_ascii_idem (c : ascii) :
  Py.lower_ascii (Py.lower_ascii c) = Py.lower_ascii c.
Proof.
  unfold Py.lower_ascii.
  destruct (Nat.leb 65 (nat_of_ascii c) && Nat.leb (nat_of_ascii c) 90)%bool
    eqn:Hc.
  - apply andb_true_iff in Hc as [H1 H2].
    apply Nat.leb_le in H1, H2.
    rewrite nat_ascii_embedding by lia.
    destruct (Nat.leb_spec 65 (nat_of_ascii c + 32));
      destruct (Nat.leb_spec (nat_of_ascii c + 32) 90); cbn; try reflexivity.
    lia.
  - now rewrite Hc.
Qed.

Lemma lower_idem (s : string) : Py.lower (Py.lower s) = Py.lower s.
Proof.
  induction s as [|c s IH]; cbn; [reflexivity|].
  now rewrite lower_ascii_idem, IH.
Qed.

Lemma compare_below (x y : string) :
  Py.compare_str (Py.lower x) (Py.lower y) = Lt ->
  rs_lod_compare_str x y = -1.
Proof. intros H. unfold rs_lod_compare_str. now rewrite H. Qed.

Lemma compare_same (x y : string) :
  Py.lower x = Py.lower y -> rs_lod_compare_str x y = 0.
Proof.
  intros H. unfold rs_lod_compare_str. now rewrite H, compare_str_refl.
Qed.

Lemma compare_swap (a b : string) :
  rs_lod_compare_str b a = - rs_lod_compare_str a b.
Proof.
  unfold rs_lod_compare_str.
  rewrite (compare_str_antisym (Py.lower a) (Py.lower b)).
  destruct (Py.compare_str (Py.lower a) (Py.lower b)); reflexivity.
Qed.

(** "Not greater" is transitive, and strictly so when one of the steps
    is. *)
Lemma compare_trans (a b c : string) :
  rs_lod_compare_str a b <= 0 -> rs_lod_compare_str b c <= 0 ->
  rs_lod_compare_str a c <= 0
  /\ (rs_lod_compare_str a b < 0 \/ rs_lod_compare_str b c < 0 ->
      rs_lod_compare_str a c < 0).
Proof.
  intros H1 H2.
  destruct (compare_cases a b) as [[Hab Lab]|[[Hab Lab]|[Hab Lab]]];
    [| |lia];
    (destruct (compare_cases b c) as [[Hbc Lbc]|[[Hbc Lbc]|[Hbc Lbc]]];
     [| |lia]).
  - rewrite (compare_below a c); [lia|].
    eapply compare_str_lt_trans; eassumption.
  - rewrite (compare_below a c); [lia|]. now rewrite <- Lbc.
  - rewrite (compare_below a c); [lia|]. now rewrite Lab.
  - rewrite (compare_same a c); [lia|]. congruence.
Qed.

(** X1: [rs_lod_compare_str] is a comparison that ignores case: it answers -1,
    0 or 1; swapping the arguments negates the answer; the answer is 0
    exactly when the two names are equal in lower case; a name compares
    like its lower-case form; and "not greater" is transitive. *)
Theorem rs_lod_compare_str_order (a b c : string) :
  (rs_lod_compare_str a b = -1 \/ rs_lod_compare_str a b = 0
   \/ rs_lod_compare_str a b = 1)
  /\ rs_lod_compare_str b a = - rs_lod_compare_str a b
  /\ (rs_lod_compare_str a b = 0 <-> Py.lower a = Py.lower b)
  /\ rs_lod_compare_str (Py.lower a) b = rs_lod_compare_str a b
  /\ (rs_lod_compare_str a b <= 0 -> rs_lod_compare_str b c <= 0 ->
      rs_lod_compare_str a c <= 0)
  /\ (rs_lod_compare_str a b <= 0 -> rs_lod_compare_str b c < 0 ->
      rs_lod_compare_str a c < 0)
  /\ (rs_lod_compare_str a b < 0 -> rs_lod_compare_str b c <= 0 ->
      rs_lod_compare_str a c < 0).
Proof.
  split; [|split; [|split; [|split; [|split; [|split]]]]].
  - destruct (compare_cases a b) as [[H _]|[[H _]|[H _]]]; auto.
  - apply compare_swap.
  - split; [|apply compare_same].
    destruct (compare_cases a b) as [[H _]|[[_ H]|[H _]]]; auto; lia.
  - unfold rs_lod_compare_str. now rewrite lower_idem.
  - intros H1 H2. exact (proj1 (compare_trans a b c H1 H2)).
  - intros H1 H2.
    apply (proj2 (compare_trans a b c H1 ltac:(lia))). now right.
  - intros H1 H2.
    apply (proj2 (compare_trans a b c ltac:(lia) H2)). now left.
Qed.

(** *** Searching the directory *)

Lemma find_linear_loop_bounds (f : TRSMMFiles) (name : string)
  (n : Z) (ixs : list Z) :
  forall best_same best best_c found r,
  (forall i, In i ixs -> 0 <= i < n) -> 0 <= best <= Z.max 0 n ->
  find_linear_loop f name ixs best_same best best_c = (found, r) ->
  0 <= r <= Z.max 0 n
  /\ (found = true -> In r ixs /\ rs_lod_compare_str name (get_name f r) = 0).
Proof.
  induction ixs as [|i ixs IH]; intros bs b bc found r Hall Hb H;
    cbn [find_linear_loop] in H.
  - inversion H; subst. split; [exact Hb|discriminate].
  - assert (Hi : 0 <= i < n) by (apply Hall; now left).
    assert (Hrest : forall k, In k ixs -> 0 <= k < n)
      by (intros k Hk; apply Hall; now right).
    unfold rs_lod_compare_str_with_count in H.
    destruct (Z.eqb_spec (rs_lod_compare_str name (get_name f i)) 0) as [Hc|Hc].
    + inversion H; subst. split; [lia|]. intros _. split; [now left|exact Hc].
    + destruct (_ || _).
      * apply IH in H; auto.
        -- destruct H as [H1 H2]. split; [exact H1|].
           intros Hf. destruct (H2 Hf). split; [now right|assumption].
        -- destruct (_ >? 0); lia.
      * apply IH in H; auto.
        destruct H as [H1 H2]. split; [exact H1|].
        intros Hf. destruct (H2 Hf). split; [now right|assumption].
Qed.

Lemma bin_search_loop_bounds (f : TRSMMFiles) (name : string) (fuel : nat) :
  forall L H found r,
  L <= H + 1 ->
  bin_search_loop fuel f name L H = (found, r) ->
  L <= r <= H + 1
  /\ (found = true -> r <= H /\ rs_lod_compare_str name (get_name f r) = 0).
Proof.
  induction fuel as [|fuel IH]; intros L H found r HLH Hrun;
    cbn [bin_search_loop] in Hrun.
  - inversion Hrun; subst. split; [lia|discriminate].
  - destruct (Z.leb_spec L H) as [Hle|Hgt].
    + assert (Hm : L <= (L + H) / 2 <= H).
      { split; [apply Z.div_le_lower_bound; lia|].
        apply Z.div_le_upper_bound; lia. }
      destruct (Z.leb_spec (rs_lod_compare_str name (get_name f ((L + H) / 2))) 0).
      * destruct (Z.eqb_spec (rs_lod_compare_str name (get_name f ((L + H) / 2))) 0)
          as [Hc|Hc].
        -- inversion Hrun; subst. split; [lia|]. intros _. split; [lia|exact Hc].
        -- apply IH in Hrun; [|lia]. destruct Hrun as [H1 H2].
           split; [lia|]. intros Hf. destruct (H2 Hf). split; [lia|assumption].
      * apply IH in Hrun; [|lia]. destruct Hrun as [H1 H2].
        split; [lia|]. intros Hf. destruct (H2 Hf). split; [lia|assumption].
    + inversion Hrun; subst. split; [lia|discriminate].
Qed.

(** X2: [find_file] answers with an index from 0 to [count], and when it says
    that the name was found, the index is below [count] and the entry there
    bears the name, up to case. *)
Theorem find_file_sound (f : TRSMMFiles) (name : string) (found : bool)
  (r : Z) :
  find_file f name = (found, r) ->
  0 <= r <= Z.max 0 (count f)
  /\ (found = true ->
      r < count f /\ rs_lod_compare_str name (get_name f r) = 0).
Proof.
  unfold find_file. destruct (negb (sorted f)); intros H.
  - unfold _find_file_linear in H.
    apply (find_linear_loop_bounds f name (count f)) in H.
    + destruct H as [H1 H2]. split; [exact H1|].
      intros Hf. destruct (H2 Hf) as [Hin Hc].
      apply PyFacts.in_range in Hin. split; [lia|exact Hc].
    + intros i Hi. now apply PyFacts.in_range in Hi.
    + lia.
  - unfold _find_file_bin_search in H.
    destruct (Z.lt_ge_cases (count f) 0) as [Hneg|Hpos].
    + replace (Z.to_nat (count f - 1 - 0 + 1)) with O in H by lia.
      cbn in H. inversion H; subst. split; [lia|discriminate].
    + apply bin_search_loop_bounds in H; [|lia].
      destruct H as [H1 H2]. split; [lia|].
      intros Hf. destruct (H2 Hf). split; [lia|assumption].
Qed.

Lemma find_linear_loop_first (f : TRSMMFiles) (name : string) (l1 : list Z) :
  forall i l2 best_same best best_c,
  (forall k, In k l1 -> rs_lod_compare_str name (get_name f k) <> 0) ->
  rs_lod_compare_str name (get_name f i) = 0 ->
  find_linear_loop f name (l1 ++ i :: l2) best_same best best_c = (true, i).
Proof.
  induction l1 as [|k l1 IH]; intros i l2 bs b bc Hnone Hi;
    cbn [app find_linear_loop]; unfold rs_lod_compare_str_with_count.
  - now rewrite Hi.
  - destruct (Z.eqb_spec (rs_lod_compare_str name (get_name f k)) 0) as [Hc|_].
    + exfalso. apply (Hnone k); [now left|exact Hc].
    + assert (Hrest : forall q, In q l1 ->
                        rs_lod_compare_str name (get_name f q) <> 0)
        by (intros q Hq; apply Hnone; now right).
      destruct (_ || _); now apply IH.
Qed.

Lemma map_seq_shift (s b : nat) :
  map Z.of_nat (seq s b)
  = map (fun k => Z.of_nat s + k) (map Z.of_nat (seq 0 b)).
Proof.
  revert s. induction b as [|b IH]; intros s; [reflexivity|].
  cbn [seq map]. f_equal; [lia|].
  rewrite (IH (S s)), (IH 1%nat), !map_map.
  apply map_ext. intros k. lia.
Qed.

Lemma range_split (n i : Z) :
  0 <= i < n ->
  PySeq.range n = PySeq.range i ++ i :: map (fun k => i + 1 + k)
                                            (PySeq.range (n - i - 1)).
Proof.
  intros Hi. unfold PySeq.range.
  replace (Z.to_nat n) with (Z.to_nat i + S (Z.to_nat (n - i - 1)))%nat by lia.
  rewrite seq_app, map_app. f_equal. cbn [seq map Nat.add].
  f_equal; [lia|].
  rewrite (map_seq_shift (S (Z.to_nat i))).
  apply map_ext. intros k. lia.
Qed.

(** X3: In a directory that is not flagged as sorted, [find_file] finds a name
    that is there: it answers with the first entry that bears the name, up
    to case. *)
Theorem find_file_linear_complete (f : TRSMMFiles) (name : string) (i : Z) :
  sorted f = false -> 0 <= i < count f ->
  rs_lod_compare_str name (get_name f i) = 0 ->
  (forall k, 0 <= k < i -> rs_lod_compare_str name (get_name f k) <> 0) ->
  find_file f name = (true, i).
Proof.
  intros Hs Hi Hc Hfirst. unfold find_file, _find_file_linear.
  rewrite Hs. cbn [negb].
  rewrite (range_split (count f) i Hi).
  apply find_linear_loop_first; [|exact Hc].
  intros k Hk. apply PyFacts.in_range in Hk. now apply Hfirst.
Qed.

(** The directory is in order: no name is greater than the next one.  This
    is the test of [read_header] for the flag [sorted]. *)
Definition ordered (f : TRSMMFiles) : Prop :=
  forall i, 0 <= i -> i + 1 < count f ->
    rs_lod_compare_str (get_name f i) (get_name f (i + 1)) <= 0.

Lemma ordered_pairwise (f : TRSMMFiles) :
  ordered f ->
  forall i j, 0 <= i -> i <= j -> j < count f ->
    rs_lod_compare_str (get_name f i) (get_name f j) <= 0.
Proof.
  intros Hord i j Hi Hij Hj.
  replace j with (i + Z.of_nat (Z.to_nat (j - i))) in * by lia.
  induction (Z.to_nat (j - i)) as [|d IH].
  - rewrite Z.add_0_r.
    rewrite compare_same; [lia|reflexivity].
  - rewrite Nat2Z.inj_succ in *.
    refine (proj1 (compare_trans _ (get_name f (i + Z.of_nat d)) _ _ _));
      [apply IH; lia|].
    replace (i + Z.succ (Z.of_nat d)) with (i + Z.of_nat d + 1) by lia.
    apply Hord; lia.
Qed.

Lemma bin_search_loop_sorted (f : TRSMMFiles) (name : string) (fuel : nat) :
  ordered f ->
  forall L H found r,
  0 <= L -> H < count f -> (Z.to_nat (H - L + 1) <= fuel)%nat ->
  (forall i, 0 <= i < L -> rs_lod_compare_str (get_name f i) name < 0) ->
  (forall i, H < i < count f -> rs_lod_compare_str name (get_name f i) < 0) ->
  bin_search_loop fuel f name L H = (found, r) ->
  found = false ->
  (forall i, 0 <= i < r -> rs_lod_compare_str (get_name f i) name < 0)
  /\ (forall i, r <= i < count f ->
        rs_lod_compare_str name (get_name f i) < 0).
Proof.
  intros Hord.
  induction fuel as [|fuel IH]; intros L H found r HL HH Hfuel Hlow Hhigh Hrun Hnf;
    cbn [bin_search_loop] in Hrun.
  - inversion Hrun; subst. split; [exact Hlow|].
    intros i Hi. apply Hhigh. lia.
  - destruct (Z.leb_spec L H) as [Hle|Hgt].
    + set (m := (L + H) / 2) in *.
      assert (Hm : L <= m <= H).
      { split; [apply Z.div_le_lower_bound; lia|].
        apply Z.div_le_upper_bound; lia. }
      destruct (Z.leb_spec (rs_lod_compare_str name (get_name f m)) 0) as [Hc|Hc].
      * destruct (Z.eqb_spec (rs_lod_compare_str name (get_name f m)) 0)
          as [Hz|Hz].
        -- inversion Hrun; subst. discriminate.
        -- apply IH in Hrun; auto; try lia.
           intros i Hi.
           destruct (Z.le_gt_cases i H) as [HiH|HiH]; [|apply Hhigh; lia].
           assert (Hmi : rs_lod_compare_str (get_name f m) (get_name f i) <= 0)
             by (apply ordered_pairwise; auto; lia).
           apply (proj2 (compare_trans name (get_name f m) (get_name f i)
                                       Hc Hmi)).
           left. lia.
      * apply IH in Hrun; auto; try lia.
        intros i Hi.
        pose proof (compare_swap name (get_name f m)) as Hanti.
        destruct (Z.lt_ge_cases i L) as [HiL|HiL]; [apply Hlow; lia|].
        assert (Him : rs_lod_compare_str (get_name f i) (get_name f m) <= 0)
          by (apply ordered_pairwise; auto; lia).
        assert (Hmn : rs_lod_compare_str (get_name f m) name < 0) by lia.
        apply (proj2 (compare_trans (get_name f i) (get_name f m) name
                                    Him ltac:(lia))).
        now right.
    + inversion Hrun; subst. split; [exact Hlow|].
      intros i Hi. apply Hhigh. lia.
Qed.

Lemma in_order_nth (l : list string) :
  in_order l = true ->
  forall k, (S k < List.length l)%nat ->
    rs_lod_compare_str (nth k l EmptyString) (nth (S k) l EmptyString) <= 0.
Proof.
  induction l as [|a l IH]; intros Hord k Hk; [cbn in Hk; lia|].
  destruct l as [|b l]; [cbn in Hk; lia|].
  cbn [in_order] in Hord. apply andb_true_iff in Hord as [Hab Hrest].
  destruct k as [|k].
  - cbn [nth]. apply negb_true_iff in Hab.
    destruct (Z.gtb_spec (rs_lod_compare_str a b) 0); [discriminate|lia].
  - change (nth (S k) (a :: b :: l) EmptyString)
      with (nth k (b :: l) EmptyString).
    change (nth (S (S k)) (a :: b :: l) EmptyString)
      with (nth (S k) (b :: l) EmptyString).
    apply IH; [exact Hrest|]. cbn [List.length] in *. lia.
Qed.

Lemma nth_names (f : TRSMMFiles) (i : Z) :
  0 <= i < count f ->
  nth (Z.to_nat i) (names f) EmptyString = get_name f i.
Proof.
  intros Hi. unfold names, PySeq.range.
  rewrite map_map.
  rewrite (nth_indep _ EmptyString (get_name f (Z.of_nat 0)))
    by (rewrite length_map, length_seq; lia).
  rewrite (map_nth (fun k => get_name f (Z.of_nat k))).
  rewrite seq_nth by lia. f_equal. lia.
Qed.

Lemma in_order_ordered (f : TRSMMFiles) :
  in_order (names f) = true -> ordered f.
Proof.
  intros Hord i Hi Hn.
  rewrite <- (nth_names f i), <- (nth_names f (i + 1)) by lia.
  replace (Z.to_nat (i + 1)) with (S (Z.to_nat i)) by lia.
  apply in_order_nth; [exact Hord|].
  unfold names, PySeq.range. rewrite !length_map, length_seq. lia.
Qed.

(** X4: In a directory that is in order and flagged as sorted, the binary
    search of [find_file] is complete: a name that some entry bears, up to
    case, is found; and when the name is not found, the index returned is
    the place where it belongs: every entry before it is smaller and every
    entry from it on is greater. *)
Theorem find_file_sorted (f : TRSMMFiles) (name : string) (found : bool)
  (r : Z) :
  sorted f = true -> in_order (names f) = true ->
  find_file f name = (found, r) ->
  ((exists i, 0 <= i < count f
              /\ rs_lod_compare_str name (get_name f i) = 0) ->
   found = true)
  /\ (found = false ->
      (forall i, 0 <= i < r -> rs_lod_compare_str (get_name f i) name < 0)
      /\ (forall i, r <= i < count f ->
            rs_lod_compare_str name (get_name f i) < 0)).
Proof.
  intros Hs Hord Hrun. apply in_order_ordered in Hord.
  assert (Hmiss : found = false ->
    (forall i, 0 <= i < r -> rs_lod_compare_str (get_name f i) name < 0)
    /\ (forall i, r <= i < count f ->
          rs_lod_compare_str name (get_name f i) < 0)).
  { intros Hnf. unfold find_file in Hrun. rewrite Hs in Hrun.
    cbn [negb] in Hrun. unfold _find_file_bin_search in Hrun.
    eapply (bin_search_loop_sorted f name _ Hord 0 (count f - 1));
      try eassumption; try lia. }
  split; [|exact Hmiss].
  intros (i & Hi & Hc). destruct found; [reflexivity|].
  destruct (Hmiss eq_refl) as [Hlow Hhigh].
  destruct (Z.lt_ge_cases i r) as [Hlt|Hge].
  - specialize (Hlow i ltac:(lia)).
    pose proof (compare_swap name (get_name f i)) as Hanti. lia.
  - specialize (Hhigh i ltac:(lia)). lia.
Qed.

(** The sound archive b, d, f: d is found at its place, and c belongs at
    index 1. *)
Lemma find_file_sorted_witness :
  let f := sound_archive false [("b", [1]); ("d", [2]); ("f", [3])]%string in
  find_file f "D" = (true, 1)
  /\ find_file f "c" = (false, 1)
  /\ rs_lod_compare_str (get_name f 0) "c" < 0.
Proof.
  cbv zeta.
  split; [vm_compute; reflexivity|]. split; [vm_compute; reflexivity|].
  destruct (find_file_sorted
              (sound_archive false [("b", [1]); ("d", [2]); ("f", [3])]%string)
              "c" false 1) as [_ Hmiss].
  - reflexivity.
  - vm_compute. reflexivity.
  - vm_compute. reflexivity.
  - destruct (Hmiss eq_refl) as [Hlow _]. apply Hlow. lia.
Defined.

(** Three entries in a directory that is not flagged as sorted. *)
Definition unsorted_archive : TRSMMFiles :=
  set_sorted false
    (sound_archive false [("d", [1]); ("b", [2]); ("f", [3])]%string).

Lemma find_file_sound_witness :
  0 <= 1 <= Z.max 0 (count unsorted_archive)
  /\ (true = true ->
      1 < count unsorted_archive
      /\ rs_lod_compare_str "B" (get_name unsorted_archive 1) = 0).
Proof.
  apply (find_file_sound unsorted_archive "B" true 1).
  vm_compute. reflexivity.
Defined.

Lemma find_file_linear_complete_witness :
  find_file unsorted_archive "B" = (true, 1).
Proof.
  apply (find_file_linear_complete unsorted_archive "B" 1).
  - reflexivity.
  - vm_compute. split; [discriminate|reflexivity].
  - vm_compute. reflexivity.
  - intros k Hk. assert (k = 0) by lia. subst k. vm_compute. discriminate.
Defined.

(** *** Opening and closing a record of the table *)

Lemma clamp_in (n i : Z) : 0 <= i <= n -> Py.clamp n i = i.
Proof.
  intros H. unfold Py.clamp. destruct (Z.ltb_spec i 0); lia.
Qed.

Lemma clamp_neg (n i : Z) : 0 < i <= n -> Py.clamp n (- i) = n - i.
Proof.
  intros H. unfold Py.clamp. destruct (Z.ltb_spec (- i) 0); lia.
Qed.



(** X5: [insert_data(index)], for the table of records: a record of zeros is
    opened at [index], the records before it stay where they are and the
    records from it on move up by one.  The table of user data is treated
    alike, with records of [user_data_size] bytes. *)
Theorem insert_data_spec (index : Z) (f : TRSMMFiles) :
  0 < ItemSize (options f) -> 0 <= index ->
  index * ItemSize (options f) <= Py.len (data f) ->
  data (final (insert_data index f))
  = firstn (Z.to_nat (index * ItemSize (options f))) (data f)
    ++ Py.zeros (ItemSize (options f))
    ++ skipn (Z.to_nat (index * ItemSize (options f))) (data f).
Proof.
  unfold insert_data, update. cbn [final data set_user_data set_data].
  generalize (data f) (ItemSize (options f)). clear f.
  intros tbl item_size.
  intros Hs Hi Hfit. unfold insert_slot.
  set (o := index * item_size) in *.
  assert (Ho : 0 <= o) by (unfold o; nia).
  pose proof (PyFacts.len_nonneg tbl) as Hn.
  assert (Ht1 : Py.slice_assign tbl (Py.len tbl) (Py.len tbl)
                  (Py.zeros item_size) = tbl ++ Py.zeros item_size).
  { unfold Py.slice_assign. rewrite clamp_in by lia.
    rewrite Z.max_id. unfold Py.len. rewrite Nat2Z.id.
    now rewrite firstn_all, skipn_all, app_nil_r. }
  rewrite Ht1.
  assert (Hl1 : Py.len (tbl ++ Py.zeros item_size) = Py.len tbl + item_size).
  { rewrite PyFacts.len_app, PyFacts.len_zeros; lia. }
  rewrite Hl1.
  destruct (Z.ltb_spec o (Py.len tbl + item_size - item_size)) as [Hlt|Hge].
  - assert (Hf : List.length (firstn (Z.to_nat o) tbl) = Z.to_nat o).
    { rewrite length_firstn. unfold Py.len in *. lia. }
    unfold Py.slice_assign_from, Py.slice. rewrite Hl1.
    rewrite (clamp_in _ (o + item_size)) by lia.
    rewrite (clamp_in _ o) by lia.
    rewrite (clamp_neg _ item_size) by lia.
    replace (Py.len tbl + item_size - item_size - o) with (Py.len tbl - o) by lia.
    set (moved := firstn (Z.to_nat (Py.len tbl - o))
                    (skipn (Z.to_nat o) (tbl ++ Py.zeros item_size))).
    assert (Hmoved : moved = skipn (Z.to_nat o) tbl).
    { unfold moved. rewrite skipn_app.
      replace (Z.to_nat o - List.length tbl)%nat with O
        by (unfold Py.len in *; lia).
      cbn [skipn]. rewrite firstn_app.
      rewrite length_skipn.
      replace (Z.to_nat (Py.len tbl - o) - (List.length tbl - Z.to_nat o))%nat
        with O by (unfold Py.len in *; lia).
      cbn [firstn]. rewrite app_nil_r. apply firstn_all2.
      rewrite length_skipn. unfold Py.len in *. lia. }
    rewrite Hmoved.
    set (head := firstn (Z.to_nat (o + item_size)) (tbl ++ Py.zeros item_size)).
    assert (Hhead : head = firstn (Z.to_nat o) tbl
                           ++ firstn (Z.to_nat item_size)
                                (skipn (Z.to_nat o) (tbl ++ Py.zeros item_size))).
    { unfold head. rewrite Z2Nat.inj_add by lia.
      rewrite <- (firstn_skipn (Z.to_nat o) (tbl ++ Py.zeros item_size)) at 1.
      rewrite firstn_app.
      assert (Hfo : List.length (firstn (Z.to_nat o) (tbl ++ Py.zeros item_size))
                    = Z.to_nat o).
      { rewrite length_firstn, length_app. unfold Py.len in *. lia. }
      rewrite Hfo.
      rewrite firstn_all2 by lia.
      replace (Z.to_nat o + Z.to_nat item_size - Z.to_nat o)%nat
        with (Z.to_nat item_size) by lia.
      f_equal. rewrite firstn_app.
      replace (Z.to_nat o - List.length tbl)%nat with O
        by (unfold Py.len in *; lia).
      cbn [firstn]. now rewrite app_nil_r. }
    rewrite Hhead.
    set (mid := firstn (Z.to_nat item_size)
                  (skipn (Z.to_nat o) (tbl ++ Py.zeros item_size))).
    assert (Hmid : List.length mid = Z.to_nat item_size).
    { unfold mid. rewrite length_firstn, length_skipn, length_app.
      unfold Py.zeros. rewrite repeat_length. unfold Py.len in *. lia. }
    unfold Py.slice_assign.
    assert (Hlen : Py.len ((firstn (Z.to_nat o) tbl ++ mid) ++ skipn (Z.to_nat o) tbl)
                   = Py.len tbl + item_size).
    { rewrite !PyFacts.len_app. unfold Py.len.
      rewrite Hf, Hmid, length_skipn. unfold Py.len in *. lia. }
    rewrite Hlen.
    rewrite (clamp_in _ o) by lia.
    replace ((index + 1) * item_size) with (o + item_size) by (unfold o; ring).
    rewrite (clamp_in _ (o + item_size)) by lia.
    rewrite Z.max_r by lia.
    rewrite <- app_assoc.
    rewrite firstn_app, Hf, Nat.sub_diag. cbn [firstn].
    rewrite app_nil_r, firstn_firstn, Nat.min_id.
    f_equal. f_equal.
    rewrite skipn_app, Hf.
    rewrite (skipn_all2 (firstn (Z.to_nat o) tbl)) by lia.
    cbn [app].
    replace (Z.to_nat (o + item_size) - Z.to_nat o)%nat
      with (Z.to_nat item_size) by lia.
    rewrite skipn_app, Hmid, Nat.sub_diag.
    rewrite (skipn_all2 mid) by lia. reflexivity.
  - assert (Heq : Z.to_nat o = List.length tbl) by (unfold Py.len in *; lia).
    rewrite Heq, firstn_all, skipn_all, app_nil_r. reflexivity.
Qed.

(** A sound archive of three entries. *)
Definition three_sounds : TRSMMFiles :=
  sound_archive false [("a", [1]); ("b", [2]); ("c", [3])]%string.

Lemma insert_data_spec_witness :
  data (final (insert_data 1 three_sounds))
  = firstn 48 (data three_sounds) ++ Py.zeros 48
    ++ skipn 48 (data three_sounds).
Proof.
  apply (insert_data_spec 1 three_sounds);
    [reflexivity|discriminate|vm_compute; discriminate].
Defined.

(** X6: [remove_data(index)], for a table of [n] whole records: when the last
    record is removed it is cut off; otherwise the last record takes the
    place of the record removed and the records between keep theirs, so
    the records behind [index] do not move down. *)
Theorem remove_data_spec (index n : Z) (f : TRSMMFiles) :
  0 < ItemSize (options f) ->
  Py.len (data f) = n * ItemSize (options f) -> 0 <= index < n ->
  data (final (remove_data index f))
  = if index =? n - 1
    then firstn (Z.to_nat (index * ItemSize (options f))) (data f)
    else firstn (Z.to_nat (index * ItemSize (options f))) (data f)
         ++ skipn (Z.to_nat ((n - 1) * ItemSize (options f))) (data f)
         ++ firstn (Z.to_nat ((n - 2 - index) * ItemSize (options f)))
                   (skipn (Z.to_nat ((index + 1) * ItemSize (options f)))
                          (data f)).
Proof.
  unfold remove_data, update. cbn [final data set_user_data set_data].
  revert n. generalize (data f) (ItemSize (options f)). clear f.
  intros tbl item_size n.
  intros Hs Hlen Hi. unfold remove_slot.
  set (o := index * item_size) in *.
  assert (Ho : 0 <= o) by (unfold o; nia).
  assert (Hfit : o + item_size <= Py.len tbl) by (unfold o; nia).
  replace ((index + 1) * item_size) with (o + item_size) by (unfold o; ring).
  replace ((n - 1) * item_size) with (Py.len tbl - item_size) by (rewrite Hlen; ring).
  unfold Py.slice_assign, Py.slice_from, Py.slice_to.
  rewrite (clamp_in _ o) by lia.
  rewrite (clamp_in _ (o + item_size)) by lia.
  rewrite (clamp_neg (Py.len tbl) item_size) by lia.
  rewrite Z.max_r by lia.
  set (last := skipn (Z.to_nat (Py.len tbl - item_size)) tbl).
  assert (Hlast : List.length last = Z.to_nat item_size).
  { unfold last. rewrite length_skipn. unfold Py.len in *. lia. }
  assert (Hf : List.length (firstn (Z.to_nat o) tbl) = Z.to_nat o).
  { rewrite length_firstn. unfold Py.len in *. lia. }
  set (rest := skipn (Z.to_nat (o + item_size)) tbl).
  assert (Hrest : List.length rest = Z.to_nat (Py.len tbl - o - item_size)).
  { unfold rest. rewrite length_skipn. unfold Py.len in *. lia. }
  assert (Hl1 : Py.len (firstn (Z.to_nat o) tbl ++ last ++ rest) = Py.len tbl).
  { rewrite !PyFacts.len_app. unfold Py.len. rewrite Hf, Hlast, Hrest.
    unfold Py.len in *. lia. }
  rewrite Hl1, (clamp_neg _ item_size) by lia.
  rewrite firstn_app, Hf.
  rewrite (firstn_all2 (firstn (Z.to_nat o) tbl)) by lia.
  destruct (Z.eqb_spec index (n - 1)) as [Hlastrec|Hmid].
  - replace (Z.to_nat (Py.len tbl - item_size) - Z.to_nat o)%nat with O
      by (unfold o in *; nia).
    cbn [firstn]. now rewrite app_nil_r.
  - f_equal.
    assert (Hroom : o + 2 * item_size <= Py.len tbl) by (unfold o; nia).
    rewrite firstn_app, Hlast.
    rewrite (firstn_all2 last) by lia. f_equal.
    f_equal. unfold o. rewrite Hlen. nia.
Qed.

Lemma remove_data_spec_witness :
  data (final (remove_data 0 three_sounds))
  = skipn 96 (data three_sounds)
    ++ firstn 48 (skipn 48 (data three_sounds)).
Proof.
  apply (remove_data_spec 0 3 three_sounds);
    [reflexivity|vm_compute; reflexivity|lia].
Defined.

End DirectoryFacts.

(** ** Adding an entry and reading it back *)

Module ExtractFacts.
Import Lod LodFacts.
#[local] Open Scope lod_scope.

(** *** Names that do not fit *)

(** X7: A name that does not leave room for a zero byte in the name field is
    refused by [add] and by [rename] before anything is done: the exception
    is [ERSLodWrongFileName] and the archive is as it was. *)
Theorem long_name_rejected (E : env) (name : string) (dat : stream)
  (size c u index : Z) (f : TRSMMFiles) :
  NameSize (options f) <= Z.of_nat (String.length name) ->
  add E name dat size c u f = Exc ERSLodWrongFileName f
  /\ rename E index name f = Exc ERSLodWrongFileName f.
Proof.
  intros Hlen.
  assert (Hcheck : check_name name f = Exc ERSLodWrongFileName f).
  { unfold check_name. rewrite bind_self.
    destruct (Z.geb_spec (Z.of_nat (String.length name)) (NameSize (options f)));
      [reflexivity|lia]. }
  split.
  - unfold add. unfold bind at 1. now rewrite Hcheck.
  - unfold rename. unfold bind at 1. now rewrite Hcheck.
Qed.

Lemma long_name_rejected_witness :
  add snd_env "a-name-of-forty-characters-is-too-long.."
      (mkStream [1] 0) (-1) 6 (-1) (sound_archive false [])
  = Exc ERSLodWrongFileName (sound_archive false []).
Proof.
  apply (long_name_rejected snd_env
           "a-name-of-forty-characters-is-too-long.." (mkStream [1] 0)
           (-1) 6 (-1) 0 (sound_archive false [])).
  vm_compute. discriminate.
Defined.

(** *** Extraction *)

(** Everything of the archive but the open streams and the budget of the
    operating system. *)
Definition same_archive (f f' : TRSMMFiles) : Prop :=
  options f' = options f /\ in_file f' = in_file f
  /\ out_file f' = out_file f /\ data f' = data f /\ count f' = count f
  /\ file_size f' = file_size f /\ file_buffers f' = file_buffers f
  /\ sorted f' = sorted f /\ user_data f' = user_data f
  /\ disk f' = disk f.

Lemma same_archive_refl f : same_archive f f.
Proof. unfold same_archive. repeat split. Qed.

Lemma same_archive_trans f g h :
  same_archive f g -> same_archive g h -> same_archive f h.
Proof.
  unfold same_archive.
  intros (a1 & a2 & a3 & a4 & a5 & a6 & a7 & a8 & a9 & a10)
         (b1 & b2 & b3 & b4 & b5 & b6 & b7 & b8 & b9 & b10).
  repeat split; congruence.
Qed.

(** X8: [raw_extract] only reads: whether it returns the bytes of the entry or
    raises, the table, the count, the sizes, the buffers and every file on
    the disk are as before. *)
Theorem raw_extract_reads_only (E : env) (i : Z) (f : TRSMMFiles) :
  (forall h i s, on_get_file_size E = Some h -> keeps same_archive (h i s)) ->
  same_archive f (final (raw_extract E i f)).
Proof.
  intros Hh. apply keeps_raw_extract;
    solve [ apply same_archive_refl | apply same_archive_trans | exact Hh
          | intros; unfold same_archive; repeat split ].
Qed.

Lemma raw_extract_reads_only_witness :
  same_archive (sound_archive false [("a"%string, [1; 2; 3; 4])])
    (final (raw_extract snd_env 0
              (sound_archive false [("a"%string, [1; 2; 3; 4])]))).
Proof.
  apply (raw_extract_reads_only snd_env 0).
  intros h i s H. discriminate H.
Defined.

Lemma get_is_packed_field (f : TRSMMFiles) (i v : Z) :
  0 <= PackedSizeOffset (options f) ->
  field_i32 f (i * ItemSize (options f) + PackedSizeOffset (options f)) = Ok v ->
  get_is_packed i f = Ret (negb (v =? 0)) f.
Proof.
  intros Hp Hv. unfold get_is_packed, lift.
  destruct (Z.geb_spec (PackedSizeOffset (options f)) 0); [|lia].
  now rewrite Hv.
Qed.


(** [raw_extract] on an entry that is buffered. *)
Lemma raw_extract_buffered (E : env) (f : TRSMMFiles) (i : Z) (b : list Z)
  (packed : bool) :
  0 <= i -> buffer_at f i = Some b ->
  get_is_packed i f = Ret packed f ->
  (packed = false -> raw_extract E i f = Ret b f)
  /\ (packed = true -> ignore_unzip_errors f = false ->
      forall d, zlib_decompress E b = Ok d -> raw_extract E i f = Ret d f).
Proof.
  intros Hi Hb Hp.
  destruct (buffer_slot_buffered f i b Hi Hb) as (Hslot & Hlt & Hx).
  assert (Hstream : get_as_is_file_stream E i true f = Ret (HBuf i 0) f).
  { unfold get_as_is_file_stream. now rewrite (bind_ret _ _ _ _ _ Hslot). }
  assert (Hsize : get_size E i f = Ret (Py.len b) f).
  { unfold get_size. now rewrite (bind_ret _ _ _ _ _ Hslot). }
  assert (Hread : h_read (HBuf i 0) (Py.len b) f
                  = Ret (b, HBuf i (0 + Py.len b)) f).
  { unfold h_read. rewrite bind_self, Hb. unfold ret.
    now rewrite read_at_all. }
  assert (Hfree : free_as_is_file_stream i (HBuf i 0) f = Ret tt f).
  { unfold free_as_is_file_stream. rewrite bind_self.
    destruct (Z.geb_spec i (Py.len (file_buffers f))); [lia|].
    rewrite bind_lift, Hx. now rewrite Z.eqb_refl. }
  split.
  - intros ->. unfold raw_extract.
    rewrite (bind_ret _ _ _ _ _ Hstream).
    apply try_finally_ret with (f1 := f) (u := tt); [|exact Hfree].
    rewrite (bind_ret _ _ _ _ _ Hp). rewrite bind_self.
    rewrite (bind_ret _ _ _ _ _ Hsize).
    now rewrite (bind_ret _ _ _ _ _ Hread).
  - intros -> Hign d Hd. unfold raw_extract.
    rewrite (bind_ret _ _ _ _ _ Hstream).
    apply try_finally_ret with (f1 := f) (u := tt); [|exact Hfree].
    rewrite (bind_ret _ _ _ _ _ Hp). rewrite bind_self, Hign. cbn [negb].
    rewrite (bind_ret _ _ _ _ _ Hsize).
    rewrite (bind_ret _ _ _ _ _ Hread). now rewrite Hd.
Qed.


Lemma add_result_nonneg (E : env) (name : string) (dat : stream)
  (size c u r : Z) (f f' : TRSMMFiles) :
  0 <= count f -> add E name dat size c u f = Ret r f' -> 0 <= r.
Proof.
  intros Hc Hadd. unfold add in Hadd.
  apply bind_ret_inv in Hadd as (u0 & f0 & Hcheck & Hadd).
  apply check_name_ret in Hcheck. subst f0.
  rewrite bind_self in Hadd. cbv zeta in Hadd.
  apply bind_ret_inv in Hadd as ([[[dat' size'] unp] pk] & f1 & Hpack & Hadd).
  unfold lift in Hpack.
  destruct (add_pack _ _ _ _ _ _); inversion Hpack; subst.
  pose proof (find_add_index_nonneg f1 name Hc) as Hnn.
  destruct (find_add_index f1 name) as [found result]. cbn [snd] in Hnn.
  apply bind_ret_inv in Hadd as (u1 & f2 & _ & Hadd).
  apply bind_ret_inv in Hadd as (u2 & f3 & _ & Hadd).
  apply bind_ret_inv in Hadd as (u3 & f4 & _ & Hret).
  inversion Hret; subst. exact Hnn.
Qed.



(** What [add] hands to the store step when it compresses. *)
Lemma add_pack_compressed (E : env) (o : TRSMMFilesOptions) (dat : stream)
  (n c : Z) (z : list Z) :
  c <> 0 -> 64 < n ->
  0 <= PackedSizeOffset o \/ 0 <= UnpackedSizeOffset o ->
  zlib_compress E (read_at (s_bytes dat) (s_pos dat) n) c = Ok z ->
  Py.len z < n ->
  add_pack E o dat n c (-1) = Ok (mkStream z 0, Py.len z, n, Py.len z).
Proof.
  intros Hc Hn Hfield Hz Hlt. unfold add_pack.
  change (-1 >=? 0) with false. cbv iota.
  destruct (Z.eqb_spec c 0) as [|_]; [contradiction|].
  destruct (Z.gtb_spec n 64) as [_|]; [|lia].
  assert (Hf : (PackedSizeOffset o >=? 0) || (UnpackedSizeOffset o >=? 0) = true).
  { apply orb_true_iff. rewrite !Z.geb_leb, !Z.leb_le. exact Hfield. }
  rewrite Hf. cbn [negb andb]. rewrite Hz.
  destruct (Z.ltb_spec (Py.len z) n); [reflexivity|lia].
Qed.

(** X10: In an archive with a packed-size field that writes on demand, a large
    entry that [add] compressed is extracted as it was given, when
    [zlib.decompress] undoes [zlib.compress] and errors of [zlib] are not
    ignored. *)
Theorem add_then_extract_compressed (E : env) (name : string) (dat : stream)
  (size c r : Z) (f f' : TRSMMFiles) (z : list Z) :
  let n := payload_size dat size in
  let raw := read_at (s_bytes dat) (s_pos dat) n in
  handlers_keep E untouched ->
  write_on_demand f = true -> 0 <= count f -> 0 <= ItemSize (options f) ->
  0 <= PackedSizeOffset (options f) ->
  c <> 0 -> 64 < n ->
  zlib_compress E raw c = Ok z -> z <> [] -> Py.len z < n ->
  zlib_decompress E z = Ok raw ->
  add E name dat size c (-1) f = Ret r f' ->
  ignore_unzip_errors f' = false ->
  raw_extract E r f' = Ret raw f'.
Proof.
  intros n raw Hh Hwod Hc Hi Hpk Hcne Hn Hz Hzne Hlt Hd Hadd Hign.
  pose proof (add_pack_compressed E (options f) dat n c z Hcne Hn
                (or_introl Hpk) Hz Hlt) as Hpack.
  pose proof (add_buffers_payload E name dat _ size c (-1) _ _ _ r f f'
                Hh Hwod Hc Hpack Hadd) as Hbuf.
  cbn [s_bytes s_pos] in Hbuf. rewrite read_at_all in Hbuf.
  pose proof (add_result_nonneg E name dat size c (-1) r f f' Hc Hadd) as Hr.
  destruct (add_records_packed_size E name dat _ size c (-1) _ _ _ r
              f f' Hh Hc Hi Hpk Hpack Hadd) as [Ho Hfield].
  rewrite <- Ho in Hfield, Hpk.
  pose proof (get_is_packed_field f' r _ Hpk Hfield) as Hp.
  assert (Hnz : negb (Py.len z =? 0) = true).
  { destruct z; [contradiction|]. reflexivity. }
  rewrite Hnz in Hp.
  exact (proj2 (raw_extract_buffered E f' r z true Hr Hbuf Hp) eq_refl Hign
           raw Hd).
Qed.


(** A stand-in for [zlib.decompress] that undoes [run_codec] on the runs
    it shortens. *)
Definition run_decode (z : list Z) : result (list Z) :=
  match z with
  | [n; b] => Ok (repeat b (Z.to_nat n))
  | _ => Ok (tl z)
  end.

Definition codec_env : env :=
  mkEnv run_codec run_decode (fun d => d) None None None None None None.

Lemma codec_env_handlers : handlers_keep codec_env untouched.
Proof. repeat split; intros; discriminate. Qed.

Lemma add_then_extract_compressed_witness :
  exists f', add codec_env "x" (mkStream (Py.zeros 100) 0) (-1) 6 (-1) fresh_lod
             = Ret 0 f'
             /\ raw_extract codec_env 0 f' = Ret (Py.zeros 100) f'.
Proof.
  exists (final (add codec_env "x" (mkStream (Py.zeros 100) 0) (-1) 6 (-1)
                     fresh_lod)).
  assert (Hrun : add codec_env "x" (mkStream (Py.zeros 100) 0) (-1) 6 (-1)
                     fresh_lod
                 = Ret 0 (final (add codec_env "x" (mkStream (Py.zeros 100) 0)
                                     (-1) 6 (-1) fresh_lod)))
    by (vm_compute; reflexivity).
  split; [exact Hrun|].
  apply (add_then_extract_compressed codec_env "x" (mkStream (Py.zeros 100) 0)
           (-1) 6 0 fresh_lod _ [100; 0] codec_env_handlers);
    try exact Hrun; try reflexivity; try discriminate.
Defined.


End ExtractFacts.

(** ** Bitmap headers, bitmaps and PCX images *)

Module GraphicsFacts.
Import Graphics.

Lemma get_ln2_loop_pow2 (k : nat) :
  forall (fuel : nat) (res : Z),
  (k < fuel)%nat ->
  get_ln2_loop fuel (2 ^ Z.of_nat k) res = (1, res + Z.of_nat k).
Proof.
  induction k as [|k IH]; intros fuel res Hf.
  - destruct fuel as [|fuel]; [lia|]. cbn. f_equal. lia.
  - destruct fuel as [|fuel]; [lia|].
    cbn [get_ln2_loop].
    rewrite Nat2Z.inj_succ, Z.pow_succ_r by lia.
    assert (Hpos : 0 < 2 ^ Z.of_nat k) by (apply Z.pow_pos_nonneg; lia).
    destruct (Z.eqb_spec (2 * 2 ^ Z.of_nat k) 0) as [|_]; [lia|].
    change 1 with (Z.ones 1) at 1. rewrite Z.land_ones by lia.
    change (2 ^ 1) with 2.
    rewrite Z.mul_comm, Z.mod_mul by lia. cbn [negb andb Z.eqb].
    rewrite Z.shiftr_div_pow2 by lia. change (2 ^ 1) with 2.
    rewrite Z.div_mul by lia.
    rewrite IH by lia. f_equal. lia.
Qed.

Lemma pow2_gt (k : nat) : Z.of_nat k < 2 ^ Z.of_nat k.
Proof. apply Z.pow_gt_lin_r; lia. Qed.

Lemma get_ln2_loop_inv (fuel : nat) :
  forall v res v' res',
  get_ln2_loop fuel v res = (v', res') ->
  res <= res' /\ v = v' * 2 ^ (res' - res).
Proof.
  induction fuel as [|fuel IH]; intros v res v' res' H.
  - cbn in H. inversion H; subst. rewrite Z.sub_diag. cbn. lia.
  - cbn [get_ln2_loop] in H.
    destruct (negb (v =? 0) && (Z.land v 1 =? 0)) eqn:Hc.
    + apply andb_true_iff in Hc as [_ Hev]. apply Z.eqb_eq in Hev.
      change 1 with (Z.ones 1) in Hev. rewrite Z.land_ones in Hev by lia.
      change (2 ^ 1) with 2 in Hev.
      apply IH in H as [Hle Hv].
      rewrite Z.shiftr_div_pow2 in Hv by lia. change (2 ^ 1) with 2 in Hv.
      split; [lia|].
      replace (res' - res) with (Z.succ (res' - (res + 1))) by lia.
      rewrite Z.pow_succ_r by lia.
      rewrite (Z.div_mod v 2) by lia. rewrite Hev, Hv. ring.
    + inversion H; subst. rewrite Z.sub_diag. cbn. lia.
Qed.

(** X12: [get_ln2] is the binary logarithm of a power of two and 0 for
    every other number: [get_ln2 (2 ^ k) = k], and a result that is not 0
    is the exponent of the argument. *)
Theorem get_ln2_spec (v : Z) (k : nat) :
  get_ln2 (2 ^ Z.of_nat k) = Z.of_nat k
  /\ (get_ln2 v = 0 \/ (0 < get_ln2 v /\ v = 2 ^ get_ln2 v)).
Proof.
  split.
  - unfold get_ln2. rewrite get_ln2_loop_pow2.
    + cbn. reflexivity.
    + pose proof (pow2_gt k).
      assert (0 < 2 ^ Z.of_nat k) by (apply Z.pow_pos_nonneg; lia).
      lia.
  - unfold get_ln2.
    destruct (get_ln2_loop (Z.to_nat (Z.abs v)) v 0) as [v' res] eqn:Hl.
    apply get_ln2_loop_inv in Hl as [Hle Hv].
    destruct (Z.eqb_spec v' 1) as [->|]; [|now left].
    destruct (Z.eq_dec res 0) as [|Hne]; [now left|].
    right. split; [lia|]. rewrite Hv, Z.sub_0_r. lia.
Qed.

Lemma pack_u32_inv (v : Z) (bs : list Z) :
  Py.pack_u32 v = Some bs -> bs = Py.le_bytes 4 v /\ 0 <= v < 4294967296.
Proof.
  unfold Py.pack_u32.
  destruct (Z.leb_spec 0 v); destruct (Z.ltb_spec v 4294967296);
    cbn [andb]; try discriminate.
  intros Hp. split; [congruence|lia].
Qed.

Lemma pack_i16_inv (v : Z) (bs : list Z) :
  pack_i16 v = Some bs ->
  bs = Py.le_bytes 2 (v mod 65536) /\ -32768 <= v < 32768.
Proof.
  unfold pack_i16.
  destruct (Z.leb_spec (-32768) v); destruct (Z.ltb_spec v 32768);
    cbn [andb]; try discriminate.
  intros Hp. split; [congruence|lia].
Qed.

Lemma u32_value (v : Z) :
  0 <= v < 4294967296 -> Py.le_value (Py.le_bytes 4 v) = v.
Proof.
  intros H. rewrite LodFacts.le_value_le_bytes.
  change (256 ^ Z.of_nat 4) with 4294967296. now apply Z.mod_small.
Qed.

Lemma i16_value (v : Z) :
  -32768 <= v < 32768 ->
  (let w := Py.le_value (Py.le_bytes 2 (v mod 65536)) in
   if w <? 32768 then w else w - 65536) = v.
Proof.
  intros H. cbv zeta. rewrite LodFacts.le_value_le_bytes.
  change (256 ^ Z.of_nat 2) with 65536. rewrite Z.mod_mod by lia.
  destruct (Z.lt_ge_cases v 0) as [Hn|Hp].
  - rewrite <- (Z.mod_add v 1) by lia. rewrite Z.mod_small by lia.
    destruct (Z.ltb_spec (v + 1 * 65536) 32768); lia.
  - rewrite Z.mod_small by lia.
    destruct (Z.ltb_spec v 32768); lia.
Qed.

Lemma concat_packed_inv (p : option (list Z)) (ps : list (option (list Z)))
  (out : list Z) :
  concat_packed (p :: ps) = Ok out ->
  exists b rest, p = Some b /\ concat_packed ps = Ok rest /\ out = b ++ rest.
Proof.
  cbn [concat_packed]. destruct p as [b|]; [|discriminate].
  destruct (concat_packed ps) as [rest|e]; cbn [rbind]; [|discriminate].
  intros H. exists b, rest. repeat split. congruence.
Qed.

Lemma le_bytes4 (v : Z) : exists a b c d, Py.le_bytes 4 v = [a; b; c; d].
Proof. cbn. eauto. Qed.

Lemma le_bytes2 (v : Z) : exists a b, Py.le_bytes 2 v = [a; b].
Proof. cbn. eauto. Qed.

(** Naming the bytes of every encoded field turns the packed string into a
    list of variables, on which slices compute. *)
Ltac name_bytes :=
  repeat match goal with
         | |- context [Py.le_bytes 4 ?v] =>
             let E := fresh "E" in
             destruct (le_bytes4 v) as (? & ? & ? & ? & E); rewrite E
         | |- context [Py.le_bytes 2 ?v] =>
             let E := fresh "E" in
             destruct (le_bytes2 v) as (? & ? & E); rewrite E
         end.

Ltac compute_slices :=
  repeat match goal with
         | |- context [Py.slice ?L ?a ?b] =>
             let r := eval cbv in (Py.slice L a b) in
             change (Py.slice L a b) with r
         | |- context [Py.slice_to ?L ?a] =>
             let r := eval cbv in (Py.slice_to L a) in
             change (Py.slice_to L a) with r
         end.

Ltac restore_bytes :=
  repeat match goal with
         | E : Py.le_bytes _ _ = _ |- _ => rewrite <- E; clear E
         end.

(** X13: [TMMLodFile.unpack] undoes [TMMLodFile.pack]: a header that can be
    packed takes 32 bytes and is read back field by field. *)
Theorem pack_header_roundtrip (h : TMMLodFile) (bs : list Z) :
  pack_header h = Ok bs ->
  List.length bs = 32%nat /\ unpack_header bs = Ok h.
Proof.
  unfold pack_header. intros H.
  repeat (apply concat_packed_inv in H as (? & ? & ? & H & ?)).
  cbn [concat_packed] in H. inversion H; subst; clear H.
  repeat match goal with
         | H : Py.pack_u32 _ = Some _ |- _ =>
             apply pack_u32_inv in H as [? ?]
         | H : pack_i16 _ = Some _ |- _ =>
             apply pack_i16_inv in H as [? ?]
         end.
  subst. split.
  - rewrite !length_app, !LodFacts.length_le_bytes. reflexivity.
  - unfold unpack_header. name_bytes. cbn [app]. cbv zeta beta.
    compute_slices. cbn [List.length Nat.eqb].
    restore_bytes.
    rewrite !u32_value by assumption.
    pose proof i16_value as Hi. cbv zeta in Hi.
    rewrite !Hi by assumption.
    destruct h; reflexivity.
Qed.

(** The header of a bitmap of 64 by 32 with palette 7. *)
Definition sample_header : TMMLodFile :=
  mkLodFile 2848 2048 64 32 6 5 63 31 7 0 0 2.

Lemma pack_header_roundtrip_witness :
  exists bs, pack_header sample_header = Ok bs
             /\ List.length bs = 32%nat
             /\ unpack_header bs = Ok sample_header.
Proof.
  destruct (pack_header sample_header) as [bs|e] eqn:E;
    [|vm_compute in E; discriminate E].
  exists bs. split; [reflexivity|].
  exact (pack_header_roundtrip sample_header bs E).
Defined.

Lemma read_at_app_head (a r : list Z) (n : Z) :
  n = Py.len a -> Lod.read_at (a ++ r) 0 n = a.
Proof.
  intros ->. unfold Lod.read_at. pose proof (PyFacts.len_nonneg a).
  destruct (Z.ltb_spec (Py.len a) 0); [lia|].
  cbn [Z.to_nat skipn]. unfold Py.len. rewrite Nat2Z.id.
  rewrite firstn_app, Nat.sub_diag, firstn_all. cbn [firstn].
  apply app_nil_r.
Qed.

Lemma read_at_app_skip (a r : list Z) (pos p n : Z) :
  0 <= p -> pos = Py.len a + p ->
  Lod.read_at (a ++ r) pos n = Lod.read_at r p n.
Proof.
  intros Hp ->. unfold Lod.read_at. pose proof (PyFacts.len_nonneg a).
  replace (Z.to_nat (Py.len a + p)) with (Z.to_nat p + List.length a)%nat
    by (unfold Py.len; lia).
  rewrite <- skipn_skipn.
  rewrite skipn_app, skipn_all, Nat.sub_diag. reflexivity.
Qed.

Lemma read_at_whole (a : list Z) (n : Z) :
  n = Py.len a -> Lod.read_at a 0 n = a.
Proof.
  intros H. rewrite <- (app_nil_r a) at 1. now apply read_at_app_head.
Qed.

Lemma slice_to_app (a r : list Z) (n : Z) :
  n = Py.len a -> Py.slice_to (a ++ r) n = a.
Proof.
  intros ->. unfold Py.slice_to, Py.clamp. pose proof (PyFacts.len_nonneg a).
  pose proof (PyFacts.len_nonneg (a ++ r)).
  destruct (Z.ltb_spec (Py.len a) 0); [lia|].
  assert (Hl : Py.len (a ++ r) = Py.len a + Py.len r)
    by (unfold Py.len; rewrite length_app; lia).
  pose proof (PyFacts.len_nonneg r).
  rewrite Z.min_r by lia. unfold Py.len. rewrite Nat2Z.id.
  rewrite firstn_app, Nat.sub_diag, firstn_all. cbn [firstn].
  apply app_nil_r.
Qed.

Section Roundtrip.

Variable zlib_compress : list Z -> Z -> result (list Z).
Variable zlib_decompress : list Z -> result (list Z).
Variable image_frombytes : Z -> Z -> Z -> list Z -> result (list Z).

(** X14: [unpack_bitmap] undoes [pack_bitmap].  For an image of mode ['P']
    of [w] by [h] pixels with a palette of 768 bytes, when
    [zlib.decompress] gives back what [zlib.compress] was given and Pillow
    takes the [w * h] bytes of the image, reading the packed bytes yields
    the size, the pixels and the palette that were packed, whether the
    data was stored compressed or raw and whether mipmaps follow the
    pixels or not. *)
Theorem bitmap_roundtrip (w h : Z) (pixel_data zooms palette_bytes : list Z)
  (palette_index bits : Z) (keep_mipmaps : bool) (bs : list Z) :
  let all_data :=
    pixel_data ++ (if keep_mipmaps && negb (Z.land bits 2 =? 0)
                   then zooms else []) in
  (forall z, zlib_compress all_data 6 = Ok z ->
             zlib_decompress z = Ok all_data) ->
  image_frombytes w h 1 pixel_data = Ok pixel_data ->
  0 <= w -> 0 <= h ->
  Py.len pixel_data = w * h ->
  Py.len palette_bytes = 768 ->
  pack_bitmap zlib_compress w h pixel_data zooms palette_bytes
              palette_index bits keep_mipmaps = Ok bs ->
  unpack_bitmap zlib_decompress image_frombytes bs
  = Read (mkPicture w h pixel_data true (Some palette_bytes), palette_bytes).
Proof.
  intros all_data Hz Himg Hw Hh Hlen Hpal.
  unfold pack_bitmap, pack_bitmap_parts. fold all_data.
  destruct (zlib_compress all_data 6) as [z|e] eqn:Hc;
    cbn [rbind]; [|discriminate].
  specialize (Hz z eq_refl).
  set (kept := if Py.len z <? Py.len all_data
               then (z, Py.len all_data) else (all_data, 0)).
  assert (Hkept : (if snd kept >? 0 then zlib_decompress (fst kept)
                   else Ok (fst kept)) = Ok all_data).
  { subst kept. pose proof (PyFacts.len_nonneg z).
    destruct (Z.ltb_spec (Py.len z) (Py.len all_data)); cbn [fst snd].
    - destruct (Z.gtb_spec (Py.len all_data) 0); [assumption|lia].
    - reflexivity. }
  destruct kept as [dtw unp]. cbn [fst snd] in Hkept.
  cbn beta iota. cbn [rbind].
  match goal with
  | |- context [pack_header ?x] =>
      set (hdr := x); destruct (pack_header hdr) as [hb|e] eqn:Hh32
  end; cbn [rbind]; [|discriminate].
  intros Hbs. assert (bs = hb ++ dtw ++ palette_bytes) by congruence.
  subst bs. clear Hbs.
  apply pack_header_roundtrip in Hh32 as [Hl32 Hun].
  assert (Hlz : Py.len hb = 32) by (unfold Py.len; rewrite Hl32; reflexivity).
  unfold unpack_bitmap.
  rewrite (read_at_app_head hb) by (now rewrite Hlz).
  rewrite Hlz. cbn [Z.ltb Z.compare Pos.compare Pos.compare_cont].
  rewrite Hun. cbn [reading rbind data_size unp_size bmp_width bmp_height].
  rewrite (read_at_app_skip hb _ 32 0) by lia.
  rewrite (read_at_app_head dtw) by reflexivity.
  subst hdr. cbn [data_size unp_size bmp_width bmp_height].
  rewrite Hkept. cbn [rbind].
  rewrite (read_at_app_skip hb _ _ (Py.len dtw))
    by (pose proof (PyFacts.len_nonneg dtw); lia).
  rewrite (read_at_app_skip dtw _ _ 0) by lia.
  rewrite (read_at_whole palette_bytes) by (now rewrite Hpal).
  unfold image_new_check.
  destruct (Z.ltb_spec w 0); [lia|]. destruct (Z.ltb_spec h 0); [lia|].
  cbn [orb rbind].
  subst all_data. rewrite (slice_to_app pixel_data) by (now rewrite Hlen).
  rewrite Himg. cbn [rbind reading]. rewrite Hpal. reflexivity.
Qed.

Lemma pack_pcx_header_roundtrip (hd : TPCXFileHeader) (bs : list Z) :
  pack_pcx_header hd = Ok bs ->
  List.length bs = 12%nat /\ unpack_pcx_header bs = Ok hd.
Proof.
  unfold pack_pcx_header. intros H.
  repeat (apply concat_packed_inv in H as (? & ? & ? & H & ?)).
  cbn [concat_packed] in H. inversion H; subst; clear H.
  repeat match goal with
         | H : Py.pack_u32 _ = Some _ |- _ =>
             apply pack_u32_inv in H as [? ?]
         end.
  subst. split.
  - rewrite !length_app, !LodFacts.length_le_bytes. reflexivity.
  - unfold unpack_pcx_header. name_bytes. cbn [app]. cbv zeta beta.
    compute_slices. cbn [List.length Nat.eqb].
    restore_bytes.
    rewrite !u32_value by assumption.
    destruct hd; reflexivity.
Qed.

(** What [unpack_pcx] does with the output of [pack_pcx]. *)
Lemma unpack_packed_pcx (w h : Z) (pixel_data tail bs : list Z) :
  pack_pcx_header (mkPcxHeader (Py.len pixel_data) w h) = Ok bs ->
  unpack_pcx image_frombytes (bs ++ pixel_data ++ tail)
  = if w * h =? 0 then Failed ZeroDivisionError
    else if Py.len pixel_data / (w * h) =? 1 then
      reading
        (_ <- image_new_check w h ;;
         bytes <- image_frombytes w h 1 pixel_data ;;
         Ok (mkPicture w h bytes true
                       (if Py.len (Lod.read_at tail 0 768) =? 768
                        then Some (Lod.read_at tail 0 768) else None),
             Some (Lod.read_at tail 0 768)))%res
    else
      reading
        (bytes <- image_frombytes w h 3 pixel_data ;;
         Ok (mkPicture w h bytes false None, None))%res.
Proof.
  intros Hp. apply pack_pcx_header_roundtrip in Hp as [Hl Hun].
  assert (Hlz : Py.len bs = 12) by (unfold Py.len; rewrite Hl; reflexivity).
  unfold unpack_pcx.
  rewrite (read_at_app_head bs) by (now rewrite Hlz).
  rewrite Hlz. cbn [Z.ltb Z.compare Pos.compare Pos.compare_cont].
  rewrite Hun. cbn [image_size width height].
  rewrite (read_at_app_skip bs _ 12 0) by lia.
  rewrite (read_at_app_head pixel_data) by reflexivity.
  rewrite (read_at_app_skip bs _ _ (Py.len pixel_data))
    by (pose proof (PyFacts.len_nonneg pixel_data); lia).
  rewrite (read_at_app_skip pixel_data _ _ 0) by lia.
  reflexivity.
Qed.

(** X15: [unpack_pcx] undoes [pack_pcx] on an image that is not empty: an
    image of mode ['P'] comes back with its pixels and its palette of 768
    bytes, an RGB image with its pixels and no palette. *)
Theorem pcx_roundtrip (w h : Z) (pixel_data : list Z)
  (pal : option (list Z)) (bs : list Z) :
  0 < w -> 0 < h ->
  match pal with
  | Some p => Py.len pixel_data = w * h /\ Py.len p = 768
              /\ image_frombytes w h 1 pixel_data = Ok pixel_data
  | None => Py.len pixel_data = 3 * (w * h)
            /\ image_frombytes w h 3 pixel_data = Ok pixel_data
  end ->
  pack_pcx w h pixel_data pal = Ok bs ->
  unpack_pcx image_frombytes bs
  = Read (mkPicture w h pixel_data
                    (match pal with Some _ => true | None => false end) pal,
          pal).
Proof.
  intros Hw Hh Hmode. unfold pack_pcx.
  destruct (pack_pcx_header _) as [hb|e] eqn:Hp; cbn [rbind]; [|discriminate].
  intros Hbs. assert (bs = hb ++ pixel_data ++ match pal with
                                               | Some p => p
                                               | None => []
                                               end) by congruence.
  subst bs. clear Hbs.
  rewrite (unpack_packed_pcx w h pixel_data _ hb Hp).
  assert (Hwh : 0 < w * h) by nia.
  destruct (Z.eqb_spec (w * h) 0); [lia|].
  destruct pal as [p|].
  - destruct Hmode as (Hlen & Hpal & Himg).
    rewrite Hlen, Z.div_same by lia. cbn [Z.eqb Pos.eqb].
    unfold image_new_check.
    destruct (Z.ltb_spec w 0); [lia|]. destruct (Z.ltb_spec h 0); [lia|].
    cbn [orb rbind]. rewrite Himg. cbn [rbind reading].
    rewrite (read_at_whole p) by (now rewrite Hpal).
    rewrite Hpal. reflexivity.
  - destruct Hmode as (Hlen & Himg).
    rewrite Hlen, Z.div_mul by lia. cbn [Z.eqb Pos.eqb].
    rewrite Himg. reflexivity.
Qed.

(** X16: An image without pixels that [pack_pcx] has packed cannot be read
    back: [unpack_pcx] divides the image size by [width * height] and
    raises [ZeroDivisionError]. *)
Theorem pcx_empty_image_unreadable (w h : Z) (pixel_data : list Z)
  (pal : option (list Z)) (bs : list Z) :
  w * h = 0 ->
  pack_pcx w h pixel_data pal = Ok bs ->
  unpack_pcx image_frombytes bs = Failed ZeroDivisionError.
Proof.
  intros Hwh. unfold pack_pcx.
  destruct (pack_pcx_header _) as [hb|e] eqn:Hp; cbn [rbind]; [|discriminate].
  intros Hbs. assert (bs = hb ++ pixel_data ++ match pal with
                                               | Some p => p
                                               | None => []
                                               end) by congruence.
  subst bs. clear Hbs.
  rewrite (unpack_packed_pcx w h pixel_data _ hb Hp).
  rewrite Hwh. reflexivity.
Qed.

End Roundtrip.

Definition exact_frombytes (w h bpp : Z) (d : list Z) : result (list Z) :=
  if Py.len d =? w * h * bpp then Ok d else Raise ValueError.

Definition packed_or_empty (r : result (list Z)) : list Z :=
  match r with
  | Ok bs => bs
  | Raise _ => []
  end.

Lemma bitmap_roundtrip_witness :
  exists bs,
    pack_bitmap LodFacts.run_codec 2 2 [7; 7; 7; 7] [] LodFacts.grey_palette
                0 0 false = Ok bs
    /\ unpack_bitmap ExtractFacts.run_decode exact_frombytes bs
       = Read (mkPicture 2 2 [7; 7; 7; 7] true (Some LodFacts.grey_palette),
               LodFacts.grey_palette).
Proof.
  exists (packed_or_empty
            (pack_bitmap LodFacts.run_codec 2 2 [7; 7; 7; 7] []
                         LodFacts.grey_palette 0 0 false)).
  split; [vm_compute; reflexivity|].
  apply (bitmap_roundtrip LodFacts.run_codec ExtractFacts.run_decode exact_frombytes
                          2 2 [7; 7; 7; 7] [] LodFacts.grey_palette 0 0 false);
    try (vm_compute; reflexivity); try lia.
  intros z Hz. vm_compute in Hz. inversion Hz. reflexivity.
Defined.

Lemma pcx_roundtrip_witness :
  exists bs,
    pack_pcx 2 1 [1; 2; 3; 4; 5; 6] None = Ok bs
    /\ unpack_pcx exact_frombytes bs
       = Read (mkPicture 2 1 [1; 2; 3; 4; 5; 6] false None, None).
Proof.
  exists (packed_or_empty (pack_pcx 2 1 [1; 2; 3; 4; 5; 6] None)).
  split; [vm_compute; reflexivity|].
  apply (pcx_roundtrip exact_frombytes 2 1 [1; 2; 3; 4; 5; 6] None);
    try lia; try (vm_compute; reflexivity).
  split; reflexivity.
Defined.

Lemma pcx_empty_image_unreadable_witness :
  exists bs,
    pack_pcx 0 5 [] (Some LodFacts.grey_palette) = Ok bs
    /\ unpack_pcx exact_frombytes bs = Failed ZeroDivisionError.
Proof.
  exists (packed_or_empty (pack_pcx 0 5 [] (Some LodFacts.grey_palette))).
  split; [vm_compute; reflexivity|].
  apply (pcx_empty_image_unreadable exact_frombytes 0 5 []
                                    (Some LodFacts.grey_palette));
    [reflexivity|vm_compute; reflexivity].
Defined.

End GraphicsFacts.

(** ** The DEF decoders stay in bounds *)

Module DefSafety.
Import Def DefFacts.
#[local] Open Scope res_scope.

(** The data of a DEF is a [bytes] object: every element is a byte. *)
Definition is_byte (b : Z) : bool := (0 <=? b) && (b <? 256).

Definition all_bytes (l : list Z) : bool := forallb is_byte l.




Lemma all_bytes_nth (l : list Z) (i : nat) :
  all_bytes l = true -> 0 <= nth i l 0 < 256.
Proof.
  unfold all_bytes. rewrite forallb_forall. intros H.
  destruct (Nat.lt_ge_cases i (List.length l)) as [Hlt|Hge].
  - specialize (H _ (nth_In l 0 Hlt)). unfold is_byte in H.
    apply andb_true_iff in H as [H1 H2]. lia.
  - rewrite nth_overflow by lia. lia.
Qed.


























End DefSafety.

(** ** Frames stored without compression *)

Module DefRoundtrip.
Import Def DefFacts.
#[local] Open Scope res_scope.

(** *** Rows of an image *)

Lemma skipn_nth_cons {A} (l : list A) (a : nat) (d : A) :
  (a < List.length l)%nat -> skipn a l = nth a l d :: skipn (S a) l.
Proof.
  revert a. induction l as [|x l IH]; intros a H; cbn [List.length] in H;
    [lia|].
  destruct a as [|a]; [reflexivity|].
  cbn [skipn nth]. rewrite (IH a) by lia. reflexivity.
Qed.

Lemma map_nth_seq_from {A} (l : list A) (d : A) (n : nat) :
  forall a, (a + n <= List.length l)%nat ->
  map (fun x => nth (a + x) l d) (seq 0 n) = firstn n (skipn a l).
Proof.
  induction n as [|n IH]; intros a H; [reflexivity|].
  cbn [seq map]. rewrite <- seq_shift, map_map.
  rewrite (skipn_nth_cons l a d) by lia. cbn [firstn].
  rewrite Nat.add_0_r. f_equal.
  rewrite <- (IH (S a)) by lia.
  apply map_ext. intros x. f_equal. lia.
Qed.

Lemma firstn_plus {A} (l : list A) (n m : nat) :
  firstn (n + m) l = firstn n l ++ firstn m (skipn n l).
Proof.
  revert l. induction n as [|n IH]; intros l; [reflexivity|].
  destruct l as [|x l]; [cbn; now rewrite firstn_nil|].
  cbn [Nat.add firstn skipn app]. now rewrite IH.
Qed.

Lemma rows_from {A} (l : list A) (d : A) (w n : nat) :
  forall a, ((a + n) * w <= List.length l)%nat ->
  flat_map (fun y => map (fun x => nth (y * w + x) l d) (seq 0 w)) (seq a n)
  = firstn (n * w) (skipn (a * w) l).
Proof.
  induction n as [|n IH]; intros a H; [reflexivity|].
  cbn [seq flat_map]. rewrite map_nth_seq_from by nia.
  rewrite IH by nia.
  replace (S n * w)%nat with (w + n * w)%nat by lia.
  rewrite firstn_plus, skipn_skipn.
  replace (w + a * w)%nat with (S a * w)%nat by lia. reflexivity.
Qed.

(** The rows of an image, one after the other, are its pixels. *)
Lemma rows_of_pixels {A} (d : A) (pix : list A) (w h : Z) :
  0 <= w -> 0 <= h -> Py.len pix = w * h ->
  flat_map (fun y => map (fun x => nth (Z.to_nat (y * w + x)) pix d)
                         (PySeq.range w))
           (PySeq.range h)
  = pix.
Proof.
  intros Hw Hh Hlen. unfold PySeq.range.
  assert (Hl : List.length pix = (Z.to_nat h * Z.to_nat w)%nat)
    by (unfold Py.len in Hlen; nia).
  transitivity (firstn (Z.to_nat h * Z.to_nat w) (skipn (0 * Z.to_nat w) pix)).
  - rewrite <- (rows_from pix d (Z.to_nat w) (Z.to_nat h) 0%nat)
      by (cbn; lia).
    rewrite !flat_map_concat_map, map_map. f_equal.
    apply map_ext. intros y. rewrite map_map.
    apply map_ext. intros x. f_equal. nia.
  - cbn [Nat.mul skipn]. rewrite <- Hl. apply firstn_all.
Qed.

Lemma in_frame (x y w h : Z) :
  0 <= x < w -> 0 <= y < h ->
  (0 <=? x) && (x <? w) && (0 <=? y) && (y <? h) = true.
Proof.
  intros Hx Hy.
  destruct (Z.leb_spec 0 x); [|lia]. destruct (Z.ltb_spec x w); [|lia].
  destruct (Z.leb_spec 0 y); [|lia]. destruct (Z.ltb_spec y h); [|lia].
  reflexivity.
Qed.

Lemma gather_row_all (im : image) (y : Z) (xs : list Z) :
  Py.len (im_pix im) = im_w im * im_h im ->
  0 <= y < im_h im ->
  (forall x, In x xs -> 0 <= x < im_w im) ->
  gather_row im 0 y xs
  = Ok (map (fun x => nth (Z.to_nat (y * im_w im + x)) (im_pix im) 0) xs).
Proof.
  intros Hlen Hy. induction xs as [|x xs IH]; intros Hxs; [reflexivity|].
  cbn [gather_row map]. unfold getpixel. cbn [Z.add].
  pose proof (Hxs x (or_introl eq_refl)) as Hx.
  rewrite in_frame by assumption.
  rewrite (PyFacts.index_ok _ _ 0) by nia. cbn [rbind].
  rewrite IH by (intros x' Hx'; apply Hxs; now right). reflexivity.
Qed.

Lemma gather_all (im : image) (ys : list Z) :
  Py.len (im_pix im) = im_w im * im_h im ->
  (forall y, In y ys -> 0 <= y < im_h im) ->
  gather im 0 0 (im_w im) ys
  = Ok (flat_map
          (fun y => map (fun x => nth (Z.to_nat (y * im_w im + x))
                                      (im_pix im) 0)
                        (PySeq.range (im_w im)))
          ys).
Proof.
  intros Hlen. induction ys as [|y ys IH]; intros Hys; [reflexivity|].
  cbn [gather flat_map]. cbn [Z.add].
  rewrite gather_row_all;
    [|assumption|apply Hys; now left
     |intros x Hx; now apply PyFacts.in_range in Hx].
  cbn [rbind]. rewrite IH by (intros y' Hy'; apply Hys; now right).
  reflexivity.
Qed.

(** Reading the whole of a well-formed image gives its pixels. *)
Lemma gather_image (im : image) :
  0 <= im_w im -> 0 <= im_h im ->
  Py.len (im_pix im) = im_w im * im_h im ->
  gather im 0 0 (im_w im) (PySeq.range (im_h im)) = Ok (im_pix im).
Proof.
  intros Hw Hh Hlen. rewrite gather_all.
  - now rewrite rows_of_pixels.
  - assumption.
  - intros y Hy. now apply PyFacts.in_range in Hy.
Qed.

Lemma flat_map_ext_in {A B} (f g : A -> list B) (l : list A) :
  (forall a, In a l -> f a = g a) -> flat_map f l = flat_map g l.
Proof.
  induction l as [|a l IH]; intros H; [reflexivity|].
  cbn [flat_map]. rewrite (H a) by now left.
  rewrite IH by (intros b Hb; apply H; now right). reflexivity.
Qed.

(** A frame that covers the canvas replaces it. *)
Lemma paste_whole (w h : Z) (pix : list Z) :
  0 <= w -> 0 <= h -> Py.len pix = w * h ->
  paste (image_new w h) (mkImage w h pix) 0 0 = mkImage w h pix.
Proof.
  intros Hw Hh Hlen. unfold paste, image_new. cbn [im_w im_h]. f_equal.
  etransitivity; [|exact (rows_of_pixels 0 pix w h Hw Hh Hlen)].
  apply flat_map_ext_in. intros y Hy. apply map_ext_in. intros x Hx.
  apply PyFacts.in_range in Hx, Hy.
  destruct (Z.leb_spec 0 x); [|lia]. destruct (Z.ltb_spec x (0 + w)); [|lia].
  destruct (Z.leb_spec 0 y); [|lia]. destruct (Z.ltb_spec y (0 + h)); [|lia].
  cbn [andb]. unfold pixel. cbn [im_w im_h im_pix].
  rewrite !Z.sub_0_r. now rewrite in_frame by lia.
Qed.

(** *** The frame block of an image packed without compression *)

Lemma pack_u32s_cons (v : Z) (vs : list Z) (out : list Z) :
  pack_u32s (v :: vs) = Ok out ->
  exists rest, pack_u32s vs = Ok rest /\ out = Py.le_bytes 4 v ++ rest
               /\ 0 <= v < 4294967296.
Proof.
  cbn [pack_u32s]. unfold Py.pack_u32.
  destruct (Z.leb_spec 0 v); destruct (Z.ltb_spec v 4294967296);
    cbn [andb or_raise rbind]; try discriminate.
  destruct (pack_u32s vs) as [rest|e]; cbn [rbind]; [|discriminate].
  intros Hout. exists rest. repeat split; try lia. congruence.
Qed.

Lemma pack_into_head (old new rest : list Z) :
  List.length old = List.length new ->
  Py.pack_into (old ++ rest) 0 new = Some (new ++ rest).
Proof.
  intros Hl. unfold Py.pack_into. cbn [Z.ltb Z.compare].
  rewrite PyFacts.len_app. pose proof (PyFacts.len_nonneg rest).
  assert (Hn : Py.len new = Py.len old) by (unfold Py.len; lia).
  destruct (Z.leb_spec (0 + Py.len new) (Py.len old + Py.len rest)); [|lia].
  cbn [Z.leb Z.compare andb Z.to_nat firstn app].
  rewrite Z.add_0_l, Hn. unfold Py.len. rewrite Nat2Z.id.
  now rewrite skipn_app, skipn_all, Nat.sub_diag.
Qed.

(** The header of a frame block as [_pack_bitmap] leaves it: eight fields
    of four bytes, the first one set to the size of the body at the end. *)
Lemma frame_header_written (c w h fw fh l t : Z) (hb body out : list Z) :
  pack_u32s [0; c; w; h; fw; fh; l; t] = Ok hb ->
  set_file_size (hb ++ body) = Ok out ->
  exists hb',
    out = hb' ++ body /\ List.length hb' = 32%nat
    /\ unpack_pic hb' = Ok (mkPic (Py.len body) c w h fw fh l t).
Proof.
  intros Hp Hs.
  repeat (apply pack_u32s_cons in Hp as (? & Hp & ? & ?)).
  cbn [pack_u32s] in Hp. inversion Hp; subst; clear Hp.
  unfold set_file_size in Hs.
  assert (Hl32 : Py.len (Py.le_bytes 4 0 ++ Py.le_bytes 4 c ++ Py.le_bytes 4 w
                         ++ Py.le_bytes 4 h ++ Py.le_bytes 4 fw
                         ++ Py.le_bytes 4 fh ++ Py.le_bytes 4 l
                         ++ Py.le_bytes 4 t ++ []) = 32).
  { unfold Py.len. rewrite !length_app, !LodFacts.length_le_bytes.
    reflexivity. }
  rewrite PyFacts.len_app, Hl32 in Hs.
  replace (32 + Py.len body - 32) with (Py.len body) in Hs by lia.
  unfold Py.pack_u32 in Hs.
  destruct (Z.leb_spec 0 (Py.len body)); [|pose proof (PyFacts.len_nonneg body); lia].
  destruct (Z.ltb_spec (Py.len body) 4294967296);
    cbn [andb or_raise rbind] in Hs; [|discriminate].
  exists (Py.le_bytes 4 (Py.len body) ++ Py.le_bytes 4 c ++ Py.le_bytes 4 w
          ++ Py.le_bytes 4 h ++ Py.le_bytes 4 fw ++ Py.le_bytes 4 fh
          ++ Py.le_bytes 4 l ++ Py.le_bytes 4 t ++ []).
  split; [|split].
  - rewrite <- app_assoc in Hs.
    rewrite (pack_into_head (Py.le_bytes 4 0) (Py.le_bytes 4 (Py.len body)))
      in Hs by (now rewrite !LodFacts.length_le_bytes).
    cbn [or_raise] in Hs. rewrite <- app_assoc. congruence.
  - rewrite !length_app, !LodFacts.length_le_bytes. reflexivity.
  - unfold unpack_pic.
    rewrite !length_app, !LodFacts.length_le_bytes.
    cbn [List.length Nat.add Nat.eqb].
    repeat match goal with
           | |- context [Py.le_bytes 4 ?v] =>
               let E := fresh "E" in
               destruct (GraphicsFacts.le_bytes4 v) as (? & ? & ? & ? & E); rewrite E
           end.
    cbn [app]. cbv beta zeta.
    repeat match goal with
           | |- context [Py.slice ?L ?a ?b] =>
               let r := eval cbv in (Py.slice L a b) in
               change (Py.slice L a b) with r
           end.
    repeat match goal with
           | E : Py.le_bytes _ _ = _ |- _ => rewrite <- E; clear E
           end.
    rewrite !GraphicsFacts.u32_value by lia. reflexivity.
Qed.

Lemma pack_uncompressed (bmp : image) (spec : option image) (res : list Z) :
  0 <= im_w bmp -> 0 <= im_h bmp ->
  Py.len (im_pix bmp) = im_w bmp * im_h bmp ->
  _pack_bitmap bmp spec 0 = Ok res ->
  exists hb,
    res = hb ++ im_pix bmp /\ List.length hb = 32%nat
    /\ unpack_pic hb
       = Ok (mkPic (Py.len (im_pix bmp)) 0 (im_w bmp) (im_h bmp)
                   (im_w bmp) (im_h bmp) 0 0).
Proof.
  intros Hw Hh Hlen. unfold _pack_bitmap.
  cbn [Z.eqb andb negb]. cbv beta iota zeta. rewrite !Z.sub_0_r.
  destruct (pack_u32s _) as [hb|e] eqn:Hp; cbn [rbind]; [|discriminate].
  destruct (Z.eqb_spec (im_w bmp) 0) as [Hz|Hnz].
  - intros Hs. rewrite <- (app_nil_r hb) in Hs.
    destruct (frame_header_written _ _ _ _ _ _ _ _ _ _ Hp Hs)
      as (hb' & Hres & Hl & Hun).
    assert (Hnil : im_pix bmp = []).
    { destruct (im_pix bmp); [reflexivity|].
      unfold Py.len in Hlen. cbn [List.length] in Hlen. nia. }
    rewrite Hnil. exists hb'. repeat split; assumption.
  - rewrite gather_image by assumption. cbn [rbind].
    destruct (match spec with
              | Some sp => gather sp 0 0 (im_w bmp) (PySeq.range (im_h bmp))
              | None => _
              end) as [sh|e]; cbn [rbind]; [|discriminate].
    intros Hs.
    destruct (frame_header_written _ _ _ _ _ _ _ _ _ _ Hp Hs)
      as (hb' & Hres & Hl & Hun).
    exists hb'. repeat split; assumption.
Qed.

(** A slice that lies within the middle of three parts. *)
Lemma slice_middle (pre mid post : list Z) (a b : Z) :
  0 <= a -> a <= b -> b <= Py.len mid ->
  Py.slice (pre ++ mid ++ post) (Py.len pre + a) (Py.len pre + b)
  = firstn (Z.to_nat (b - a)) (skipn (Z.to_nat a) mid).
Proof.
  intros Ha Hab Hb. unfold Py.slice, Py.clamp.
  rewrite !PyFacts.len_app.
  pose proof (PyFacts.len_nonneg pre). pose proof (PyFacts.len_nonneg post).
  destruct (Z.ltb_spec (Py.len pre + a) 0); [lia|].
  destruct (Z.ltb_spec (Py.len pre + b) 0); [lia|].
  rewrite !Z.min_r by lia.
  replace (Py.len pre + b - (Py.len pre + a)) with (b - a) by lia.
  replace (Z.to_nat (Py.len pre + a))
    with (Z.to_nat a + List.length pre)%nat by (unfold Py.len; lia).
  rewrite <- skipn_skipn, skipn_app, skipn_all, Nat.sub_diag.
  cbn [skipn app]. rewrite skipn_app, firstn_app.
  replace (Z.to_nat (b - a) - List.length (skipn (Z.to_nat a) mid))%nat
    with 0%nat by (rewrite length_skipn; unfold Py.len in Hb; lia).
  cbn [firstn]. apply app_nil_r.
Qed.

(** X19: An image packed without compression comes back pixel for pixel.  When
    [_pack_bitmap] with compression 0 has written the frame block [res] of a
    well-formed image, and a DEF holds [res] at the offset of its frame [k],
    [extract_bmp] returns an image of the same size with the same palette
    indices, and no shadow image. *)
Theorem uncompressed_frame_roundtrip (bmp : image) (spec : option image)
  (res pre post : list Z) (w : TRSDefWrapper) (k : Z) :
  0 <= im_w bmp -> 0 <= im_h bmp ->
  Py.len (im_pix bmp) = im_w bmp * im_h bmp ->
  _pack_bitmap bmp spec 0 = Ok res ->
  data w = pre ++ res ++ post ->
  PySeq.index (pic_links w) k = Ok (Py.len pre) ->
  pictures_count w <= Py.len pre ->
  extract_bmp w k = Ok (bmp, None).
Proof.
  intros Hw Hh Hlen Hpack Hdata Hlink Hcount.
  destruct (pack_uncompressed bmp spec res Hw Hh Hlen Hpack)
    as (hb & -> & Hl32 & Hun).
  assert (Hlz : Py.len hb = 32) by (unfold Py.len; rewrite Hl32; reflexivity).
  pose proof (PyFacts.len_nonneg (im_pix bmp)) as Hpix.
  unfold extract_bmp. rewrite Hlink. cbn [rbind].
  unfold _extract_buffer, extract_header.
  destruct (Z.ltb_spec (Py.len pre) (pictures_count w)); [lia|].
  rewrite Hdata.
  replace (Py.len pre) with (Py.len pre + 0) at 1 by lia.
  rewrite slice_middle by (rewrite ?PyFacts.len_app; lia).
  cbn [Z.to_nat skipn]. rewrite Z.sub_0_r.
  change (Z.to_nat 32) with 32%nat. rewrite <- Hl32 at 1.
  rewrite firstn_app, Nat.sub_diag, firstn_all. cbn [firstn].
  rewrite app_nil_r, Hun. cbn [rbind].
  unfold frame_geometry, is_old_format.
  cbn [Compression Width Height FrameWidth FrameHeight Z.eqb andb].
  rewrite andb_false_r.
  unfold extract_body. cbn [Compression Z.eqb FrameWidth FrameHeight].
  rewrite <- Hlen.
  replace (Py.len pre + 32 + Py.len (im_pix bmp))
    with (Py.len pre + (32 + Py.len (im_pix bmp))) by lia.
  rewrite slice_middle by (rewrite ?PyFacts.len_app; lia).
  replace (32 + Py.len (im_pix bmp) - 32) with (Py.len (im_pix bmp)) by lia.
  change (Z.to_nat 32) with 32%nat. rewrite <- Hl32.
  rewrite skipn_app, skipn_all, Nat.sub_diag. cbn [skipn app].
  replace (Z.to_nat (Py.len (im_pix bmp))) with (List.length (im_pix bmp))
    by (unfold Py.len; lia).
  rewrite firstn_all.
  cbn [rbind Width Height FrameWidth FrameHeight FrameLeft FrameTop].
  destruct bmp as [bw bh pix]. cbn [im_w im_h im_pix] in *.
  destruct (Nat.eqb (List.length pix) 0) eqn:Hempty.
  - apply Nat.eqb_eq in Hempty. destruct pix; [|discriminate].
    cbn [rbind]. unfold image_new.
    replace (bw * bh) with 0 by (unfold Py.len in Hlen; cbn in Hlen; lia).
    reflexivity.
  - unfold frombytes. rewrite Hlen, Z.eqb_refl. cbn [rbind].
    rewrite paste_whole by assumption. reflexivity.
Qed.

(** The bytes of a frame block that was packed. *)
Definition frame_bytes (r : result (list Z)) : list Z :=
  match r with
  | Ok bs => bs
  | Raise _ => []
  end.

(** A DEF of one frame: sixteen bytes, the frame block of an image of 2 by
    2 packed without compression, and one byte more. *)
Definition small_def : TRSDefWrapper :=
  mkWrapper (Py.zeros 16
             ++ frame_bytes (_pack_bitmap (mkImage 2 2 [1; 2; 3; 4]) None 0)
             ++ [9])
            1 [16].

Lemma uncompressed_frame_roundtrip_witness :
  extract_bmp small_def 0 = Ok (mkImage 2 2 [1; 2; 3; 4], None).
Proof.
  apply (uncompressed_frame_roundtrip
           (mkImage 2 2 [1; 2; 3; 4]) None
           (frame_bytes (_pack_bitmap (mkImage 2 2 [1; 2; 3; 4]) None 0))
           (Py.zeros 16) [9] small_def 0);
    try (vm_compute; reflexivity); try (vm_compute; discriminate).
Defined.

End DefRoundtrip.

(** ** Colours, palettes and the merged image *)

Module DefColors.
Import Def DefFacts.
#[local] Open Scope res_scope.

(** *** The bits of a swapped colour *)

Lemma testbit_255 (n : Z) : 0 <= n -> Z.testbit 255 n = (n <? 8).
Proof.
  intros H. change 255 with (Z.ones 8). now apply Z.testbit_ones_nonneg.
Qed.

Lemma testbit_65280 (n : Z) :
  0 <= n -> Z.testbit 65280 n = (8 <=? n) && (n <? 16).
Proof.
  intros H. change 65280 with (Z.shiftl (Z.ones 8) 8).
  rewrite Z.shiftl_spec by assumption.
  destruct (Z.leb_spec 8 n).
  - rewrite Z.testbit_ones_nonneg by lia.
    destruct (Z.ltb_spec (n - 8) 8); destruct (Z.ltb_spec n 16);
      try reflexivity; lia.
  - now rewrite Z.testbit_neg_r by lia.
Qed.

Lemma testbit_swap_color (c n : Z) :
  0 <= n ->
  Z.testbit (swap_color c) n
  = if n <? 8 then Z.testbit c (n + 16)
    else if n <? 16 then Z.testbit c n
    else if n <? 24 then Z.testbit c (n - 16)
    else false.
Proof.
  intros H. unfold swap_color. rewrite !Z.lor_spec.
  assert (H1 : Z.testbit (Z.shiftl (Z.land c 255) 16) n
               = (16 <=? n) && ((n <? 24) && Z.testbit c (n - 16))).
  { rewrite Z.shiftl_spec by lia. destruct (Z.leb_spec 16 n).
    - rewrite Z.land_spec, testbit_255 by lia. cbn [andb].
      destruct (Z.ltb_spec (n - 16) 8); destruct (Z.ltb_spec n 24);
        try lia; cbn [andb]; now rewrite ?andb_true_r, ?andb_false_r.
    - now rewrite Z.testbit_neg_r by lia. }
  assert (H2 : Z.testbit (Z.land c 65280) n
               = Z.testbit c n && ((8 <=? n) && (n <? 16)))
    by (now rewrite Z.land_spec, testbit_65280 by lia).
  assert (H3 : Z.testbit (Z.land (Z.shiftr c 16) 255) n
               = Z.testbit c (n + 16) && (n <? 8))
    by (now rewrite Z.land_spec, Z.shiftr_spec, testbit_255 by lia).
  rewrite H1, H2, H3. clear H1 H2 H3.
  destruct (Z.ltb_spec n 8); destruct (Z.ltb_spec n 16);
    destruct (Z.ltb_spec n 24); destruct (Z.leb_spec 8 n);
    destruct (Z.leb_spec 16 n); try lia; cbn [andb orb];
    rewrite ?andb_true_r, ?andb_false_r, ?orb_false_r; reflexivity.
Qed.

(** X20: [swap_color] exchanges the first and the third byte of a colour and
    drops what lies above the third: applied twice, it gives back the low 24
    bits. *)
Theorem swap_color_twice (c : Z) :
  swap_color (swap_color c) = Z.land c 16777215.
Proof.
  apply Z.bits_inj'. intros n Hn.
  rewrite testbit_swap_color by assumption.
  rewrite Z.land_spec. change 16777215 with (Z.ones 24).
  rewrite (Z.testbit_ones_nonneg 24 n) by lia.
  destruct (Z.ltb_spec n 8).
  - rewrite testbit_swap_color by lia.
    destruct (Z.ltb_spec (n + 16) 8); [lia|].
    destruct (Z.ltb_spec (n + 16) 16); [lia|].
    destruct (Z.ltb_spec (n + 16) 24); [|lia].
    destruct (Z.ltb_spec n 24); [|lia].
    rewrite andb_true_r. f_equal. lia.
  - destruct (Z.ltb_spec n 16).
    + rewrite testbit_swap_color by lia.
      destruct (Z.ltb_spec n 8); [lia|]. destruct (Z.ltb_spec n 16); [|lia].
      destruct (Z.ltb_spec n 24); [|lia]. now rewrite andb_true_r.
    + destruct (Z.ltb_spec n 24).
      * rewrite testbit_swap_color by lia.
        destruct (Z.ltb_spec (n - 16) 8); [|lia].
        rewrite andb_true_r. f_equal. lia.
      * now rewrite andb_false_r.
Qed.

Lemma testbit_byte (v n : Z) :
  0 <= v < 256 -> 8 <= n -> Z.testbit v n = false.
Proof.
  intros Hv Hn. destruct (Z.eq_dec v 0) as [->|Hne].
  - apply Z.testbit_0_l.
  - apply Z.bits_above_log2; [lia|].
    assert (Z.log2 v < 8) by (apply Z.log2_lt_pow2; lia). lia.
Qed.

Lemma testbit_rgb (r g b n : Z) :
  0 <= r < 256 -> 0 <= g < 256 -> 0 <= b < 256 -> 0 <= n ->
  Z.testbit (Z.lor (Z.lor (Z.shiftl r 16) (Z.shiftl g 8)) b) n
  = if n <? 8 then Z.testbit b n
    else if n <? 16 then Z.testbit g (n - 8)
    else Z.testbit r (n - 16).
Proof.
  intros Hr Hg Hb Hn. rewrite !Z.lor_spec, !Z.shiftl_spec by lia.
  destruct (Z.ltb_spec n 8).
  - now rewrite !Z.testbit_neg_r by lia.
  - rewrite (testbit_byte b n) by lia. rewrite orb_false_r.
    destruct (Z.ltb_spec n 16).
    + now rewrite (Z.testbit_neg_r r) by lia.
    + rewrite (testbit_byte g (n - 8)) by lia. now rewrite orb_false_r.
Qed.

(** The three bytes that [_make_full_bmp] takes out of an entry of its
    lookup arrays: the blue, the green and the red of the palette colour. *)
Lemma swapped_components (r g b : Z) :
  0 <= r < 256 -> 0 <= g < 256 -> 0 <= b < 256 ->
  let color := swap_color (Z.lor (Z.lor (Z.shiftl r 16) (Z.shiftl g 8)) b) in
  Z.land (Z.shiftr color 16) 255 = b
  /\ Z.land (Z.shiftr color 8) 255 = g
  /\ Z.land color 255 = r.
Proof.
  intros Hr Hg Hb color. subst color.
  repeat split; apply Z.bits_inj'; intros n Hn;
    rewrite Z.land_spec, ?Z.shiftr_spec, testbit_255 by lia;
    rewrite testbit_swap_color by lia;
    destruct (Z.ltb_spec n 8);
    try (rewrite andb_false_r; symmetry; apply testbit_byte; lia);
    rewrite andb_true_r.
  - destruct (Z.ltb_spec (n + 16) 8); [lia|].
    destruct (Z.ltb_spec (n + 16) 16); [lia|].
    destruct (Z.ltb_spec (n + 16) 24); [|lia].
    rewrite testbit_rgb by lia.
    destruct (Z.ltb_spec (n + 16 - 16) 8); [|lia]. f_equal. lia.
  - destruct (Z.ltb_spec (n + 8) 8); [lia|].
    destruct (Z.ltb_spec (n + 8) 16); [|lia].
    rewrite testbit_rgb by lia.
    destruct (Z.ltb_spec (n + 8) 8); [lia|].
    destruct (Z.ltb_spec (n + 8) 16); [|lia]. f_equal. lia.
  - rewrite testbit_rgb by lia.
    destruct (Z.ltb_spec (n + 16) 8); [lia|].
    destruct (Z.ltb_spec (n + 16) 16); [lia|]. f_equal. lia.
Qed.

(** *** The palette handed to Pillow *)

Lemma palette_loop_spec (p : list Z) (n : nat) :
  forall a, ((a + n) * 3 <= List.length p)%nat ->
  palette_loop p (map Z.of_nat (seq a n))
  = Ok (map (fun i => (nth (i * 3) p 0, nth (i * 3 + 1) p 0,
                       nth (i * 3 + 2) p 0))
            (seq a n)).
Proof.
  induction n as [|n IH]; intros a H; [reflexivity|].
  cbn [seq map palette_loop].
  rewrite !(PyFacts.index_ok p _ 0) by (unfold Py.len; lia). cbn [rbind].
  rewrite IH by lia. cbn [rbind].
  replace (Z.to_nat (Z.of_nat a * 3)) with (a * 3)%nat by lia.
  replace (Z.to_nat (Z.of_nat a * 3 + 1)) with (a * 3 + 1)%nat by lia.
  replace (Z.to_nat (Z.of_nat a * 3 + 2)) with (a * 3 + 2)%nat by lia.
  reflexivity.
Qed.

(** X21: [make_log_palette] takes a palette of 768 bytes apart into 256
    colours, and the list comprehension that hands the colours to
    [putpalette] puts the same 768 bytes together again; a palette of any
    other length raises [ValueError]. *)
Theorem palette_roundtrip (p : list Z) :
  match make_log_palette p with
  | Ok pal => Py.len p = 768 /\ List.length pal = 256%nat /\ pal_data pal = p
  | Raise e => e = ValueError /\ Py.len p <> 768
  end.
Proof.
  unfold make_log_palette.
  destruct (Z.eqb_spec (Py.len p) 768) as [Hl|Hl]; cbn [negb];
    [|split; [reflexivity|assumption]].
  assert (Hn : List.length p = 768%nat) by (unfold Py.len in Hl; lia).
  unfold PySeq.range. rewrite palette_loop_spec by (rewrite Hn; cbn; lia).
  split; [assumption|]. split; [now rewrite length_map, length_seq|].
  unfold pal_data. rewrite flat_map_concat_map, map_map.
  rewrite <- flat_map_concat_map.
  change (Z.to_nat 256) with 256%nat.
  pose proof (DefRoundtrip.rows_from p 0 3 256 0%nat) as Hrows.
  rewrite Hn in Hrows. specialize (Hrows ltac:(cbn; lia)).
  change (seq 0 3) with [0; 1; 2]%nat in Hrows.
  change (skipn (0 * 3) p) with p in Hrows.
  replace (256 * 3)%nat with (List.length p) in Hrows by (rewrite Hn; reflexivity).
  rewrite firstn_all in Hrows. cbn [map] in Hrows.
  etransitivity; [|exact Hrows].
  apply flat_map_ext. intros i. now rewrite !Nat.add_0_r.
Qed.

(** *** Merging the object and the shadow image *)

(** A palette as [_make_full_bmp] finds it: 256 colours of three bytes. *)
Definition palette_ok (pal : list (Z * Z * Z)) : bool :=
  Nat.eqb (List.length pal) 256
  && forallb (fun rgb => let '(r, g, b) := rgb in
                         DefSafety.is_byte r && DefSafety.is_byte g
                         && DefSafety.is_byte b) pal.

(** An image of mode ['P'] of [w] by [h] pixels. *)
Definition image_ok (w h : Z) (im : image) : bool :=
  (im_w im =? w) && (im_h im =? h) && (Py.len (im_pix im) =? w * h)
  && DefSafety.all_bytes (im_pix im).

(** The colour that a pixel with the palette index [p1] in the object
    image and [p2] in the shadow image stands for, with red and blue
    exchanged. *)
Definition merged_pixel (pure_pal pal : list (Z * Z * Z)) (p : Z * Z)
  : Z * Z * Z * Z :=
  let '(p1, p2) := p in
  let '(r, g, b) := if p2 =? 255 then nth (Z.to_nat p1) pure_pal (0, 0, 0)
                    else nth (Z.to_nat p2) pal (0, 0, 0) in
  (b, g, r, 255).

Lemma is_byte_range (v : Z) : DefSafety.is_byte v = true -> 0 <= v < 256.
Proof.
  unfold DefSafety.is_byte. intros H. apply andb_true_iff in H as [H1 H2].
  lia.
Qed.

Lemma lookup_entry (pal : list (Z * Z * Z)) (p : Z) :
  palette_ok pal = true -> 0 <= p < 256 ->
  exists r g b,
    nth (Z.to_nat p) pal (0, 0, 0) = (r, g, b)
    /\ PySeq.index (lookup_array pal) p
       = Ok (swap_color (Z.lor (Z.lor (Z.shiftl r 16) (Z.shiftl g 8)) b))
    /\ 0 <= r < 256 /\ 0 <= g < 256 /\ 0 <= b < 256.
Proof.
  unfold palette_ok. intros H Hp. apply andb_true_iff in H as [Hl Hb].
  apply Nat.eqb_eq in Hl. rewrite forallb_forall in Hb.
  assert (Hin : In (nth (Z.to_nat p) pal (0, 0, 0)) pal)
    by (apply nth_In; lia).
  specialize (Hb _ Hin).
  destruct (nth (Z.to_nat p) pal (0, 0, 0)) as [[r g] b] eqn:E.
  apply andb_true_iff in Hb as [Hb Hb3]. apply andb_true_iff in Hb as [Hb1 Hb2].
  exists r, g, b. split; [reflexivity|].
  split; [|now repeat split; apply is_byte_range].
  rewrite (PyFacts.index_ok _ p 0)
    by (unfold Py.len, lookup_array; rewrite length_map; lia).
  unfold lookup_array.
  change 0 with ((fun rgb : Z * Z * Z =>
                    let '(r, g, b) := rgb in
                    swap_color (Z.lor (Z.lor (Z.shiftl r 16) (Z.shiftl g 8)) b))
                   (0, 0, 0)) at 1.
  rewrite map_nth, E. reflexivity.
Qed.

Lemma image_ok_inv (w h : Z) (im : image) :
  image_ok w h im = true ->
  im_w im = w /\ im_h im = h /\ Py.len (im_pix im) = w * h
  /\ DefSafety.all_bytes (im_pix im) = true.
Proof.
  unfold image_ok. intros H.
  apply andb_true_iff in H as [H H4]. apply andb_true_iff in H as [H H3].
  apply andb_true_iff in H as [H1 H2]. repeat split; try lia; assumption.
Qed.

Lemma full_row_spec (pure_pal pal : list (Z * Z * Z)) (bmp bmp_spec : image)
  (w h y : Z) (xs : list Z) :
  palette_ok pure_pal = true -> palette_ok pal = true ->
  image_ok w h bmp = true -> image_ok w h bmp_spec = true ->
  0 <= y < h -> (forall x, In x xs -> 0 <= x < w) ->
  full_row (lookup_array pure_pal) (lookup_array pal) bmp bmp_spec y xs
  = Ok (map (fun x => merged_pixel pure_pal pal
                        (nth (Z.to_nat (y * w + x)) (im_pix bmp) 0,
                         nth (Z.to_nat (y * w + x)) (im_pix bmp_spec) 0))
            xs).
Proof.
  intros Hp1 Hp2 Hb Hs Hy.
  apply image_ok_inv in Hb as (Hbw & Hbh & Hbl & Hbb).
  apply image_ok_inv in Hs as (Hsw & Hsh & Hsl & Hsb).
  induction xs as [|x xs IH]; intros Hxs; [reflexivity|].
  cbn [full_row map]. pose proof (Hxs x (or_introl eq_refl)) as Hx.
  unfold getpixel. rewrite Hbw, Hbh, Hsw, Hsh.
  rewrite DefRoundtrip.in_frame by assumption.
  rewrite !(PyFacts.index_ok _ _ 0) by nia. cbn [rbind].
  pose proof (DefSafety.all_bytes_nth (im_pix bmp) (Z.to_nat (y * w + x)) Hbb)
    as H1.
  pose proof (DefSafety.all_bytes_nth (im_pix bmp_spec)
                (Z.to_nat (y * w + x)) Hsb) as H2.
  set (p1 := nth (Z.to_nat (y * w + x)) (im_pix bmp) 0) in *.
  set (p2 := nth (Z.to_nat (y * w + x)) (im_pix bmp_spec) 0) in *.
  rewrite IH by (intros x' Hx'; apply Hxs; now right).
  assert (Hc : exists color,
             (if p2 =? 255 then PySeq.index (lookup_array pure_pal) p1
              else PySeq.index (lookup_array pal) p2) = Ok color
             /\ (Z.land (Z.shiftr color 16) 255, Z.land (Z.shiftr color 8) 255,
                 Z.land color 255, 255)
                = merged_pixel pure_pal pal (p1, p2)).
  { unfold merged_pixel. destruct (p2 =? 255).
    - destruct (lookup_entry pure_pal p1 Hp1 H1)
        as (r & g & b & E & Hi & Hr & Hg & Hb').
      rewrite E, Hi. eexists. split; [reflexivity|].
      destruct (swapped_components r g b Hr Hg Hb') as (-> & -> & ->).
      reflexivity.
    - destruct (lookup_entry pal p2 Hp2 H2)
        as (r & g & b & E & Hi & Hr & Hg & Hb').
      rewrite E, Hi. eexists. split; [reflexivity|].
      destruct (swapped_components r g b Hr Hg Hb') as (-> & -> & ->).
      reflexivity. }
  destruct Hc as (color & -> & Hcol). cbn [rbind]. now rewrite Hcol.
Qed.

Lemma full_rows_spec (pure_pal pal : list (Z * Z * Z)) (bmp bmp_spec : image)
  (w h : Z) (ys : list Z) :
  palette_ok pure_pal = true -> palette_ok pal = true ->
  image_ok w h bmp = true -> image_ok w h bmp_spec = true ->
  (forall y, In y ys -> 0 <= y < h) ->
  full_rows (lookup_array pure_pal) (lookup_array pal) bmp bmp_spec w ys
  = Ok (flat_map
          (fun y =>
             map (fun x => merged_pixel pure_pal pal
                             (nth (Z.to_nat (y * w + x)) (im_pix bmp) 0,
                              nth (Z.to_nat (y * w + x)) (im_pix bmp_spec) 0))
                 (PySeq.range w))
          ys).
Proof.
  intros Hp1 Hp2 Hb Hs.
  induction ys as [|y ys IH]; intros Hys; [reflexivity|].
  cbn [full_rows flat_map].
  rewrite (full_row_spec pure_pal pal bmp bmp_spec w h y);
    try assumption;
    [|apply Hys; now left|intros x Hx; now apply PyFacts.in_range in Hx].
  cbn [rbind]. rewrite IH by (intros y' Hy'; apply Hys; now right).
  reflexivity.
Qed.

(** X22: [_make_full_bmp] exchanges red and blue.  For an object image and a
    shadow image of the same size and two palettes of 256 colours, every
    pixel of the RGBA image is (blue, green, red, 255) of the palette
    colour the pixel stands for (the colour of the object index in the pure
    palette where the shadow index is 255, the colour of the shadow index in
    the other palette elsewhere): the lookup arrays are built with
    [swap_color], and the bytes are taken out of them as if they had not
    been swapped. *)
Theorem full_bmp_swaps_red_and_blue (pure_pal pal : list (Z * Z * Z))
  (bmp bmp_spec : image) (w h : Z) :
  palette_ok pure_pal = true -> palette_ok pal = true ->
  0 <= w -> 0 <= h ->
  image_ok w h bmp = true -> image_ok w h bmp_spec = true ->
  _make_full_bmp pure_pal pal bmp bmp_spec
  = Ok (mkRgba w h (map (merged_pixel pure_pal pal)
                        (combine (im_pix bmp) (im_pix bmp_spec)))).
Proof.
  intros Hp1 Hp2 Hw Hh Hb Hs. unfold _make_full_bmp.
  pose proof (image_ok_inv w h bmp Hb) as (Hbw & Hbh & Hbl & _).
  pose proof (image_ok_inv w h bmp_spec Hs) as (_ & _ & Hsl & _).
  rewrite Hbw, Hbh.
  destruct (Z.eqb_spec h 0) as [Hz|Hnz].
  - assert (Hnil : im_pix bmp = []).
    { destruct (im_pix bmp); [reflexivity|].
      unfold Py.len in Hbl. cbn [List.length] in Hbl. nia. }
    rewrite Hnil. reflexivity.
  - rewrite (full_rows_spec pure_pal pal bmp bmp_spec w h) by
      (try assumption; intros y Hy; now apply PyFacts.in_range in Hy).
    cbn [rbind]. do 2 f_equal.
    set (g := merged_pixel pure_pal pal).
    set (l := combine (im_pix bmp) (im_pix bmp_spec)).
    assert (Hlen : List.length (im_pix bmp) = List.length (im_pix bmp_spec))
      by (unfold Py.len in Hbl, Hsl; lia).
    assert (Hl : Py.len (map g l) = w * h).
    { unfold Py.len, l. rewrite length_map, length_combine, <- Hlen.
      rewrite Nat.min_id. exact Hbl. }
    etransitivity;
      [|exact (DefRoundtrip.rows_of_pixels (g (0, 0)) (map g l) w h Hw Hh Hl)].
    apply flat_map_ext. intros y. apply map_ext. intros x.
    rewrite map_nth. unfold l. now rewrite combine_nth.
Qed.

(** A palette of greys behind one colour. *)
Definition sample_palette : list (Z * Z * Z) :=
  (200, 100, 50) :: map (fun i => (i, i, i)) (PySeq.range 255).

Lemma full_bmp_swaps_red_and_blue_witness :
  _make_full_bmp sample_palette sample_palette
                 (mkImage 2 1 [0; 7]) (mkImage 2 1 [255; 9])
  = Ok (mkRgba 2 1 [(50, 100, 200, 255); (8, 8, 8, 255)]).
Proof.
  apply (full_bmp_swaps_red_and_blue sample_palette sample_palette
           (mkImage 2 1 [0; 7]) (mkImage 2 1 [255; 9]) 2 1);
    try (vm_compute; reflexivity); lia.
Defined.

End DefColors.
